(** * python-ags4: the rule engine of [python_ags4/check.py]

    A shallow embedding of the AGS4 checker: the error aggregator
    ([add_error_msg]), the dictionary merger ([combine_DICT_tables]), the
    line rules and the group rules, followed by the properties proved of
    them.

    Conventions of the embedding.
    - A Python [str] is a [string]; its characters are the code points
      0..255.
    - The error log [ags_errors] is a Python [dict] from rule name to a list
      of records; it is kept as an association list in insertion order.
    - A line rule only touches the log, and is a function from the log it
      is handed to the log it returns (the same object, mutated in place).
    - A group rule also sees the mutable parsed tables, and may raise; it
      lives in a state-and-exception monad whose state survives a raise,
      as Python object state does.
    - A table is a DataFrame of strings: its row labels, its column names
      and its rows.  The tables of the file and the frames a rule makes
      with [.copy()] are distinct objects: a [Ref] names either a table or
      a copy in the store of copies, a column assignment goes to the
      object its [Ref] names, and the copies of a rule are dropped when
      the rule is left.
    - The order in which Python iterates over a [set] follows the hashes of
      its strings; it is a parameter of the rules that iterate over one. *)

From Stdlib Require Import List String Ascii ZArith Lia Bool Arith.
Import ListNotations.
Open Scope string_scope.

Set Implicit Arguments.

(** ** Python string operations *)

Module PyStr.

Definition code (c : ascii) : nat := nat_of_ascii c.

(** [str.isascii] *)
Fixpoint isascii (s : string) : bool :=
  match s with
  | EmptyString => true
  | String c s' => (code c <? 128)%nat && isascii s'
  end.

(** Whitespace as [str.isspace], [str.strip()] and the regex class [\s]
    see it, for code points below 256. *)
Definition is_space (c : ascii) : bool :=
  let n := code c in
  (((9 <=? n) && (n <=? 13)) || ((28 <=? n) && (n <=? 32))
   || (n =? 133) || (n =? 160))%nat.

Definition is_upper_char (c : ascii) : bool :=
  let n := code c in
  (((65 <=? n) && (n <=? 90)) || ((192 <=? n) && (n <=? 214))
   || ((216 <=? n) && (n <=? 222)))%nat.

Definition is_lower_char (c : ascii) : bool :=
  let n := code c in
  (((97 <=? n) && (n <=? 122)) || (n =? 170) || (n =? 181) || (n =? 186)
   || ((223 <=? n) && (n <=? 246)) || ((248 <=? n) && (n <=? 255)))%nat.

Fixpoint forallb_str (p : ascii -> bool) (s : string) : bool :=
  match s with
  | EmptyString => true
  | String c s' => p c && forallb_str p s'
  end.

Fixpoint existsb_str (p : ascii -> bool) (s : string) : bool :=
  match s with
  | EmptyString => false
  | String c s' => p c || existsb_str p s'
  end.

(** [str.isspace]: at least one character, all of them whitespace. *)
Definition isspace (s : string) : bool :=
  negb (s =? "") && forallb_str is_space s.

(** [str.isupper]: no lowercase character and at least one uppercase. *)
Definition isupper (s : string) : bool :=
  negb (existsb_str is_lower_char s) && existsb_str is_upper_char s.

(** [str.lstrip], [str.rstrip] and [str.strip] over a class of
    characters. *)
Fixpoint lstrip_by (p : ascii -> bool) (s : string) : string :=
  match s with
  | EmptyString => EmptyString
  | String c s' => if p c then lstrip_by p s' else s
  end.

Fixpoint rstrip_by (p : ascii -> bool) (s : string) : string :=
  match s with
  | EmptyString => EmptyString
  | String c s' =>
      match rstrip_by p s' with
      | EmptyString => if p c then EmptyString else String c EmptyString
      | r => String c r
      end
  end.

Definition strip_by (p : ascii -> bool) (s : string) : string :=
  rstrip_by p (lstrip_by p s).

(** The double-quote character, and the three-character field
    delimiter quote-comma-quote of the wire format. *)
Definition dq : ascii := "034"%char.
Definition QCQ : string := String dq (String "," (String dq "")).
(** A field between double quotes. *)
Definition quoted (s : string) : string := String dq (s ++ String dq "").

Definition is_quote (c : ascii) : bool := Ascii.eqb c dq.
Definition is_crlf (c : ascii) : bool :=
  Ascii.eqb c "013"%char || Ascii.eqb c "010"%char.

(** [s.rstrip()] *)
Definition rstrip (s : string) : string := rstrip_by is_space s.
(** [s.strip(q)] for the one-character string [q] holding a double
    quote *)
Definition strip_quotes (s : string) : string := strip_by is_quote s.
(** [s.strip('\r\n')] *)
Definition strip_crlf (s : string) : string := strip_by is_crlf s.

(** [s.startswith(p)] *)
Definition startswith (p s : string) : bool := prefix p s.

Fixpoint rev_str (acc s : string) : string :=
  match s with
  | EmptyString => acc
  | String c s' => rev_str (String c acc) s'
  end.

(** [s.endswith(p)] *)
Definition endswith (p s : string) : bool :=
  prefix (rev_str "" p) (rev_str "" s).

(** [s[-2:]] *)
Definition last2 (s : string) : string :=
  substring (length s - 2) 2 s.

(** [s.split(sep)] for a non-empty separator: the occurrences of [sep]
    are found from the left and do not overlap.  [skip] counts the
    characters of a separator just found that are still to be passed. *)
Fixpoint split_go (sep : string) (skip : nat) (acc : string) (s : string)
  : list string :=
  match s with
  | EmptyString => [rev_str "" acc]
  | String c s' =>
      match skip with
      | S k => split_go sep k acc s'
      | O =>
          if prefix sep s
          then rev_str "" acc :: split_go sep (length sep - 1) "" s'
          else split_go sep 0 (String c acc) s'
      end
  end.

Definition split (sep s : string) : list string := split_go sep 0 "" s.

(** [sep.join(l)] *)
Definition join (sep : string) (l : list string) : string := concat sep l.

Definition lower_char (c : ascii) : ascii :=
  let n := code c in
  if ((65 <=? n) && (n <=? 90))%nat then ascii_of_nat (n + 32) else c.

Fixpoint lower (s : string) : string :=
  match s with
  | EmptyString => EmptyString
  | String c s' => String (lower_char c) (lower s')
  end.

(** [p in s] for strings *)
Fixpoint contains (p s : string) : bool :=
  prefix p s ||
  match s with
  | EmptyString => false
  | String _ s' => contains p s'
  end.

(** [Series.str.contains(p, case=False)] on one cell, for a pattern [p]
    of plain lowercase letters. *)
Definition contains_nocase (p s : string) : bool := contains p (lower s).

(** [x in l] for a list of strings *)
Definition mem (x : string) (l : list string) : bool :=
  existsb (String.eqb x) l.

(** [set(a).issubset(set(b))] *)
Definition issubset (a b : list string) : bool :=
  forallb (fun x => mem x b) a.

(** [len(set(l))] *)
Definition len_set (l : list string) : nat :=
  List.length (nodup string_dec l).

End PyStr.

Definition CRLF : string := String "013" (String "010" "").

(** ** The error aggregator *)

(** The [line] of a record is a line number, or the placeholder [-] that
    the group rules pass. *)
Inductive LineRef : Type :=
| Line (n : Z)
| Dash.

(** One entry of the log: the dict with keys [line], [group], [desc]. *)
Module Err.
Record t : Type := mk { line : LineRef; group : string; desc : string }.

End Err.

(** [ags_errors]: rule name to list of records, in insertion order. *)
Definition ErrorLog : Type := list (string * list Err.t).

(** [ags_errors[rule]]; [None] stands for [KeyError]. *)
Fixpoint log_get (ags_errors : ErrorLog) (rule : string) : option (list Err.t) :=
  match ags_errors with
  | [] => None
  | (k, v) :: rest => if k =? rule then Some v else log_get rest rule
  end.

(** [ags_errors[rule].append(r)]; [None] stands for [KeyError]. *)
Fixpoint log_append (ags_errors : ErrorLog) (rule : string) (r : Err.t)
  : option ErrorLog :=
  match ags_errors with
  | [] => None
  | (k, v) :: rest =>
      if k =? rule then Some ((k, (v ++ [r])%list) :: rest)
      else option_map (cons (k, v)) (log_append rest rule r)
  end.

(** [add_error_msg]: append under [rule], creating the list on [KeyError]. *)
Definition add_error_msg (ags_errors : ErrorLog) (rule : string)
    (line : LineRef) (group desc : string) : ErrorLog :=
  let r := Err.mk line group desc in
  match log_append ags_errors rule r with
  | Some ags_errors' => ags_errors'
  | None => (ags_errors ++ [(rule, [r])])%list
  end.

(** The number of records of a log. *)
Definition log_size (ags_errors : ErrorLog) : nat :=
  list_sum (map (fun kv => List.length (snd kv)) ags_errors).

(** ** The dictionary *)

(** A row of a DICT table, with the columns the checker reads. *)
Record DictRow : Type := mkDict {
  HEADING : string;
  DICT_TYPE : string;
  DICT_GRP : string;
  DICT_HDNG : string;
  DICT_STAT : string;
  DICT_PGRP : string
}.

Definition Dictionary : Type := list DictRow.

(** ** Tables *)

(** The data of a DataFrame: column names, and the rows as lists of cells,
    one cell per column. *)
Module Frame.
Record t : Type := mk { columns : list string; values : list (list string) }.

Fixpoint position (c : string) (cols : list string) : option nat :=
  match cols with
  | [] => None
  | x :: rest => if x =? c then Some 0 else option_map S (position c rest)
  end.

(** [row[c]] *)
Definition cell (cols : list string) (row : list string) (c : string)
  : option string :=
  match position c cols with
  | Some i => Some (nth i row "")
  | None => None
  end.

(** [df[c].tolist()]; [None] stands for [KeyError]. *)
Definition column (df : t) (c : string) : option (list string) :=
  match position c (columns df) with
  | Some i => Some (map (fun row => nth i row "") (values df))
  | None => None
  end.

(** [row[cs].tolist()] *)
Fixpoint cells (cols : list string) (row : list string) (cs : list string)
  : option (list string) :=
  match cs with
  | [] => Some []
  | c :: rest =>
      match cell cols row c, cells cols row rest with
      | Some v, Some vs => Some (v :: vs)
      | _, _ => None
      end
  end.

(** The rows selected by a boolean mask: [df.loc[mask, :]]. *)
Fixpoint select (A : Type) (mask : list bool) (l : list A) : list A :=
  match mask, l with
  | b :: mask', x :: l' => if b then x :: select mask' l' else select mask' l'
  | _, _ => []
  end.

(** The rows whose HEADING cell is [d]. *)
Definition rows_of (df : t) (d : string) : option (list (list string)) :=
  match column df "HEADING" with
  | Some h => Some (select (map (String.eqb d) h) (values df))
  | None => None
  end.

(** [df.loc[df[k] == d, c].to_list()] *)
Definition where_ (df : t) (k d c : string) : option (list string) :=
  match column df k, column df c with
  | Some h, Some v => Some (select (map (String.eqb d) h) v)
  | _, _ => None
  end.

Fixpoint set_nth (A : Type) (i : nat) (x : A) (l : list A) : list A :=
  match i, l with
  | O, _ :: l' => x :: l'
  | S j, y :: l' => y :: set_nth j x l'
  | _, [] => []
  end.

Fixpoint set_cells (i : nat) (v : list string) (rows : list (list string))
  : list (list string) :=
  match v, rows with
  | x :: v', row :: rows' => set_nth i x row :: set_cells i v' rows'
  | _, _ => rows
  end.

Fixpoint add_cells (v : list string) (rows : list (list string))
  : list (list string) :=
  match v, rows with
  | x :: v', row :: rows' => (row ++ [x])%list :: add_cells v' rows'
  | _, _ => rows
  end.

(** [df[c] = v]: the cells of column [c] become [v]; a column that the
    DataFrame does not have is added after the others. *)
Definition assign (df : t) (c : string) (v : list string) : t :=
  match position c (columns df) with
  | Some i => mk (columns df) (set_cells i v (values df))
  | None => mk (columns df ++ [c])%list (add_cells v (values df))
  end.

Definition list_eqb (a b : list string) : bool :=
  if list_eq_dec string_dec a b then true else false.

(** [df.duplicated(cs, keep=False)]: a row is marked when another row has
    the same cells under [cs]. *)
Fixpoint count_occ_b (k : list string) (ks : list (list string)) : nat :=
  match ks with
  | [] => 0
  | x :: rest => (if list_eqb k x then 1 else 0) + count_occ_b k rest
  end.

Fixpoint keys_of (cols : list string) (rows : list (list string))
    (cs : list string) : option (list (list string)) :=
  match rows with
  | [] => match cells cols [] cs with Some _ => Some [] | None => None end
  | row :: rest =>
      match cells cols row cs, keys_of cols rest cs with
      | Some k, Some ks => Some (k :: ks)
      | _, _ => None
      end
  end.

Definition duplicated (df : t) (cs : list string) : option (list bool) :=
  match keys_of (columns df) (values df) cs with
  | Some ks => Some (map (fun k => (1 <? count_occ_b k ks)%nat) ks)
  | None => None
  end.
End Frame.

(** A DataFrame object of [tables]: its row labels and its data.  The row
    labels are what [reset_index] rewrites and what [.loc[label, column]]
    reads; nothing else in the checker reads them. *)
Record DataFrame : Type := mkDF { index : list Z; data : Frame.t }.

(** [range(n)] as row labels *)
Definition range_index (n : nat) : list Z := map Z.of_nat (seq 0 n).

(** [df.reset_index(drop=True, inplace=True)] *)
Definition reset_index (df : DataFrame) : DataFrame :=
  mkDF (range_index (List.length (Frame.values (data df)))) (data df).

Fixpoint label_position (label : Z) (idx : list Z) : option nat :=
  match idx with
  | [] => None
  | x :: rest =>
      if Z.eqb x label then Some 0 else option_map S (label_position label rest)
  end.

(** [df.loc[label, c]]; [None] stands for [KeyError]. *)
Definition loc (df : DataFrame) (label : Z) (c : string) : option string :=
  match label_position label (index df), Frame.position c (Frame.columns (data df)) with
  | Some i, Some j =>
      match nth_error (Frame.values (data df)) i with
      | Some row => Some (nth j row "")
      | None => None
      end
  | _, _ => None
  end.

(** ** State and exceptions *)

(** The objects a check run shares: the parsed tables (mutable DataFrames
    by group name, in file order), the heading index, the error log, and
    what has been printed; and the DataFrames that the rule that is
    running has made with [.copy()], which are its own. *)
Record State : Type := mkState {
  tables : list (string * DataFrame);
  headings : list (string * list string);
  ags_errors : ErrorLog;
  stdout : list string;
  copies : list Frame.t
}.

(** A reference to a DataFrame object: a table of [tables], or a DataFrame
    made by [.copy()]. *)
Inductive Ref : Type :=
| Table (key : string)
| Copy (n : nat).

Inductive Exn : Type := KeyError | IndexError | ValueError | SystemExit.

Inductive Res (A : Type) : Type :=
| Ok (a : A)
| Raise (e : Exn).
Arguments Raise {A} e.

(** A computation: from a state to the state it leaves and its outcome.
    The state left behind is kept when the outcome is a raise. *)
Definition M (A : Type) : Type := State -> State * Res A.

Definition ret (A : Type) (a : A) : M A := fun s => (s, Ok a).

Definition bind (A B : Type) (m : M A) (k : A -> M B) : M B :=
  fun s =>
    match m s with
    | (s', Ok a) => k a s'
    | (s', Raise e) => (s', Raise e)
    end.

Definition raise (A : Type) (e : Exn) : M A := fun s => (s, Raise e).
Arguments raise {A} e.

Declare Scope py_scope.
Delimit Scope py_scope with py.
Notation "x <- m ;; k" := (bind m (fun x => k))
  (at level 61, m at next level, right associativity) : py_scope.
Notation "m ;; k" := (bind m (fun _ => k))
  (at level 61, right associativity) : py_scope.
Open Scope py_scope.

(** [try: m except e1: h1 except e2: h2 ...]: the first clause whose class
    is the one raised runs, on the state the raise left; a raise inside a
    clause is not caught by its neighbours. *)
Definition exn_eqb (a b : Exn) : bool :=
  match a, b with
  | KeyError, KeyError | IndexError, IndexError
  | ValueError, ValueError | SystemExit, SystemExit => true
  | _, _ => false
  end.

Fixpoint handler_for (A : Type) (e : Exn) (clauses : list (Exn * M A))
  : option (M A) :=
  match clauses with
  | [] => None
  | (e', h) :: rest => if exn_eqb e e' then Some h else handler_for e rest
  end.

Definition try_except (A : Type) (m : M A) (clauses : list (Exn * M A)) : M A :=
  fun s =>
    match m s with
    | (s', Raise e) =>
        match handler_for e clauses with
        | Some h => h s'
        | None => (s', Raise e)
        end
    | r => r
    end.

(** [for x in xs: body] *)
Fixpoint for_each (X : Type) (xs : list X) (body : X -> M unit) : M unit :=
  match xs with
  | [] => ret tt
  | x :: rest => body x ;; for_each rest body
  end.

(** A loop that threads a local variable through its iterations. *)
Fixpoint for_fold (X S : Type) (xs : list X) (init : S) (body : X -> S -> M S)
  : M S :=
  match xs with
  | [] => ret init
  | x :: rest => s' <- body x init ;; for_fold rest s' body
  end.

(** A loop whose body may [return]: the body answers [true] when it has
    returned, and the loop stops there. *)
Fixpoint for_until (X : Type) (xs : list X) (body : X -> M bool) : M bool :=
  match xs with
  | [] => ret false
  | x :: rest =>
      stop <- body x ;;
      if (stop : bool) then ret true else for_until rest body
  end.

(** Lifting a lookup: [None] raises [e]. *)
Definition lift (A : Type) (e : Exn) (o : option A) : M A :=
  match o with
  | Some a => ret a
  | None => raise e
  end.

Definition when (b : bool) (m : M unit) : M unit := if b then m else ret tt.

Fixpoint assoc (A : Type) (k : string) (l : list (string * A)) : option A :=
  match l with
  | [] => None
  | (k', v) :: rest => if k' =? k then Some v else assoc k rest
  end.

Fixpoint assoc_update (A : Type) (k : string) (f : A -> A)
    (l : list (string * A)) : list (string * A) :=
  match l with
  | [] => []
  | (k', v) :: rest =>
      if k' =? k then (k', f v) :: rest else (k', v) :: assoc_update k f rest
  end.

(** The primitives of the group rules. *)

(** [for key in tables] and [tables.keys()] *)
Definition table_keys : M (list string) :=
  fun s => (s, Ok (map fst (tables s))).

(** [for key in headings] *)
Definition heading_keys : M (list string) :=
  fun s => (s, Ok (map fst (headings s))).

(** [tables[key]], read: the data of the table as it is at the time.  The
    rules read a table through this; the one write they make to a table
    is [table_reset_index]. *)
Definition table (key : string) : M Frame.t :=
  fun s =>
    match assoc key (tables s) with
    | Some df => (s, Ok (data df))
    | None => (s, Raise KeyError)
    end.

Definition with_copies (s : State) (c : list Frame.t) : State :=
  mkState (tables s) (headings s) (ags_errors s) (stdout s) c.

(** [tables[key].copy()]: a new DataFrame object that holds the data of
    the table as it is at the time of the call. *)
Definition table_copy (key : string) : M Ref :=
  fun s =>
    match assoc key (tables s) with
    | Some df =>
        (with_copies s (copies s ++ [data df])%list,
         Ok (Copy (List.length (copies s))))
    | None => (s, Raise KeyError)
    end.

(** The data of the object behind a reference, as it is at the time. *)
Definition read (r : Ref) : M Frame.t :=
  match r with
  | Table key => table key
  | Copy n =>
      fun s =>
        match nth_error (copies s) n with
        | Some d => (s, Ok d)
        | None => (s, Raise KeyError)
        end
  end.

(** [df[c] = v], on the object behind the reference: a table of [tables]
    when the reference is to one, a copy otherwise. *)
Definition assign_column (r : Ref) (c : string) (v : list string) : M unit :=
  match r with
  | Table key =>
      fun s =>
        match assoc key (tables s) with
        | Some _ =>
            (mkState
               (assoc_update key
                  (fun df => mkDF (index df) (Frame.assign (data df) c v))
                  (tables s))
               (headings s) (ags_errors s) (stdout s) (copies s), Ok tt)
        | None => (s, Raise KeyError)
        end
  | Copy n =>
      fun s =>
        match nth_error (copies s) n with
        | Some d =>
            (with_copies s (Frame.set_nth n (Frame.assign d c v) (copies s)),
             Ok tt)
        | None => (s, Raise KeyError)
        end
  end.

(** The body of a rule that makes copies: it starts with none of its own,
    and the ones it made are gone when it returns or raises; those of its
    caller are as they were. *)
Definition in_frame (A : Type) (m : M A) : M A :=
  fun s =>
    match m (with_copies s []) with
    | (s', r) => (with_copies s' (copies s), r)
    end.

(** [headings[key]] *)
Definition heading_list (key : string) : M (list string) :=
  fun s =>
    match assoc key (headings s) with
    | Some h => (s, Ok h)
    | None => (s, Raise KeyError)
    end.

(** [tables[key].reset_index(drop=True, inplace=True)] *)
Definition table_reset_index (key : string) : M unit :=
  fun s =>
    match assoc key (tables s) with
    | Some _ =>
        (mkState (assoc_update key reset_index (tables s))
           (headings s) (ags_errors s) (stdout s) (copies s), Ok tt)
    | None => (s, Raise KeyError)
    end.

(** [tables[key].loc[label, c]] *)
Definition table_loc (key : string) (label : Z) (c : string) : M string :=
  fun s =>
    match assoc key (tables s) with
    | Some df =>
        match loc df label c with
        | Some v => (s, Ok v)
        | None => (s, Raise KeyError)
        end
    | None => (s, Raise KeyError)
    end.

(** [add_error_msg(ags_errors, rule, line, group, desc)] on the shared log *)
Definition record (rule : string) (line : LineRef) (group desc : string)
  : M unit :=
  fun s =>
    (mkState (tables s) (headings s)
       (add_error_msg (ags_errors s) rule line group desc) (stdout s)
       (copies s), Ok tt).

(** Reading the shared log. *)
Definition errors : M ErrorLog := fun s => (s, Ok (ags_errors s)).

(** [rprint(msg)] *)
Definition rprint (msg : string) : M unit :=
  fun s =>
    (mkState (tables s) (headings s) (ags_errors s) (stdout s ++ [msg])%list
       (copies s), Ok tt).

(** [sys.exit()] *)
Definition sys_exit (A : Type) : M A := raise SystemExit.
Arguments sys_exit {A}.

(** A line rule run on the shared log. *)
Definition on_log (f : ErrorLog -> ErrorLog) : M unit :=
  fun s =>
    (mkState (tables s) (headings s) (f (ags_errors s)) (stdout s) (copies s),
     Ok tt).

(** ** The dictionary merger *)

(** An input file as the reader [AGS4_to_dataframe] sees it: its path and
    the DICT table among its parsed tables, if it has one. *)
Record InputFile : Type := mkFile {
  path : string;
  DICT : option (list DictRow)
}.

(** The columns [drop_duplicates] compares. *)
Definition dup_key (r : DictRow) : list string :=
  [HEADING r; DICT_TYPE r; DICT_GRP r; DICT_HDNG r].

(** [drop_duplicates(subset, keep=first)]: a row is dropped when an earlier
    row has the same cells under [subset]. *)
Fixpoint drop_duplicates_go (seen : list (list string)) (l : list DictRow)
  : list DictRow :=
  match l with
  | [] => []
  | r :: rest =>
      if existsb (Frame.list_eqb (dup_key r)) seen
      then drop_duplicates_go seen rest
      else r :: drop_duplicates_go (dup_key r :: seen) rest
  end.

Definition drop_duplicates (l : list DictRow) : list DictRow :=
  drop_duplicates_go [] l.

Definition combine_DICT_tables (input_files : list InputFile) : M Dictionary :=
  master_DICT <-
    for_fold input_files ([] : list DictRow) (fun file master_DICT =>
      try_except
        (d <- lift KeyError (DICT file) ;;
         ret (master_DICT ++ d)%list)
        [(KeyError,
          rprint ("[yellow]  WARNING:There is no DICT table in " ++ path file
                  ++ ".[/yellow]") ;;
          ret master_DICT)]) ;;
  if (List.length master_DICT =? 0)%nat
  then
    rprint "[red]  ERROR: No DICT tables available to proceed with checking.[/red]" ;;
    rprint "[red]         Please ensure the input file has a DICT table or provide file with standard AGS4 dictionary.[/red]" ;;
    sys_exit
  else ret (drop_duplicates master_DICT).

(** ** Line rules *)

(** [temp], the fields of a line: split at quote-comma-quote after the
    trailing whitespace is gone, each piece stripped of quotes. *)
Definition fields (line : string) : list string :=
  map PyStr.strip_quotes (PyStr.split PyStr.QCQ (PyStr.rstrip line)).

(** [line.strip(quote).startswith(d)] *)
Definition starts (d line : string) : bool :=
  PyStr.startswith d (PyStr.strip_quotes line).

Definition field_at (i : nat) (temp : list string) : string := nth i temp "".

Definition rule_1 (line : string) (line_number : Z) (ags_errors : ErrorLog)
  : ErrorLog :=
  if negb (PyStr.isascii line)
  then add_error_msg ags_errors "Rule 1" (Line line_number) ""
         "Has Non-ASCII character(s)."
  else ags_errors.

Definition rule_2a (line : string) (line_number : Z) (ags_errors : ErrorLog)
  : ErrorLog :=
  if negb (PyStr.last2 line =? CRLF)
  then add_error_msg ags_errors "Rule 2a" (Line line_number) ""
         "Is not terminated by <CR> and <LF> characters."
  else ags_errors.

Definition rule_2c (line : string) (line_number : Z) (ags_errors : ErrorLog)
  : ErrorLog :=
  if starts "HEADING" line
  then
    let temp := fields line in
    if negb (List.length temp =? PyStr.len_set temp)%nat
    then add_error_msg ags_errors "Rule 2c" (Line line_number) ""
           "HEADER row has duplicate fields."
    else ags_errors
  else ags_errors.

Definition rule_3 (line : string) (line_number : Z) (ags_errors : ErrorLog)
  : ErrorLog :=
  if negb (PyStr.isspace line)
  then
    let temp := fields line in
    if negb (PyStr.mem (field_at 0 temp) ["GROUP"; "HEADING"; "TYPE"; "UNIT"; "DATA"])
    then add_error_msg ags_errors "Rule 3" (Line line_number) ""
           "Does not start with a valid data descriptor."
    else ags_errors
  else ags_errors.

Definition rule_4a (line : string) (line_number : Z) (ags_errors : ErrorLog)
  : ErrorLog :=
  if PyStr.startswith (PyStr.quoted "GROUP") line
  then
    let temp := fields line in
    if (2 <? List.length temp)%nat
    then add_error_msg ags_errors "Rule 4a" (Line line_number) (field_at 1 temp)
           "GROUP row has more than one field."
    else if (List.length temp <? 2)%nat
    then add_error_msg ags_errors "Rule 4a" (Line line_number) ""
           "GROUP row is malformed."
    else ags_errors
  else ags_errors.

(** The test of [rule_4b] for a record of the same group that already
    says the headings row is missing. *)
Definition is_missing_headings (group : string) (d : Err.t) : bool :=
  (Err.group d =? group) && (Err.desc d =? "Headings row missing.").

Definition rule_4b (line : string) (line_number : Z) (group : string)
    (headings : list string) (ags_errors : ErrorLog) : ErrorLog :=
  if starts "UNIT" line || starts "TYPE" line || starts "DATA" line
  then
    let temp := fields line in
    if (List.length headings =? 0)%nat
    then
      match log_get ags_errors "Rule 4b" with
      | Some l =>
          if negb (existsb (is_missing_headings group) l)
          then add_error_msg ags_errors "Rule 4b" Dash group "Headings row missing."
          else ags_errors
      | None =>
          add_error_msg ags_errors "Rule 4b" Dash group "Headings row missing."
      end
    else if negb (List.length temp =? List.length headings)%nat
    then add_error_msg ags_errors "Rule 4b" (Line line_number) group
           "Number of fields does not match the HEADING row."
    else ags_errors
  else ags_errors.

Definition rule_5 (line : string) (line_number : Z) (ags_errors : ErrorLog)
  : ErrorLog :=
  if negb (PyStr.isspace line)
  then
    if negb (PyStr.startswith (String PyStr.dq "") line)
       || negb (PyStr.endswith (String PyStr.dq "") (PyStr.strip_crlf line))
    then add_error_msg ags_errors "Rule 5" (Line line_number) ""
           "Contains fields that are not enclosed in double quotes."
    else if starts "HEADING" line || starts "UNIT" line || starts "TYPE" line
    then
      if negb (List.length (PyStr.split PyStr.QCQ line)
               =? List.length (PyStr.split "," line))%nat
      then add_error_msg ags_errors "Rule 5" (Line line_number) ""
             "Contains fields that are not enclosed in double quotes."
      else ags_errors
    else ags_errors
  else if (line =? CRLF) || (line =? String "010" "")
  then ags_errors
  else add_error_msg ags_errors "Rule 5" (Line line_number) ""
         "Contains only spaces.".

Definition rule_6 (line : string) (line_number : Z) (ags_errors : ErrorLog)
  : ErrorLog := ags_errors.

Definition rule_19 (line : string) (line_number : Z) (ags_errors : ErrorLog)
  : ErrorLog :=
  if starts "GROUP" line
  then
    let temp := fields line in
    if (2 <=? List.length temp)%nat
    then
      if negb (String.length (field_at 1 temp) =? 4)%nat
         || negb (PyStr.isupper (field_at 1 temp))
      then add_error_msg ags_errors "Rule 19" (Line line_number) (field_at 1 temp)
             "GROUP name should consist of four uppercase letters."
      else ags_errors
    else ags_errors
  else ags_errors.

Definition rule_19a (line : string) (line_number : Z) (group : string)
    (ags_errors : ErrorLog) : ErrorLog :=
  if starts "HEADING" line
  then
    let temp := fields line in
    if (2 <=? List.length temp)%nat
    then
      fold_left (fun ags_errors item =>
        if negb (PyStr.isupper item) || (9 <? String.length item)%nat
        then add_error_msg ags_errors "Rule 19a" (Line line_number) group
               ("Heading " ++ item
                ++ " should be uppercase and limited to 9 character in length.")
        else ags_errors) (tl temp) ags_errors
    else add_error_msg ags_errors "Rule 19a" (Line line_number) group
           "Headings row does not seem to have any fields."
  else ags_errors.

(** The body of the loop of [rule_19b] for one heading.  The second piece
    of the split is asked for only when the first has four characters;
    asking for it when the heading has no underscore is the [IndexError]
    of the source. *)
Definition rule_19b_item (line_number : Z) (group : string)
    (ags_errors : ErrorLog) (item : string) : ErrorLog :=
  let pieces := PyStr.split "_" item in
  if negb (String.length (nth 0 pieces "") =? 4)%nat
  then add_error_msg ags_errors "Rule 19b" (Line line_number) group
         ("Heading " ++ item
          ++ " should consist of a 4 charater group name and a field name of upto 4 characters.")
  else
    match nth_error pieces 1 with
    | Some field =>
        if (4 <? String.length field)%nat
        then add_error_msg ags_errors "Rule 19b" (Line line_number) group
               ("Heading " ++ item
                ++ " should consist of a 4 charater group name and a field name of upto 4 characters.")
        else ags_errors
    | None =>
        add_error_msg ags_errors "Rule 19b" (Line line_number) group
          ("Heading " ++ item
           ++ " should consist of group name and field name separated by "
           ++ PyStr.quoted "_" ++ ".")
    end.

Definition rule_19b (line : string) (line_number : Z) (group : string)
    (ags_errors : ErrorLog) : ErrorLog :=
  if starts "HEADING" line
  then
    let temp := fields line in
    if (2 <=? List.length temp)%nat
    then fold_left (rule_19b_item line_number group) (tl temp) ags_errors
    else ags_errors
  else ags_errors.

(** A rule is defined with [ags_errors={}]: the dict is created once, when
    the rule is defined, and every call that passes no log runs on that
    same dict.  [call_rule] gives the log a call returns and the default
    dict after the call. *)
Definition call_rule (rule : ErrorLog -> ErrorLog) (default : ErrorLog)
    (ags_errors : option ErrorLog) : ErrorLog * ErrorLog :=
  match ags_errors with
  | Some log => (rule log, default)
  | None => (rule default, rule default)
  end.

(** ** Group rules *)

(** [dictionary.loc[mask, c].tolist()] *)
Definition dict_loc (dictionary : Dictionary) (mask : DictRow -> bool)
    (c : DictRow -> string) : list string :=
  map c (filter mask dictionary).

(** [DICT_STAT.str.contains(tag, case=False)] for one row. *)
Definition stat_contains (tag : string) (r : DictRow) : bool :=
  PyStr.contains_nocase tag (DICT_STAT r).

(** What [rule_2] checks of one table, once its rows are renumbered. *)
Definition rule_2_check (key : string) : M unit :=
  df <- table key ;;
  col <- lift KeyError (Frame.column df "HEADING") ;;
  when (negb (PyStr.mem "DATA" col))
    (record "Rule 2" Dash key "No DATA rows in group.").

Definition rule_2 : M unit :=
  keys <- table_keys ;;
  for_each keys (fun key =>
    table_reset_index key ;;
    rule_2_check key).

(** What [rule_2b] checks of one table, once its rows are renumbered. *)
Definition rule_2b_check (key : string) : M unit :=
  df <- table key ;;
  col <- lift KeyError (Frame.column df "HEADING") ;;
  (if negb (PyStr.mem "UNIT" col)
   then record "Rule 2b" Dash key "UNIT row missing from group."
   else
     v <- table_loc key 0 "HEADING" ;;
     when (negb (v =? "UNIT"))
       (record "Rule 2b" Dash key
          "UNIT row is misplaced. It should be immediately below the HEADING row.")) ;;
  df <- table key ;;
  col <- lift KeyError (Frame.column df "HEADING") ;;
  if negb (PyStr.mem "TYPE" col)
  then record "Rule 2b" Dash key "TYPE row missing from group."
  else
    v <- table_loc key 1 "HEADING" ;;
    when (negb (v =? "TYPE"))
      (record "Rule 2b" Dash key
         "TYPE row is misplaced. It should be immediately below the UNIT row.").

Definition rule_2b : M unit :=
  keys <- table_keys ;;
  for_each keys (fun key =>
    table_reset_index key ;;
    rule_2b_check key).

(** [l.remove(x)]: the first occurrence goes; [None] stands for
    [ValueError]. *)
Fixpoint list_remove (x : string) (l : list string) : option (list string) :=
  match l with
  | [] => None
  | y :: rest =>
      if y =? x then Some rest else option_map (cons y) (list_remove x rest)
  end.

Definition rule_7 (dictionary : Dictionary) : M unit :=
  keys <- heading_keys ;;
  for_each keys (fun key =>
    let reference_headings_list :=
      dict_loc dictionary (fun r => DICT_GRP r =? key) DICT_HDNG in
    h <- heading_list key ;;
    if PyStr.issubset (tl h) reference_headings_list
    then
      temp <- for_fold reference_headings_list reference_headings_list
                (fun item temp =>
                   if negb (PyStr.mem item h)
                   then lift ValueError (list_remove item temp)
                   else ret temp) ;;
      when (negb (Frame.list_eqb temp (tl h)))
        (record "Rule 7" Dash key
           ("HEADING names in " ++ key
            ++ " are not in the order that they are defined in the DICT table and the standard dictionary."))
    else
      record "Rule 7" Dash key
        "Order of headings could not be checked as one or more fields were not found in either the DICT table or the standard dictionary. Check error log under Rule 9.").

Definition rule_9 (dictionary : Dictionary) : M unit :=
  keys <- heading_keys ;;
  for_each keys (fun key =>
    let reference_headings_list :=
      dict_loc dictionary (fun r => DICT_GRP r =? key) DICT_HDNG in
    h <- heading_list key ;;
    for_each (tl h) (fun item =>
      when (negb (PyStr.mem item reference_headings_list))
        (record "Rule 9" Dash key
           (item ++ " not found in DICT table or the standard AGS4 dictionary.")))).

Definition rule_10a (dictionary : Dictionary) : M unit :=
  groups <- table_keys ;;
  for_each groups (fun group =>
    let key_fields :=
      dict_loc dictionary
        (fun r => (DICT_GRP r =? group) && stat_contains "key" r) DICT_HDNG in
    for_each key_fields (fun heading =>
      h <- heading_list group ;;
      when (negb (PyStr.mem heading h))
        (record "Rule 10a" Dash group ("Key field " ++ heading ++ " not found."))) ;;
    h <- heading_list group ;;
    when (PyStr.issubset key_fields h)
      (let key_fields := "HEADING" :: key_fields in
       df <- table group ;;
       mask <- lift KeyError (Frame.duplicated df key_fields) ;;
       let duplicate_rows := Frame.select mask (Frame.values df) in
       for_each duplicate_rows (fun row =>
         cs <- lift KeyError (Frame.cells (Frame.columns df) row key_fields) ;;
         let duplicate_key_combo := PyStr.join "|" cs in
         record "Rule 10a" Dash group
           ("Duplicate key field combination: " ++ duplicate_key_combo)))).

(** The groups [rule_10c] does not look a parent up for. *)
Definition root_groups : list string :=
  ["PROJ"; "TRAN"; "ABBR"; "DICT"; "UNIT"; "TYPE"; "LOCA"].

(** The rows of [child_df.merge(parent_df, how=left, on=keys,
    indicator=True)] that are marked [left_only], as the cells they hold
    under [keys]: the child rows, in order, that no parent row equals on
    every key column.  A key column missing on either side is a [KeyError];
    pandas rejects an empty list of key columns with a [ValueError]. *)
Definition orphan_rows (child_df parent_df : Ref) (keys : list string)
  : M (list (list string)) :=
  child <- read child_df ;;
  parent <- read parent_df ;;
  child_keys <- lift KeyError
    (Frame.keys_of (Frame.columns child) (Frame.values child) keys) ;;
  parent_keys <- lift KeyError
    (Frame.keys_of (Frame.columns parent) (Frame.values parent) keys) ;;
  if (List.length keys =? 0)%nat then raise ValueError
  else ret (filter (fun k => negb (existsb (Frame.list_eqb k) parent_keys))
              child_keys).

(** A cell is blank for the regex of [rule_10b] when it is empty or all
    whitespace. *)
Definition blank (cell : string) : bool := PyStr.forallb_str PyStr.is_space cell.

(** [df.loc[df[HEADING] == TYPE, heading].values[0]] *)
Definition type_of (df : Frame.t) (heading : string) : M string :=
  col <- lift KeyError (Frame.where_ df "HEADING" "TYPE" heading) ;;
  lift IndexError (hd_error col).

Section GroupRules.

(** The order in which the interpreter iterates over [set(l)], and over
    [set(a).intersection(set(b))]: they follow the hashes of the strings,
    and are the same for the same lists within one process. *)
Variable set_order : list string -> list string.
Variable set_intersection_order : list string -> list string -> list string.

Definition rule_10b (dictionary : Dictionary) : M unit :=
  in_frame
    (groups <- table_keys ;;
     for_each groups (fun group =>
       let required_fields :=
         dict_loc dictionary
           (fun r => (DICT_GRP r =? group) && stat_contains "required" r)
           DICT_HDNG in
       for_each required_fields (fun heading =>
         h <- heading_list group ;;
         when (negb (PyStr.mem heading h))
           (record "Rule 10b" Dash group
              ("Required field " ++ heading ++ " not found."))) ;;
       df <- table_copy group ;;
       h <- heading_list group ;;
       for_each (set_intersection_order required_fields h) (fun heading =>
         d <- read df ;;
         kind <- lift KeyError (Frame.column d "HEADING") ;;
         col <- lift KeyError (Frame.column d heading) ;;
         let mask :=
           map (fun p => (fst p =? "DATA") && blank (snd p)) (combine kind col) in
         assign_column df heading
           (map (fun c => if blank c then "???" else c) col) ;;
         d <- read df ;;
         let missing_required_fields := Frame.select mask (Frame.values d) in
         for_each missing_required_fields (fun row =>
           let msg := PyStr.join "|" row in
           record "Rule 10b" Dash group ("Empty REQUIRED fields: " ++ msg))))).

(** The body of the loop of [rule_10c], for one group. *)
Definition rule_10c_group (dictionary : Dictionary) (group : string) : M unit :=
  when (negb (PyStr.mem group root_groups))
    (try_except
       (parent_group <- lift IndexError
          (hd_error
             (dict_loc dictionary
                (fun r => (DICT_TYPE r =? "GROUP") && (DICT_GRP r =? group))
                DICT_PGRP)) ;;
        (* parent_group is bound from here on: the KeyError clause, which
           names it, can only be reached from below. *)
        try_except
          (if parent_group =? ""
           then record "Rule 10c" Dash group
                  "Parent group left blank in dictionary."
           else
             let parent_key_fields :=
               dict_loc dictionary
                 (fun r => (DICT_GRP r =? parent_group) && stat_contains "key" r)
                 DICT_HDNG in
             parent_df <- table_copy parent_group ;;
             child_df <- table_copy group ;;
             h <- heading_list group ;;
             both <- (if PyStr.issubset parent_key_fields h
                      then hp <- heading_list parent_group ;;
                           ret (PyStr.issubset parent_key_fields hp)
                      else ret false) ;;
             if (both : bool)
             then
               orphans <- orphan_rows child_df parent_df parent_key_fields ;;
               for_each orphans (fun row =>
                 let msg := PyStr.join "|" row in
                 record "Rule 10a" Dash group
                   ("Parent entry for line not found in " ++ parent_group
                    ++ ": " ++ msg))
             else
               record "Rule 10c" Dash group
                 ("Could not check parent entries due to missing key fields in "
                  ++ group ++ " or " ++ parent_group
                  ++ ". Check error log under Rule 10a."))
          [(KeyError,
            record "Rule 10c" Dash group
              ("Could not find parent group " ++ parent_group ++ "."))])
       [(IndexError,
         record "Rule 10c" Dash group
           "Could not check parent entries since group definitions not found in standard dictionary or DICT table.")]).

Definition rule_10c (dictionary : Dictionary) : M unit :=
  in_frame
    (groups <- table_keys ;;
     for_each groups (rule_10c_group dictionary)).

Definition rule_12 : M unit := ret tt.

(** [tables[name].loc[tables[name][HEADING] == DATA, :].shape[0]] *)
Definition data_row_count (name : string) : M nat :=
  df <- table name ;;
  rows <- lift KeyError (Frame.rows_of df "DATA") ;;
  ret (List.length rows).

Definition rule_13 : M unit :=
  keys <- table_keys ;;
  if negb (PyStr.mem "PROJ" keys)
  then record "Rule 13" Dash "PROJ" "PROJ table not found."
  else
    n <- data_row_count "PROJ" ;;
    if (n <? 1)%nat
    then record "Rule 13" Dash "PROJ"
           "There should be at least one DATA row in the PROJ table."
    else
      n <- data_row_count "PROJ" ;;
      when (1 <? n)%nat
        (record "Rule 13" Dash "PROJ"
           "There should not be more than one DATA row in the PROJ table.").

Definition rule_14 : M unit :=
  keys <- table_keys ;;
  if negb (PyStr.mem "TRAN" keys)
  then record "Rule 14" Dash "TRAN" "TRAN table not found."
  else
    n <- data_row_count "TRAN" ;;
    if (n <? 1)%nat
    then record "Rule 14" Dash "TRAN"
           "There should be at least one DATA row in the TRAN table."
    else
      n <- data_row_count "TRAN" ;;
      when (1 <? n)%nat
        (record "Rule 14" Dash "TRAN"
           "There should not be more than one DATA row in the TRAN table.").

Definition rule_15 : M unit :=
  in_frame
    (try_except
       (UNIT <- table_copy "UNIT" ;;
        groups <- table_keys ;;
        unit_list <- for_fold groups ([] : list string) (fun group unit_list =>
          df <- table_copy group ;;
          d <- read df ;;
          rows <- lift KeyError (Frame.rows_of d "UNIT") ;;
          ret (unit_list ++ List.concat rows)%list) ;;
        try_except
          (for_each (set_order unit_list) (fun entry =>
             u <- read UNIT ;;
             codes <- lift KeyError (Frame.where_ u "HEADING" "DATA" "UNIT_UNIT") ;;
             when (negb (PyStr.mem entry codes)
                   && negb (PyStr.mem entry [""; "UNIT"]))
               (record "Rule 15" Dash "-"
                  ("Unit " ++ PyStr.quoted entry ++ " not found in UNIT table."))))
          [(KeyError, ret tt)])
       [(KeyError, record "Rule 15" Dash "UNIT" "UNIT table not found.")]).

(** [for x in xs] collecting what the body returns. *)
Fixpoint for_map (X Y : Type) (xs : list X) (body : X -> M Y) : M (list Y) :=
  match xs with
  | [] => ret []
  | x :: rest => y <- body x ;; ys <- for_map rest body ;; ret (y :: ys)
  end.

(** [entry.split(concatenator)]: an empty separator is a [ValueError]. *)
Definition split_by (concatenator entry : string) : M (list string) :=
  if concatenator =? "" then raise ValueError
  else ret (PyStr.split concatenator entry).

Definition rule_16 (dictionary : Dictionary) : M unit :=
  in_frame
    (try_except
       (ABBR <- table_copy "ABBR" ;;
        groups <- table_keys ;;
        for_each groups (fun group =>
          df <- table_copy group ;;
          h <- heading_list group ;;
          for_each h (fun heading =>
            d <- read df ;;
            ty <- type_of d heading ;;
            when (ty =? "PA")
              (d <- read df ;;
               col <- lift KeyError (Frame.where_ d "HEADING" "DATA" heading) ;;
               let entries := set_order col in
               entries <-
                 try_except
                   (TRAN <- table "TRAN" ;;
                    rcon <- lift KeyError
                      (Frame.where_ TRAN "HEADING" "DATA" "TRAN_RCON") ;;
                    concatenator <- lift IndexError (hd_error rcon) ;;
                    pieces <- for_map entries (split_by concatenator) ;;
                    ret (List.concat pieces))
                   [(KeyError, ret entries)] ;;
               try_except
                 (for_each entries (fun entry =>
                    a <- read ABBR ;;
                    codes <- lift KeyError
                      (Frame.where_ a "ABBR_HDNG" heading "ABBR_CODE") ;;
                    when (negb (PyStr.mem entry codes)
                          && negb (PyStr.mem entry [""]))
                      (record "Rule 16" Dash group
                         (PyStr.quoted entry ++ " under " ++ heading ++ " in "
                          ++ group ++ " not found in ABBR table."))))
                 [(KeyError, ret tt)]))))
       [(KeyError,
         groups <- table_keys ;;
         _ <- for_until groups (fun group =>
           df <- table_copy group ;;
           h <- heading_list group ;;
           for_until h (fun heading =>
             d <- read df ;;
             ty <- type_of d heading ;;
             if ty =? "PA"
             then record "Rule 16" Dash "ABBR" "ABBR table not found." ;; ret true
             else ret false)) ;;
         ret tt)]).

Definition rule_17 (dictionary : Dictionary) : M unit :=
  in_frame
    (try_except
       (TYPE <- table_copy "TYPE" ;;
        groups <- table_keys ;;
        type_list <- for_fold groups ([] : list string) (fun group type_list =>
          df <- table_copy group ;;
          original <- table group ;;
          kind <- lift KeyError (Frame.column original "HEADING") ;;
          d <- read df ;;
          let rows := Frame.select (map (String.eqb "TYPE") kind) (Frame.values d) in
          ret (type_list ++ List.concat rows)%list) ;;
        try_except
          (for_each (set_order type_list) (fun entry =>
             t <- read TYPE ;;
             codes <- lift KeyError (Frame.where_ t "HEADING" "DATA" "TYPE_TYPE") ;;
             when (negb (PyStr.mem entry codes) && negb (PyStr.mem entry ["TYPE"]))
               (record "Rule 17" Dash "-"
                  ("Data type " ++ PyStr.quoted entry
                   ++ " not found in TYPE table."))))
          [(KeyError, ret tt)])
       [(KeyError, record "Rule 17" Dash "TYPE" "TYPE table not found.")]).

Definition rule_18 : M unit :=
  keys <- table_keys ;;
  log <- errors ;;
  when (negb (PyStr.mem "DICT" keys) && PyStr.mem "Rule 9" (map fst log))
    (record "Rule 18" Dash "DICT"
       "DICT table not found. See error log under Rule 9 for a list of non-standard headings that need to be defined in a DICT table.").

Definition rule_19c (dictionary : Dictionary) : M unit :=
  keys <- heading_keys ;;
  for_each keys (fun key =>
    h <- heading_list key ;;
    for_each (tl h) (fun heading =>
      try_except
        (let temp := PyStr.split "_" heading in
         t0 <- lift IndexError (nth_error temp 0) ;;
         when (negb (t0 =? key) && negb (PyStr.mem heading (map DICT_HDNG dictionary)))
           (record "Rule 19b" Dash key
              (heading
               ++ " does not start with the name of this group, nor is it defined in another group.")))
        [(IndexError, ret tt)])).

(** ** The validators as one catalogue *)

(** A call of a line rule, with the arguments the caller passes. *)
Inductive LineCall : Type :=
| Rule_1 (line : string) (line_number : Z)
| Rule_2a (line : string) (line_number : Z)
| Rule_2c (line : string) (line_number : Z)
| Rule_3 (line : string) (line_number : Z)
| Rule_4a (line : string) (line_number : Z)
| Rule_4b (line : string) (line_number : Z) (group : string) (headings : list string)
| Rule_5 (line : string) (line_number : Z)
| Rule_6 (line : string) (line_number : Z)
| Rule_19 (line : string) (line_number : Z)
| Rule_19a (line : string) (line_number : Z) (group : string)
| Rule_19b (line : string) (line_number : Z) (group : string).

Definition line_rule (c : LineCall) : ErrorLog -> ErrorLog :=
  match c with
  | Rule_1 l n => rule_1 l n
  | Rule_2a l n => rule_2a l n
  | Rule_2c l n => rule_2c l n
  | Rule_3 l n => rule_3 l n
  | Rule_4a l n => rule_4a l n
  | Rule_4b l n g h => rule_4b l n g h
  | Rule_5 l n => rule_5 l n
  | Rule_6 l n => rule_6 l n
  | Rule_19 l n => rule_19 l n
  | Rule_19a l n g => rule_19a l n g
  | Rule_19b l n g => rule_19b l n g
  end.

(** The group rules; each is called on the shared tables, heading index
    and log, and the schema rules on the merged dictionary. *)
Inductive GroupRule : Type :=
| Rule_2 | Rule_2b | Rule_7 | Rule_9 | Rule_10a | Rule_10b | Rule_10c
| Rule_12 | Rule_13 | Rule_14 | Rule_15 | Rule_16 | Rule_17 | Rule_18
| Rule_19c.

Definition group_rule (dictionary : Dictionary) (r : GroupRule) : M unit :=
  match r with
  | Rule_2 => rule_2
  | Rule_2b => rule_2b
  | Rule_7 => rule_7 dictionary
  | Rule_9 => rule_9 dictionary
  | Rule_10a => rule_10a dictionary
  | Rule_10b => rule_10b dictionary
  | Rule_10c => rule_10c dictionary
  | Rule_12 => rule_12
  | Rule_13 => rule_13
  | Rule_14 => rule_14
  | Rule_15 => rule_15
  | Rule_16 => rule_16 dictionary
  | Rule_17 => rule_17 dictionary
  | Rule_18 => rule_18
  | Rule_19c => rule_19c dictionary
  end.

(** A call of a validator of either kind.  A line rule is called on the
    shared log. *)
Inductive Call : Type :=
| Line_rule (c : LineCall)
| Group_rule (r : GroupRule).

Definition call (dictionary : Dictionary) (c : Call) : M unit :=
  match c with
  | Line_rule c => on_log (line_rule c)
  | Group_rule r => group_rule dictionary r
  end.

(** A check run: the calls one after the other on the shared objects; a
    raise that no rule catches ends the run. *)
Definition check_run (dictionary : Dictionary) (calls : list Call) : M unit :=
  for_each calls (call dictionary).

End GroupRules.

(** * Properties *)

(** The string operations on the wire format. *)

Example split_fields :
  PyStr.split PyStr.QCQ
    (PyStr.quoted "HEADING" ++ "," ++ PyStr.quoted "LOCA_ID" ++ ","
     ++ PyStr.quoted "LOCA_NATE")
  = [String PyStr.dq "HEADING"; "LOCA_ID"; "LOCA_NATE" ++ String PyStr.dq ""].
Proof. reflexivity. Qed.

Example split_adjacent :
  PyStr.split PyStr.QCQ ("a" ++ PyStr.QCQ ++ PyStr.QCQ ++ "b") = ["a"; ""; "b"].
Proof. reflexivity. Qed.

Example split_trailing : PyStr.split "_" "LOCA_" = ["LOCA"; ""].
Proof. reflexivity. Qed.

Example strip_both :
  PyStr.strip_quotes (PyStr.quoted (PyStr.quoted "DATA")) = "DATA".
Proof. reflexivity. Qed.

Example rstrip_crlf :
  PyStr.rstrip (PyStr.quoted "DATA" ++ CRLF) = PyStr.quoted "DATA".
Proof. reflexivity. Qed.

(** ** The log only grows *)

(** [b] extends [a]: every rule of [a] is still there, in place, its
    records followed by zero or more new ones; new rules come after. *)
Definition entry_extends (x y : string * list Err.t) : Prop :=
  fst x = fst y /\ exists e, snd y = (snd x ++ e)%list.

Definition log_extends (a b : ErrorLog) : Prop :=
  exists b1 b2, b = (b1 ++ b2)%list /\ Forall2 entry_extends a b1.

Lemma entry_extends_refl x : entry_extends x x.
Proof. split; [reflexivity | exists []; now rewrite app_nil_r]. Qed.

Lemma entry_extends_trans x y z :
  entry_extends x y -> entry_extends y z -> entry_extends x z.
Proof.
  intros [Hk [e He]] [Hk' [e' He']]. split; [congruence|].
  exists (e ++ e')%list. now rewrite He', He, app_assoc.
Qed.

Lemma Forall2_entry_refl a : Forall2 entry_extends a a.
Proof. induction a; constructor; auto using entry_extends_refl. Qed.

Lemma Forall2_entry_trans a : forall b c,
  Forall2 entry_extends a b -> Forall2 entry_extends b c ->
  Forall2 entry_extends a c.
Proof.
  induction a as [|x a IH]; intros b c Hab Hbc.
  - inversion Hab; subst. inversion Hbc; subst. constructor.
  - inversion Hab; subst. inversion Hbc; subst. constructor.
    + eapply entry_extends_trans; eassumption.
    + eapply IH; eassumption.
Qed.

Lemma log_extends_refl a : log_extends a a.
Proof.
  exists a, []. split; [now rewrite app_nil_r | apply Forall2_entry_refl].
Qed.

Lemma log_extends_trans a b c :
  log_extends a b -> log_extends b c -> log_extends a c.
Proof.
  intros (b1 & b2 & -> & Hab) (c1 & c2 & -> & Hbc).
  apply Forall2_app_inv_l in Hbc as (c11 & c12 & H1 & H2 & ->).
  exists c11, (c12 ++ c2)%list. split; [now rewrite app_assoc|].
  eapply Forall2_entry_trans; eassumption.
Qed.

Lemma log_append_extends rule r : forall log log',
  log_append log rule r = Some log' -> Forall2 entry_extends log log'.
Proof.
  induction log as [|[k v] rest IH]; simpl; intros log' H; [discriminate|].
  destruct (k =? rule).
  - injection H as <-. constructor; [|apply Forall2_entry_refl].
    split; [reflexivity | now exists [r]].
  - destruct (log_append rest rule r) as [rest'|]; [|discriminate].
    injection H as <-. constructor; [apply entry_extends_refl | now apply IH].
Qed.

Lemma add_error_msg_extends log rule line group desc :
  log_extends log (add_error_msg log rule line group desc).
Proof.
  unfold add_error_msg.
  destruct (log_append log rule (Err.mk line group desc)) as [log'|] eqn:E.
  - exists log', []. split; [now rewrite app_nil_r|].
    eapply log_append_extends; eassumption.
  - exists log, [(rule, [Err.mk line group desc])].
    split; [reflexivity | apply Forall2_entry_refl].
Qed.

Lemma log_get_app_some a b rule l :
  log_get a rule = Some l -> log_get (a ++ b)%list rule = Some l.
Proof.
  induction a as [|[k v] a IH]; simpl; [discriminate|].
  destruct (k =? rule); auto.
Qed.

Lemma log_extends_get a b rule l :
  log_extends a b -> log_get a rule = Some l ->
  exists e, log_get b rule = Some (l ++ e)%list.
Proof.
  intros (b1 & b2 & -> & H) Hget.
  enough (exists e, log_get b1 rule = Some (l ++ e)%list) as [e He]
    by (exists e; now apply log_get_app_some).
  induction H as [|[k v] [k' v'] a b1 [Hk [e He]] H IH]; simpl in *;
    [discriminate|].
  subst k' v'. destruct (k =? rule).
  - injection Hget as <-. now exists e.
  - now apply IH.
Qed.

Lemma log_size_app a b : log_size (a ++ b)%list = log_size a + log_size b.
Proof. unfold log_size. now rewrite map_app, list_sum_app. Qed.

Lemma log_extends_size a b : log_extends a b -> log_size a <= log_size b.
Proof.
  intros (b1 & b2 & -> & H). rewrite log_size_app.
  enough (log_size a <= log_size b1) by lia.
  induction H as [|[k v] [k' v'] a b1 [Hk [e He]] H IH];
    unfold log_size in *; simpl in *; [lia|].
  subst v'. rewrite length_app. lia.
Qed.

Lemma log_extends_keys a b :
  log_extends a b -> exists ks, map fst b = (map fst a ++ ks)%list.
Proof.
  intros (b1 & b2 & -> & H). exists (map fst b2). rewrite map_app. f_equal.
  induction H as [|x y a b1 [Hk _] H IH]; simpl; congruence.
Qed.

(** What [add_error_msg] does to each list of the log. *)
Lemma log_append_none log rule r :
  log_append log rule r = None -> log_get log rule = None.
Proof.
  induction log as [|[k v] rest IH]; simpl; auto.
  destruct (k =? rule); [discriminate|].
  destruct (log_append rest rule r); [discriminate | auto].
Qed.

Lemma log_get_app_none a b rule :
  log_get a rule = None -> log_get (a ++ b)%list rule = log_get b rule.
Proof.
  induction a as [|[k v] a IH]; simpl; auto.
  destruct (k =? rule); [discriminate | auto].
Qed.

Lemma log_append_get log rule r : forall log',
  log_append log rule r = Some log' ->
  exists l, log_get log rule = Some l /\
            log_get log' rule = Some (l ++ [r])%list.
Proof.
  induction log as [|[k v] rest IH]; simpl; intros log' H; [discriminate|].
  destruct (k =? rule) eqn:E.
  - injection H as <-. exists v. simpl. now rewrite E.
  - destruct (log_append rest rule r) as [rest'|]; [|discriminate].
    injection H as <-. destruct (IH rest' eq_refl) as (l & H1 & H2).
    exists l. simpl. now rewrite E.
Qed.

Lemma log_append_get_other log rule r rule' : forall log',
  log_append log rule r = Some log' -> rule' <> rule ->
  log_get log' rule' = log_get log rule'.
Proof.
  induction log as [|[k v] rest IH]; simpl; intros log' H Hne; [discriminate|].
  destruct (String.eqb_spec k rule) as [->|Hk].
  - injection H as <-. simpl.
    destruct (String.eqb_spec rule rule'); [congruence | reflexivity].
  - destruct (log_append rest rule r) as [rest'|]; [|discriminate].
    injection H as <-. simpl. destruct (k =? rule'); auto.
Qed.

Definition records_of (log : ErrorLog) (rule : string) : list Err.t :=
  match log_get log rule with
  | Some l => l
  | None => []
  end.

Lemma add_error_msg_same log rule line group desc :
  log_get (add_error_msg log rule line group desc) rule
  = Some (records_of log rule ++ [Err.mk line group desc])%list.
Proof.
  unfold add_error_msg, records_of.
  destruct (log_append log rule (Err.mk line group desc)) as [log'|] eqn:E.
  - destruct (log_append_get _ _ _ E) as (l & H1 & H2). now rewrite H1.
  - apply log_append_none in E. rewrite log_get_app_none by assumption.
    rewrite E. simpl. now rewrite String.eqb_refl.
Qed.

Lemma add_error_msg_other log rule line group desc rule' :
  rule' <> rule ->
  log_get (add_error_msg log rule line group desc) rule' = log_get log rule'.
Proof.
  intros Hne. unfold add_error_msg.
  destruct (log_append log rule (Err.mk line group desc)) as [log'|] eqn:E.
  - eapply log_append_get_other; eassumption.
  - destruct (log_get log rule') eqn:G.
    + now apply log_get_app_some.
    + rewrite log_get_app_none by assumption. simpl.
      destruct (String.eqb_spec rule rule'); [congruence | reflexivity].
Qed.

Lemma log_append_size log rule r : forall log',
  log_append log rule r = Some log' -> log_size log' = S (log_size log).
Proof.
  induction log as [|[k v] rest IH]; simpl; intros log' H; [discriminate|].
  destruct (k =? rule).
  - injection H as <-. unfold log_size. simpl. rewrite length_app. simpl. lia.
  - destruct (log_append rest rule r) as [rest'|]; [|discriminate].
    injection H as <-. specialize (IH rest' eq_refl).
    unfold log_size in *. simpl. lia.
Qed.

Lemma add_error_msg_size log rule line group desc :
  log_size (add_error_msg log rule line group desc) = S (log_size log).
Proof.
  unfold add_error_msg.
  destruct (log_append log rule (Err.mk line group desc)) as [log'|] eqn:E.
  - eapply log_append_size; eassumption.
  - rewrite log_size_app. unfold log_size. simpl. lia.
Qed.

Lemma fold_left_extends (X : Type) (f : ErrorLog -> X -> ErrorLog) :
  (forall l x, log_extends l (f l x)) ->
  forall xs l, log_extends l (fold_left f xs l).
Proof.
  intros Hf. induction xs as [|x xs IH]; simpl; intros l.
  - apply log_extends_refl.
  - eapply log_extends_trans; [apply Hf | apply IH].
Qed.

Ltac extends_tac :=
  repeat match goal with
    | |- log_extends ?a ?a => apply log_extends_refl
    | |- log_extends _ (add_error_msg _ _ _ _ _) => apply add_error_msg_extends
    | |- log_extends _ (fold_left _ _ _) => apply fold_left_extends; intros
    | |- log_extends _ (if ?b then _ else _) => destruct b
    | |- log_extends _ (match ?x with _ => _ end) => destruct x
    | |- _ => progress cbv zeta
    end.

Lemma line_rule_extends (c : LineCall) (log : ErrorLog) :
  log_extends log (line_rule c log).
Proof.
  destruct c; simpl;
    unfold rule_1, rule_2a, rule_2c, rule_3, rule_4a, rule_4b, rule_5, rule_6,
      rule_19, rule_19a, rule_19b, rule_19b_item;
    extends_tac.
Qed.

(** ** Stepwise properties of computations

    A relation [Q] between the state before and the state after that is
    reflexive and transitive holds of a whole computation once it holds of
    each primitive that writes.  It is kept whether the computation
    returns or raises. *)

Section Steps.

Variable Q : State -> State -> Prop.
Hypothesis Q_refl : forall s, Q s s.
Hypothesis Q_trans : forall a b c, Q a b -> Q b c -> Q a c.

Definition steps (A : Type) (m : M A) : Prop := forall s, Q s (fst (m s)).

Lemma steps_ret (A : Type) (a : A) : steps (ret a).
Proof. intros s. apply Q_refl. Qed.

Lemma steps_raise (A : Type) (e : Exn) : steps (@raise A e).
Proof. intros s. apply Q_refl. Qed.

Lemma steps_bind (A B : Type) (m : M A) (k : A -> M B) :
  steps m -> (forall a, steps (k a)) -> steps (bind m k).
Proof.
  intros Hm Hk s. unfold bind. specialize (Hm s).
  destruct (m s) as [s' [a|e]]; simpl in *; [|assumption].
  eapply Q_trans; [eassumption | apply Hk].
Qed.

Lemma steps_try (A : Type) (m : M A) (clauses : list (Exn * M A)) :
  steps m -> Forall (fun c => steps (snd c)) clauses ->
  steps (try_except m clauses).
Proof.
  intros Hm Hc s. unfold try_except. specialize (Hm s).
  destruct (m s) as [s' [a|e]]; simpl in *; [assumption|].
  destruct (handler_for e clauses) as [h|] eqn:E; [|assumption].
  eapply Q_trans; [eassumption|].
  clear -E Hc. induction Hc as [|[e' h'] rest Hh _ IH]; simpl in E;
    [discriminate|].
  destruct (exn_eqb e e'); [injection E as <-; apply Hh | now apply IH].
Qed.

Lemma steps_for_each (X : Type) (xs : list X) (body : X -> M unit) :
  (forall x, steps (body x)) -> steps (for_each xs body).
Proof.
  intros H. induction xs; simpl; [apply steps_ret|].
  apply steps_bind; auto.
Qed.

Lemma steps_for_fold (X S : Type) (body : X -> S -> M S) :
  (forall x i, steps (body x i)) ->
  forall xs init, steps (for_fold xs init body).
Proof.
  intros H. induction xs; simpl; intros init; [apply steps_ret|].
  apply steps_bind; auto.
Qed.

Lemma steps_for_until (X : Type) (xs : list X) (body : X -> M bool) :
  (forall x, steps (body x)) -> steps (for_until xs body).
Proof.
  intros H. induction xs; simpl; [apply steps_ret|].
  apply steps_bind; [auto|]. intros [|]; [apply steps_ret | assumption].
Qed.

Lemma steps_for_map (X Y : Type) (xs : list X) (body : X -> M Y) :
  (forall x, steps (body x)) -> steps (for_map xs body).
Proof.
  intros H. induction xs; simpl; [apply steps_ret|].
  apply steps_bind; [auto|]. intros y. apply steps_bind; [auto|].
  intros ys. apply steps_ret.
Qed.

Lemma steps_lift (A : Type) (e : Exn) (o : option A) : steps (lift e o).
Proof. destruct o; [apply steps_ret | apply steps_raise]. Qed.

Lemma steps_when (b : bool) (m : M unit) : steps m -> steps (when b m).
Proof. destruct b; simpl; auto using steps_ret. Qed.

(** The primitives that only read. *)
Lemma steps_table_keys : steps table_keys.
Proof. intros s. apply Q_refl. Qed.

Lemma steps_heading_keys : steps heading_keys.
Proof. intros s. apply Q_refl. Qed.

Lemma steps_errors : steps errors.
Proof. intros s. apply Q_refl. Qed.

Lemma steps_table key : steps (table key).
Proof. intros s. unfold table. destruct (assoc key (tables s)); apply Q_refl. Qed.

Lemma steps_heading_list key : steps (heading_list key).
Proof.
  intros s. unfold heading_list. destruct (assoc key (headings s)); apply Q_refl.
Qed.

Lemma steps_table_loc key label c : steps (table_loc key label c).
Proof.
  intros s. unfold table_loc. destruct (assoc key (tables s)) as [df|];
    [destruct (loc df label c)|]; apply Q_refl.
Qed.

Lemma steps_split_by c e : steps (split_by c e).
Proof. unfold split_by. destruct (c =? ""); [apply steps_raise | apply steps_ret]. Qed.

Lemma steps_read r : steps (read r).
Proof.
  destruct r as [key|n]; simpl; [apply steps_table|].
  intros s. destruct (nth_error (copies s) n); apply Q_refl.
Qed.

(** The primitive that writes the log. *)
Hypothesis Q_record : forall rule line group desc s,
  Q s (fst (record rule line group desc s)).

Lemma steps_record rule line group desc : steps (record rule line group desc).
Proof. intros s. apply Q_record. Qed.

(** The primitives that make and write copies. *)
Hypothesis Q_copies : forall s c, Q s (with_copies s c).

Lemma steps_bind_copy (B : Type) key (k : Ref -> M B) :
  (forall n, steps (k (Copy n))) -> steps (bind (table_copy key) k).
Proof.
  intros Hk s. unfold bind, table_copy.
  destruct (assoc key (tables s)) as [df|]; simpl; [|apply Q_refl].
  eapply Q_trans; [apply Q_copies | apply Hk].
Qed.

Lemma steps_assign_copy n c v : steps (assign_column (Copy n) c v).
Proof.
  intros s. simpl. destruct (nth_error (copies s) n); simpl;
    [apply Q_copies | apply Q_refl].
Qed.

Lemma steps_in_frame (A : Type) (m : M A) : steps m -> steps (in_frame m).
Proof.
  intros Hm s. unfold in_frame. specialize (Hm (with_copies s [])).
  destruct (m (with_copies s [])) as [s' r]. simpl in *.
  eapply Q_trans; [apply Q_copies|]. eapply Q_trans; [exact Hm | apply Q_copies].
Qed.

Ltac steps_tac :=
  repeat (intros;
    match goal with
    | |- steps (bind (table_copy _) _) => apply steps_bind_copy
    | |- steps (bind _ _) => apply steps_bind
    | |- steps (in_frame _) => apply steps_in_frame
    | |- steps (ret _) => apply steps_ret
    | |- steps (raise _) => apply steps_raise
    | |- steps (lift _ _) => apply steps_lift
    | |- steps (when _ _) => apply steps_when
    | |- steps (try_except _ _) => apply steps_try
    | |- steps (for_each _ _) => apply steps_for_each
    | |- steps (for_fold _ _ _) => apply steps_for_fold
    | |- steps (for_until _ _) => apply steps_for_until
    | |- steps (for_map _ _) => apply steps_for_map
    | |- steps table_keys => apply steps_table_keys
    | |- steps heading_keys => apply steps_heading_keys
    | |- steps errors => apply steps_errors
    | |- steps (table _) => apply steps_table
    | |- steps (read _) => apply steps_read
    | |- steps (assign_column (Copy _) _ _) => apply steps_assign_copy
    | |- steps (heading_list _) => apply steps_heading_list
    | |- steps (table_loc _ _ _) => apply steps_table_loc
    | |- steps (split_by _ _) => apply steps_split_by
    | |- steps (record _ _ _ _) => apply steps_record
    | |- steps (if ?b then _ else _) => destruct b
    | |- Forall _ _ => constructor
    | |- _ => progress (cbv zeta; simpl snd)
    end).

Variable set_order : list string -> list string.
Variable set_intersection_order : list string -> list string -> list string.

Lemma steps_orphan_rows c p k : steps (orphan_rows c p k).
Proof. unfold orphan_rows. steps_tac. Qed.

Lemma steps_type_of df h : steps (type_of df h).
Proof. unfold type_of. steps_tac. Qed.

Lemma steps_data_row_count name : steps (data_row_count name).
Proof. unfold data_row_count. steps_tac. Qed.

Lemma steps_rule_2_check key : steps (rule_2_check key).
Proof. unfold rule_2_check. steps_tac. Qed.

Lemma steps_rule_2b_check key : steps (rule_2b_check key).
Proof. unfold rule_2b_check. steps_tac. Qed.

(** The rules that make no copy and renumber no rows. *)
Definition plain (r : GroupRule) : bool :=
  match r with
  | Rule_7 | Rule_9 | Rule_10a | Rule_12 | Rule_13 | Rule_14 | Rule_18
  | Rule_19c => true
  | _ => false
  end.

(** The rules that make copies. *)
Definition copying (r : GroupRule) : bool :=
  match r with
  | Rule_10b | Rule_10c | Rule_15 | Rule_16 | Rule_17 => true
  | _ => false
  end.

Lemma steps_plain_rule dictionary r :
  plain r = true ->
  steps (group_rule set_order set_intersection_order dictionary r).
Proof.
  intros H. destruct r; try discriminate H; simpl;
    unfold rule_7, rule_9, rule_10a, rule_12, rule_13, rule_14, rule_18,
      rule_19c;
    steps_tac; auto using steps_data_row_count.
Qed.

Lemma steps_copying_rule dictionary r :
  copying r = true ->
  steps (group_rule set_order set_intersection_order dictionary r).
Proof.
  intros H. destruct r; try discriminate H; simpl;
    unfold rule_10b, rule_10c, rule_10c_group, rule_15, rule_16, rule_17;
    steps_tac; auto using steps_orphan_rows, steps_type_of.
Qed.

(** Every group rule but the two that renumber the rows. *)
Lemma steps_group_rule dictionary r :
  r <> Rule_2 -> r <> Rule_2b ->
  steps (group_rule set_order set_intersection_order dictionary r).
Proof.
  intros H2 H2b.
  destruct (plain r) eqn:Hp; [now apply steps_plain_rule|].
  apply steps_copying_rule. destruct r; try discriminate Hp; try reflexivity;
    congruence.
Qed.

(** The primitive that renumbers the rows of a table. *)
Hypothesis Q_reset : forall key s, Q s (fst (table_reset_index key s)).

Lemma steps_table_reset_index key : steps (table_reset_index key).
Proof. intros s. apply Q_reset. Qed.

Lemma steps_rule_2 : steps rule_2.
Proof.
  unfold rule_2. steps_tac;
    auto using steps_table_reset_index, steps_rule_2_check.
Qed.

Lemma steps_rule_2b : steps rule_2b.
Proof.
  unfold rule_2b. steps_tac;
    auto using steps_table_reset_index, steps_rule_2b_check.
Qed.

(** The rules that make no copy. *)
Lemma steps_uncopying_rule dictionary r :
  copying r = false ->
  steps (group_rule set_order set_intersection_order dictionary r).
Proof.
  intros H. destruct r; try discriminate H;
    try (apply steps_plain_rule; reflexivity).
  - apply steps_rule_2.
  - apply steps_rule_2b.
Qed.

Lemma steps_any_group_rule dictionary r :
  steps (group_rule set_order set_intersection_order dictionary r).
Proof.
  destruct (copying r) eqn:E;
    [now apply steps_copying_rule | now apply steps_uncopying_rule].
Qed.

End Steps.

(** The log as the relation of the framework. *)
Definition log_grows (s s' : State) : Prop :=
  log_extends (ags_errors s) (ags_errors s').

Lemma log_grows_group_rule so sio dictionary r s :
  log_extends (ags_errors s) (ags_errors (fst (group_rule so sio dictionary r s))).
Proof.
  apply (@steps_any_group_rule log_grows).
  - intros s0. apply log_extends_refl.
  - intros a b c. apply log_extends_trans.
  - intros rule line group desc s0. apply add_error_msg_extends.
  - intros s0 c. apply log_extends_refl.
  - intros key s0. unfold log_grows, table_reset_index.
    destruct (assoc key (tables s0)); apply log_extends_refl.
Qed.

(** What is present in [a] is present in [b], unmodified and in order:
    the records of each rule of [a] open the records of that rule in [b];
    the rules of [a] open the rules of [b]; and [b] holds at least as many
    records. *)
Definition kept (a b : ErrorLog) : Prop :=
  (forall rule l, log_get a rule = Some l ->
                  exists e, log_get b rule = Some (l ++ e)%list)
  /\ (exists new_rules, map fst b = (map fst a ++ new_rules)%list)
  /\ log_size a <= log_size b.

Lemma log_extends_kept a b : log_extends a b -> kept a b.
Proof.
  intros H. split; [|split].
  - intros rule l. now apply log_extends_get.
  - now apply log_extends_keys.
  - now apply log_extends_size.
Qed.

(** C10.  The log is append-only.  [add_error_msg] puts one record at the
    end of the list of its rule, which it creates when the rule has none,
    leaves the lists of the other rules as they are, and makes the log one
    record larger; and every call of a line rule and every call of a group
    rule, whether it returns or raises, keeps each list that was in the
    log as the beginning of the list that is there afterwards, so that the
    number of records never goes down. *)
Theorem errorlog_append_only :
  (forall log rule line group desc,
      log_get (add_error_msg log rule line group desc) rule
      = Some (records_of log rule ++ [Err.mk line group desc])%list
      /\ (forall rule', rule' <> rule ->
            log_get (add_error_msg log rule line group desc) rule'
            = log_get log rule')
      /\ log_size (add_error_msg log rule line group desc) = S (log_size log)
      /\ kept log (add_error_msg log rule line group desc))
  /\ (forall (c : LineCall) log, kept log (line_rule c log))
  /\ (forall so sio dictionary (r : GroupRule) s,
        kept (ags_errors s)
             (ags_errors (fst (group_rule so sio dictionary r s)))).
Proof.
  split; [|split].
  - intros log rule line group desc. split; [|split; [|split]].
    + apply add_error_msg_same.
    + intros rule' Hne. now apply add_error_msg_other.
    + apply add_error_msg_size.
    + apply log_extends_kept, add_error_msg_extends.
  - intros c log. apply log_extends_kept, line_rule_extends.
  - intros so sio dictionary r s.
    apply log_extends_kept, log_grows_group_rule.
Qed.

(** ** The rules and the tables *)

Lemma bind_ok (A B : Type) (m : M A) (k : A -> M B) s s' a :
  m s = (s', Ok a) -> bind m k s = k a s'.
Proof. intros H. unfold bind. now rewrite H. Qed.

Lemma try_ok (A : Type) (m : M A) clauses s s' a :
  m s = (s', Ok a) -> try_except m clauses s = (s', Ok a).
Proof. intros H. unfold try_except. now rewrite H. Qed.

Lemma bind_raise (A B : Type) (m : M A) (k : A -> M B) s s' e :
  m s = (s', Raise e) -> bind m k s = (s', Raise e).
Proof. intros H. unfold bind. now rewrite H. Qed.


(** Same groups in the same order, each with the same columns and cells;
    the row labels may differ. *)
Definition same_data (t t' : list (string * DataFrame)) : Prop :=
  Forall2 (fun a b => fst a = fst b /\ data (snd a) = data (snd b)) t t'.

Lemma same_data_refl t : same_data t t.
Proof. induction t; constructor; auto. Qed.

Lemma same_data_trans t1 t2 t3 :
  same_data t1 t2 -> same_data t2 t3 -> same_data t1 t3.
Proof.
  intros H12. revert t3.
  induction H12 as [|x y t1 t2 [Hk Hd] _ IH]; intros t3 H23;
    inversion H23 as [|y' z t2' t3' [Hk' Hd'] H23']; subst; constructor.
  - split; congruence.
  - now apply IH.
Qed.

Lemma same_data_update key t :
  same_data t (assoc_update key reset_index t).
Proof.
  induction t as [|[k df] t IH]; simpl; [constructor|].
  destruct (k =? key); constructor; simpl; auto; apply same_data_refl.
Qed.

(** What no group rule changes: the heading index, what was printed, and
    the tables up to their row labels. *)
Definition keeps_data (s s' : State) : Prop :=
  same_data (tables s) (tables s') /\ headings s' = headings s
  /\ stdout s' = stdout s.

(** What the rules that do not renumber rows leave alone: the tables as
    they are, row labels included. *)
Definition keeps_tables (s s' : State) : Prop :=
  tables s' = tables s /\ headings s' = headings s /\ stdout s' = stdout s.

Lemma keeps_data_group_rule so sio dictionary r s :
  keeps_data s (fst (group_rule so sio dictionary r s)).
Proof.
  apply (@steps_any_group_rule keeps_data).
  - intros s0. repeat split. apply same_data_refl.
  - intros a b c (H1 & H2 & H3) (H1' & H2' & H3'). repeat split; try congruence.
    eapply same_data_trans; eassumption.
  - intros rule line group desc s0. repeat split. apply same_data_refl.
  - intros s0 c. repeat split. apply same_data_refl.
  - intros key s0. unfold table_reset_index.
    destruct (assoc key (tables s0)); repeat split; simpl;
      auto using same_data_refl, same_data_update.
Qed.

Lemma keeps_tables_group_rule so sio dictionary r s :
  r <> Rule_2 -> r <> Rule_2b ->
  keeps_tables s (fst (group_rule so sio dictionary r s)).
Proof.
  intros H2 H2b. apply (@steps_group_rule keeps_tables); auto.
  - intros s0. now repeat split.
  - intros a b c (H1 & H2' & H3) (H1' & H2'' & H3'). repeat split; congruence.
  - intros rule line group desc s0. now repeat split.
  - intros s0 c. now repeat split.
Qed.

(** ** Two runs side by side

    Two states are alike when they hold the same headings, log, output and
    copies,
    and the same tables up to the row labels; [o] can name one table whose
    row labels agree as well.  A computation is [sim] when from alike
    states it reaches alike states with the same outcome. *)

Definition same_index_at (o : option string) (t1 t2 : list (string * DataFrame))
  : Prop :=
  match o with
  | None => True
  | Some k => option_map index (assoc k t1) = option_map index (assoc k t2)
  end.

Definition alike (o : option string) (s1 s2 : State) : Prop :=
  same_data (tables s1) (tables s2)
  /\ same_index_at o (tables s1) (tables s2)
  /\ headings s1 = headings s2
  /\ ags_errors s1 = ags_errors s2
  /\ stdout s1 = stdout s2
  /\ copies s1 = copies s2.

Definition sim (o : option string) (A : Type) (m : M A) : Prop :=
  forall s1 s2, alike o s1 s2 ->
    alike o (fst (m s1)) (fst (m s2)) /\ snd (m s1) = snd (m s2).

Lemma same_data_keys t1 t2 : same_data t1 t2 -> map fst t1 = map fst t2.
Proof. induction 1 as [|x y t1 t2 [Hk _] _ IH]; simpl; congruence. Qed.

Lemma same_data_assoc key t1 t2 :
  same_data t1 t2 ->
  match assoc key t1, assoc key t2 with
  | Some a, Some b => data a = data b
  | None, None => True
  | _, _ => False
  end.
Proof.
  induction 1 as [|[k1 d1] [k2 d2] t1 t2 [Hk Hd] _ IH]; simpl in *; [exact I|].
  subst k2. destruct (k1 =? key); auto.
Qed.

Lemma same_data_update_both key t1 t2 :
  same_data t1 t2 ->
  same_data (assoc_update key reset_index t1) (assoc_update key reset_index t2).
Proof.
  induction 1 as [|[k1 d1] [k2 d2] t1 t2 [Hk Hd] H IH]; simpl in *;
    [constructor|].
  subst k2. destruct (k1 =? key); constructor; simpl; auto.
Qed.

Lemma assoc_update_same (A : Type) key (f : A -> A) t :
  assoc key (assoc_update key f t) = option_map f (assoc key t).
Proof.
  induction t as [|[k v] t IH]; simpl; [reflexivity|].
  destruct (k =? key) eqn:E; simpl; rewrite E; auto.
Qed.

Lemma assoc_update_other (A : Type) key key' (f : A -> A) t :
  key' <> key -> assoc key' (assoc_update key f t) = assoc key' t.
Proof.
  intros Hne. induction t as [|[k v] t IH]; simpl; [reflexivity|].
  destruct (String.eqb_spec k key) as [->|Hk]; simpl.
  - destruct (String.eqb_spec key key'); [congruence | reflexivity].
  - destruct (k =? key'); auto.
Qed.

Lemma same_index_update o key t1 t2 :
  same_data t1 t2 -> same_index_at o t1 t2 ->
  same_index_at o (assoc_update key reset_index t1)
                  (assoc_update key reset_index t2).
Proof.
  intros Hd Hi. destruct o as [k|]; simpl in *; [|exact I].
  destruct (string_dec k key) as [->|Hne].
  - rewrite !assoc_update_same. pose proof (same_data_assoc key Hd) as H.
    destruct (assoc key t1), (assoc key t2); simpl; try contradiction; auto.
    unfold reset_index. simpl. now rewrite H.
  - now rewrite !assoc_update_other.
Qed.

Lemma alike_weaken o s1 s2 : alike o s1 s2 -> alike None s1 s2.
Proof. intros (H1 & _ & H3). repeat split; tauto. Qed.

Section Sim.

Variable o : option string.

Lemma sim_ret (A : Type) (a : A) : sim o (ret a).
Proof. intros s1 s2 H. now split. Qed.

Lemma sim_raise (A : Type) (e : Exn) : sim o (@raise A e).
Proof. intros s1 s2 H. now split. Qed.

Lemma sim_bind (A B : Type) (m : M A) (k : A -> M B) :
  sim o m -> (forall a, sim o (k a)) -> sim o (bind m k).
Proof.
  intros Hm Hk s1 s2 H. unfold bind. destruct (Hm s1 s2 H) as [H' Hr].
  destruct (m s1) as [s1' r1], (m s2) as [s2' r2]; simpl in *. subst r2.
  destruct r1 as [a|e]; [now apply Hk | now split].
Qed.

Lemma sim_handler (A : Type) (e : Exn) (clauses : list (Exn * M A)) :
  Forall (fun c => sim o (snd c)) clauses ->
  match handler_for e clauses with
  | Some h => sim o h
  | None => True
  end.
Proof.
  induction 1 as [|[e' h'] rest Hh _ IH]; simpl; [exact I|].
  destruct (exn_eqb e e'); auto.
Qed.

Lemma sim_try (A : Type) (m : M A) (clauses : list (Exn * M A)) :
  sim o m -> Forall (fun c => sim o (snd c)) clauses ->
  sim o (try_except m clauses).
Proof.
  intros Hm Hc s1 s2 H. unfold try_except. destruct (Hm s1 s2 H) as [H' Hr].
  destruct (m s1) as [s1' r1], (m s2) as [s2' r2]; simpl in *. subst r2.
  destruct r1 as [a|e]; [now split|].
  pose proof (sim_handler e Hc) as Hh.
  destruct (handler_for e clauses); [now apply Hh | now split].
Qed.

Lemma sim_for_each (X : Type) (xs : list X) (body : X -> M unit) :
  (forall x, sim o (body x)) -> sim o (for_each xs body).
Proof.
  intros H. induction xs; simpl; [apply sim_ret|].
  apply sim_bind; auto.
Qed.

Lemma sim_for_fold (X S : Type) (body : X -> S -> M S) :
  (forall x i, sim o (body x i)) ->
  forall xs init, sim o (for_fold xs init body).
Proof.
  intros H. induction xs; simpl; intros init; [apply sim_ret|].
  apply sim_bind; auto.
Qed.

Lemma sim_for_until (X : Type) (xs : list X) (body : X -> M bool) :
  (forall x, sim o (body x)) -> sim o (for_until xs body).
Proof.
  intros H. induction xs; simpl; [apply sim_ret|].
  apply sim_bind; [auto|]. intros [|]; [apply sim_ret | assumption].
Qed.

Lemma sim_for_map (X Y : Type) (xs : list X) (body : X -> M Y) :
  (forall x, sim o (body x)) -> sim o (for_map xs body).
Proof.
  intros H. induction xs; simpl; [apply sim_ret|].
  apply sim_bind; [auto|]. intros y. apply sim_bind; [auto|].
  intros ys. apply sim_ret.
Qed.

Lemma sim_lift (A : Type) (e : Exn) (x : option A) : sim o (lift e x).
Proof. destruct x; [apply sim_ret | apply sim_raise]. Qed.

Lemma sim_when (b : bool) (m : M unit) : sim o m -> sim o (when b m).
Proof. destruct b; simpl; auto using sim_ret. Qed.

Lemma sim_split_by c e : sim o (split_by c e).
Proof. unfold split_by. destruct (c =? ""); [apply sim_raise | apply sim_ret]. Qed.

Lemma sim_table_keys : sim o table_keys.
Proof.
  intros s1 s2 H. split; [exact H|]. unfold table_keys. simpl.
  destruct H as (H & _). now rewrite (same_data_keys H).
Qed.

Lemma sim_heading_keys : sim o heading_keys.
Proof.
  intros s1 s2 H. split; [exact H|]. unfold heading_keys. simpl.
  destruct H as (_ & _ & -> & _). reflexivity.
Qed.

Lemma sim_errors : sim o errors.
Proof.
  intros s1 s2 H. split; [exact H|]. unfold errors. simpl.
  destruct H as (_ & _ & _ & -> & _). reflexivity.
Qed.

Lemma sim_table key : sim o (table key).
Proof.
  intros s1 s2 H. unfold table. pose proof H as (Hd & _).
  pose proof (same_data_assoc key Hd) as Ha.
  destruct (assoc key (tables s1)), (assoc key (tables s2)); simpl;
    try contradiction; split; auto; congruence.
Qed.

Lemma sim_heading_list key : sim o (heading_list key).
Proof.
  intros s1 s2 H. unfold heading_list. pose proof H as (_ & _ & Hh & _).
  rewrite Hh. destruct (assoc key (headings s2)); now split.
Qed.

Lemma sim_record rule line group desc : sim o (record rule line group desc).
Proof.
  intros s1 s2 (H1 & H2 & H3 & H4 & H5 & H6). unfold record, alike. simpl.
  rewrite H4. tauto.
Qed.

Lemma sim_table_reset_index key : sim o (table_reset_index key).
Proof.
  intros s1 s2 H. unfold table_reset_index.
  pose proof H as (Hd & Hi & Hh & He & Ho & Hc).
  pose proof (same_data_assoc key Hd) as Ha.
  destruct (assoc key (tables s1)), (assoc key (tables s2)); simpl;
    try contradiction; split; auto.
  unfold alike. simpl.
  repeat split; auto using same_data_update_both, same_index_update.
Qed.

Lemma sim_read r : sim o (read r).
Proof.
  destruct r as [key|n]; simpl; [apply sim_table|].
  intros s1 s2 H. pose proof H as (_ & _ & _ & _ & _ & Hc). rewrite Hc.
  destruct (nth_error (copies s2) n); now split.
Qed.

Lemma sim_table_copy key : sim o (table_copy key).
Proof.
  intros s1 s2 H. unfold table_copy.
  pose proof H as (Hd & Hi & Hh & He & Ho & Hc).
  pose proof (same_data_assoc key Hd) as Ha.
  destruct (assoc key (tables s1)), (assoc key (tables s2)); simpl;
    try contradiction; [|now split].
  rewrite Ha, Hc. split; [|reflexivity]. unfold alike. simpl. tauto.
Qed.

Lemma sim_bind_copy (B : Type) key (k : Ref -> M B) :
  (forall n, sim o (k (Copy n))) -> sim o (bind (table_copy key) k).
Proof.
  intros Hk s1 s2 H. unfold bind.
  destruct (sim_table_copy key H) as [H' Hr].
  unfold table_copy in *.
  destruct (assoc key (tables s1)), (assoc key (tables s2)); simpl in *;
    try discriminate; [|now split].
  injection Hr as Hr. rewrite Hr. now apply Hk.
Qed.

Lemma sim_assign_copy n c v : sim o (assign_column (Copy n) c v).
Proof.
  intros s1 s2 H. simpl. pose proof H as (Hd & Hi & Hh & He & Ho & Hc).
  rewrite Hc. destruct (nth_error (copies s2) n); simpl; [|now split].
  split; [|reflexivity]. unfold alike. simpl. tauto.
Qed.

Lemma sim_in_frame (A : Type) (m : M A) : sim o m -> sim o (in_frame m).
Proof.
  intros Hm s1 s2 H. unfold in_frame.
  pose proof H as (Hd & Hi & Hh & He & Ho & Hc).
  assert (H0 : alike o (with_copies s1 []) (with_copies s2 [])).
  { unfold alike. simpl. tauto. }
  destruct (Hm _ _ H0) as [(Hd' & Hi' & Hh' & He' & Ho' & _) Hr].
  destruct (m (with_copies s1 [])) as [s1' r1],
           (m (with_copies s2 [])) as [s2' r2]; simpl in *.
  split; [|exact Hr]. unfold alike. simpl. tauto.
Qed.

End Sim.

Lemma sim_table_loc key label c : sim (Some key) (table_loc key label c).
Proof.
  intros s1 s2 H. unfold table_loc. pose proof H as (Hd & Hi & _).
  pose proof (same_data_assoc key Hd) as Ha. simpl in Hi.
  destruct (assoc key (tables s1)) as [[i1 d1]|],
           (assoc key (tables s2)) as [[i2 d2]|];
    simpl in *; try contradiction; [|now split].
  injection Hi as ->. subst d2.
  destruct (loc (mkDF i2 d1) label c); now split.
Qed.

(** After its rows are renumbered, a table has the same row labels in both
    runs. *)
Lemma sim_after_reset key (A : Type) (m : M A) :
  sim (Some key) m -> sim None (bind (table_reset_index key) (fun _ => m)).
Proof.
  intros Hm s1 s2 H. unfold bind, table_reset_index.
  pose proof H as (Hd & _ & Hh & He & Ho & Hc).
  pose proof (same_data_assoc key Hd) as Ha.
  destruct (assoc key (tables s1)) as [d1|] eqn:E1,
           (assoc key (tables s2)) as [d2|] eqn:E2;
    simpl; try contradiction; [|now split].
  match goal with
  | |- alike None (fst (m ?a)) (fst (m ?b)) /\ _ =>
      assert (Hab : alike (Some key) a b)
  end.
  { unfold alike. simpl. repeat split; auto using same_data_update_both.
    rewrite !assoc_update_same, E1, E2. simpl. unfold reset_index. simpl.
    now rewrite Ha. }
  destruct (Hm _ _ Hab) as [H' Hr]. split; [|exact Hr].
  eapply alike_weaken; eassumption.
Qed.

Ltac sim_tac :=
  repeat (intros;
    match goal with
    | |- sim None (bind (table_reset_index _) _) => apply sim_after_reset
    | |- sim _ (bind (table_copy _) _) => apply sim_bind_copy
    | |- sim _ (bind _ _) => apply sim_bind
    | |- sim _ (in_frame _) => apply sim_in_frame
    | |- sim _ (read _) => apply sim_read
    | |- sim _ (assign_column (Copy _) _ _) => apply sim_assign_copy
    | |- sim _ (ret _) => apply sim_ret
    | |- sim _ (raise _) => apply sim_raise
    | |- sim _ (lift _ _) => apply sim_lift
    | |- sim _ (when _ _) => apply sim_when
    | |- sim _ (try_except _ _) => apply sim_try
    | |- sim _ (for_each _ _) => apply sim_for_each
    | |- sim _ (for_fold _ _ _) => apply sim_for_fold
    | |- sim _ (for_until _ _) => apply sim_for_until
    | |- sim _ (for_map _ _) => apply sim_for_map
    | |- sim _ table_keys => apply sim_table_keys
    | |- sim _ heading_keys => apply sim_heading_keys
    | |- sim _ errors => apply sim_errors
    | |- sim _ (table _) => apply sim_table
    | |- sim _ (heading_list _) => apply sim_heading_list
    | |- sim (Some ?k) (table_loc ?k _ _) => apply sim_table_loc
    | |- sim _ (split_by _ _) => apply sim_split_by
    | |- sim _ (record _ _ _ _) => apply sim_record
    | |- sim _ (if ?b then _ else _) => destruct b
    | |- Forall _ _ => constructor
    | |- _ => progress (cbv zeta; simpl snd)
    end).

Lemma sim_orphan_rows o c p k : sim o (orphan_rows c p k).
Proof. unfold orphan_rows. sim_tac. Qed.

Lemma sim_type_of o df h : sim o (type_of df h).
Proof. unfold type_of. sim_tac. Qed.

Lemma sim_data_row_count o name : sim o (data_row_count name).
Proof. unfold data_row_count. sim_tac. Qed.

Lemma sim_group_rule so sio dictionary r :
  sim None (group_rule so sio dictionary r).
Proof.
  destruct r; simpl;
    unfold rule_2, rule_2_check, rule_2b, rule_2b_check, rule_7, rule_9,
      rule_10a, rule_10b, rule_10c, rule_10c_group, rule_12, rule_13, rule_14,
      rule_15, rule_16, rule_17, rule_18, rule_19c;
    sim_tac;
    auto using sim_orphan_rows, sim_type_of, sim_data_row_count.
Qed.

Lemma sim_on_log o f : sim o (on_log f).
Proof.
  intros s1 s2 (H1 & H2 & H3 & H4 & H5 & H6). unfold on_log, alike. simpl.
  rewrite H4. tauto.
Qed.

Lemma sim_check_run so sio dictionary calls :
  sim None (check_run so sio dictionary calls).
Proof.
  apply sim_for_each. intros [c|r]; simpl;
    [apply sim_on_log | apply sim_group_rule].
Qed.

Lemma keeps_data_refl s : keeps_data s s.
Proof. repeat split. apply same_data_refl. Qed.

Lemma keeps_data_trans a b c : keeps_data a b -> keeps_data b c -> keeps_data a c.
Proof.
  intros (H1 & H2 & H3) (H1' & H2' & H3'). repeat split; try congruence.
  eapply same_data_trans; eassumption.
Qed.

Lemma keeps_data_check_run so sio dictionary calls s :
  keeps_data s (fst (check_run so sio dictionary calls s)).
Proof.
  apply (@steps_for_each keeps_data keeps_data_refl keeps_data_trans).
  intros [c|r] s0; simpl.
  - repeat split. apply same_data_refl.
  - apply keeps_data_group_rule.
Qed.

(** A call leaves no copy behind. *)
Definition keeps_copies (s s' : State) : Prop := copies s' = copies s.

Lemma in_frame_copies (A : Type) (m : M A) s :
  copies (fst (in_frame m s)) = copies s.
Proof. unfold in_frame. now destruct (m (with_copies s [])). Qed.

Lemma keeps_copies_group_rule so sio dictionary r s :
  keeps_copies s (fst (group_rule so sio dictionary r s)).
Proof.
  destruct (copying r) eqn:E.
  - destruct r; try discriminate E; simpl; apply in_frame_copies.
  - apply (@steps_uncopying_rule keeps_copies); auto.
    + intros s0. reflexivity.
    + intros a b c H1 H2. unfold keeps_copies in *. congruence.
    + intros rule line group desc s0. reflexivity.
    + intros key s0. unfold keeps_copies, table_reset_index.
      now destruct (assoc key (tables s0)).
Qed.

Lemma keeps_copies_check_run so sio dictionary calls s :
  keeps_copies s (fst (check_run so sio dictionary calls s)).
Proof.
  apply (@steps_for_each keeps_copies).
  - intros s0. reflexivity.
  - intros a b c H1 H2. unfold keeps_copies in *. congruence.
  - intros [c|r] s0; simpl; [reflexivity | apply keeps_copies_group_rule].
Qed.

(** The start of a check run: the shared objects as they are, with a
    fresh, empty log. *)
Definition fresh_log (s : State) : State :=
  mkState (tables s) (headings s) [] (stdout s) (copies s).

(** C7.  Idempotence of a check run.  Whatever validators a run is made
    of, line rules and group rules, and in whatever order, running them on
    the parsed tables, heading index and merged dictionary with a fresh
    log, and then running them a second time, with a fresh log again, on
    the objects the first run left behind, gives the second log equal to
    the first (the same rules in the same order, each with the same
    records in the same order) and the same outcome, a return or the same
    raise. *)
Theorem rerun_gives_same_log so sio dictionary (calls : list Call) s :
  let run1 := check_run so sio dictionary calls (fresh_log s) in
  let run2 := check_run so sio dictionary calls (fresh_log (fst run1)) in
  ags_errors (fst run2) = ags_errors (fst run1) /\ snd run2 = snd run1.
Proof.
  intros run1 run2.
  assert (H : alike None (fresh_log s) (fresh_log (fst run1))).
  { destruct (keeps_data_check_run so sio dictionary calls (fresh_log s))
      as (Hd & Hh & Ho).
    pose proof (keeps_copies_check_run so sio dictionary calls (fresh_log s))
      as Hc.
    fold run1 in Hd, Hh, Ho, Hc.
    unfold alike, keeps_copies, fresh_log in *. simpl in *.
    repeat split; auto. }
  destruct (sim_check_run so sio dictionary calls H)
    as [(_ & _ & _ & He & _) Hr].
  fold run1 run2 in He, Hr. split; [symmetry; exact He | symmetry; exact Hr].
Qed.

(** The tables with the rows of each renumbered from zero. *)
Definition renumbered (t : list (string * DataFrame)) : list (string * DataFrame) :=
  map (fun kd => (fst kd, reset_index (snd kd))) t.

Definition reset_keys (keys : list string) (t : list (string * DataFrame))
  : list (string * DataFrame) :=
  fold_left (fun t key => assoc_update key reset_index t) keys t.

Lemma reset_keys_skip keys : forall k v t,
  ~ In k keys ->
  reset_keys keys ((k, v) :: t) = (k, v) :: reset_keys keys t.
Proof.
  induction keys as [|key keys IH]; intros k v t Hk; [reflexivity|].
  unfold reset_keys in *. simpl.
  destruct (String.eqb_spec k key) as [->|Hne].
  - exfalso. apply Hk. now left.
  - apply IH. intros Hin. apply Hk. now right.
Qed.

Lemma reset_keys_all t :
  NoDup (map fst t) -> reset_keys (map fst t) t = renumbered t.
Proof.
  induction t as [|[k v] t IH]; intros Hnd; [reflexivity|].
  inversion Hnd as [|? ? Hk Ht]; subst.
  unfold reset_keys. simpl. rewrite String.eqb_refl.
  fold (reset_keys (map fst t) ((k, reset_index v) :: t)).
  rewrite reset_keys_skip by assumption. now rewrite IH.
Qed.

(** A rule that renumbers the rows of each table and then checks it
    without writing to it: when it returns, every table is renumbered. *)
Lemma renumbering_loop (check : string -> M unit) :
  (forall key s, tables (fst (check key s)) = tables s) ->
  forall keys s,
    snd (for_each keys (fun key => table_reset_index key ;; check key) s) = Ok tt ->
    tables (fst (for_each keys (fun key => table_reset_index key ;; check key) s))
    = reset_keys keys (tables s).
Proof.
  intros Hc. induction keys as [|key keys IH]; intros s H; [reflexivity|].
  cbn [for_each] in *.
  destruct ((table_reset_index key ;; check key) s) as [s1 [[]|e]] eqn:E.
  - rewrite (@bind_ok _ _ _ _ _ _ _ E) in H |- *. rewrite (IH s1 H).
    unfold reset_keys. simpl. f_equal.
    unfold bind, table_reset_index in E.
    destruct (assoc key (tables s)); [|discriminate].
    match type of E with
    | check key ?s0 = _ => pose proof (Hc key s0) as Hs0; rewrite E in Hs0
    end.
    exact Hs0.
  - rewrite (@bind_raise _ _ _ _ _ _ _ E) in H. discriminate.
Qed.

Lemma keeps_tables_refl s : keeps_tables s s.
Proof. now repeat split. Qed.

Lemma keeps_tables_trans a b c :
  keeps_tables a b -> keeps_tables b c -> keeps_tables a c.
Proof. intros (H1 & H2 & H3) (H1' & H2' & H3'). repeat split; congruence. Qed.

Lemma keeps_tables_record rule line group desc s :
  keeps_tables s (fst (record rule line group desc s)).
Proof. now repeat split. Qed.

Lemma rule_2_renumbers s :
  NoDup (map fst (tables s)) -> snd (rule_2 s) = Ok tt ->
  tables (fst (rule_2 s)) = renumbered (tables s).
Proof.
  intros Hnd H. unfold rule_2 in *.
  rewrite (@bind_ok _ _ table_keys _ s s (map fst (tables s)) eq_refl) in H |- *.
  rewrite renumbering_loop; [now apply reset_keys_all | | exact H].
  intros key s0.
  apply (@steps_rule_2_check keeps_tables keeps_tables_refl keeps_tables_trans
           keeps_tables_record key s0).
Qed.

Lemma rule_2b_renumbers s :
  NoDup (map fst (tables s)) -> snd (rule_2b s) = Ok tt ->
  tables (fst (rule_2b s)) = renumbered (tables s).
Proof.
  intros Hnd H. unfold rule_2b in *.
  rewrite (@bind_ok _ _ table_keys _ s s (map fst (tables s)) eq_refl) in H |- *.
  rewrite renumbering_loop; [now apply reset_keys_all | | exact H].
  intros key s0.
  apply (@steps_rule_2b_check keeps_tables keeps_tables_refl keeps_tables_trans
           keeps_tables_record key s0).
Qed.

(** The frame of the group rules, amended for C8.  A group rule, whether
    it returns or raises, leaves the heading index as it is, prints
    nothing, and leaves the tables with the same groups, columns and
    cells; every rule other than [rule_2] and [rule_2b] leaves the tables
    wholly as they are, row labels included, and [rule_10b], which marks
    blanks on a copy, is one of them.  [rule_2] and [rule_2b] renumber the
    rows in place: when one of them returns, on tables of distinct groups,
    the rows of every table are labelled from zero. *)
Theorem group_rules_keep_tables so sio dictionary (r : GroupRule) s :
  let s' := fst (group_rule so sio dictionary r s) in
  headings s' = headings s
  /\ stdout s' = stdout s
  /\ same_data (tables s) (tables s')
  /\ (r <> Rule_2 -> r <> Rule_2b -> tables s' = tables s)
  /\ tables (fst (rule_10b sio dictionary s)) = tables s
  /\ (r = Rule_2 \/ r = Rule_2b ->
      NoDup (map fst (tables s)) ->
      snd (group_rule so sio dictionary r s) = Ok tt ->
      tables s' = renumbered (tables s)).
Proof.
  intros s'. destruct (keeps_data_group_rule so sio dictionary r s) as (Hd & Hh & Ho).
  repeat split; auto.
  - intros H2 H2b. now destruct (keeps_tables_group_rule so sio dictionary s H2 H2b).
  - assert (H2 : Rule_10b <> Rule_2) by discriminate.
    assert (H2b : Rule_10b <> Rule_2b) by discriminate.
    now destruct (keeps_tables_group_rule so sio dictionary s H2 H2b).
  - intros [->| ->] Hnd Hok; subst s'; simpl in *.
    + now apply rule_2_renumbers.
    + now apply rule_2b_renumbers.
Qed.

(** ** The dictionary merger *)

(** All rows of the DICT tables of the files, in input order. *)
Definition all_rows (input_files : list InputFile) : list DictRow :=
  flat_map (fun f => match DICT f with Some d => d | None => [] end) input_files.

(** The warnings printed for the files without a DICT table. *)
Definition warnings (input_files : list InputFile) : list string :=
  flat_map (fun f =>
    match DICT f with
    | Some _ => []
    | None => ["[yellow]  WARNING:There is no DICT table in " ++ path f
               ++ ".[/yellow]"]
    end) input_files.

Definition no_dictionary_messages : list string :=
  ["[red]  ERROR: No DICT tables available to proceed with checking.[/red]";
   "[red]         Please ensure the input file has a DICT table or provide file with standard AGS4 dictionary.[/red]"].

Definition printing (s : State) (msgs : list string) : State :=
  mkState (tables s) (headings s) (ags_errors s) (stdout s ++ msgs)%list
    (copies s).

Lemma printing_nil s : printing s [] = s.
Proof. destruct s. unfold printing. simpl. now rewrite app_nil_r. Qed.

Lemma concat_of_files input_files : forall acc s,
  for_fold input_files acc (fun file master_DICT =>
    try_except
      (d <- lift KeyError (DICT file) ;; ret (master_DICT ++ d)%list)
      [(KeyError,
        rprint ("[yellow]  WARNING:There is no DICT table in " ++ path file
                ++ ".[/yellow]") ;;
        ret master_DICT)]) s
  = (printing s (warnings input_files), Ok (acc ++ all_rows input_files)%list).
Proof.
  induction input_files as [|f rest IH]; intros acc s; simpl.
  - now rewrite printing_nil, app_nil_r.
  - unfold bind at 1, try_except at 1. destruct (DICT f) as [d|]; simpl.
    + rewrite IH. now rewrite app_assoc.
    + unfold bind at 1. simpl. rewrite IH. unfold printing. simpl.
      now rewrite <- app_assoc.
Qed.

(** The merger, in closed form. *)
Lemma combine_DICT_tables_eq input_files s :
  combine_DICT_tables input_files s =
  match all_rows input_files with
  | [] => (printing s (warnings input_files ++ no_dictionary_messages),
           Raise SystemExit)
  | _ :: _ => (printing s (warnings input_files),
               Ok (drop_duplicates (all_rows input_files)))
  end.
Proof.
  unfold combine_DICT_tables, bind at 1. rewrite concat_of_files. simpl.
  destruct (all_rows input_files) as [|r rows]; simpl; [|reflexivity].
  unfold bind, rprint, sys_exit, raise, printing. simpl.
  now rewrite <- !app_assoc.
Qed.

Lemma list_eqb_eq a b : Frame.list_eqb a b = true <-> a = b.
Proof.
  unfold Frame.list_eqb. destruct (list_eq_dec string_dec a b); split;
    intros; congruence.
Qed.

Lemma existsb_list_eqb k seen :
  existsb (Frame.list_eqb k) seen = true <-> In k seen.
Proof.
  rewrite existsb_exists. split.
  - intros (x & Hx & Hk). apply list_eqb_eq in Hk. now subst.
  - intros H. exists k. split; [assumption | now apply list_eqb_eq].
Qed.

Lemma drop_duplicates_go_in seen l r :
  In r (drop_duplicates_go seen l) -> In r l /\ ~ In (dup_key r) seen.
Proof.
  revert seen. induction l as [|x l IH]; simpl; intros seen H; [contradiction|].
  destruct (existsb (Frame.list_eqb (dup_key x)) seen) eqn:E.
  - destruct (IH _ H). tauto.
  - destruct H as [->|H].
    + split; [now left|]. intros Hin. apply existsb_list_eqb in Hin. congruence.
    + destruct (IH _ H) as [H1 H2]. split; [now right|].
      intros Hin. apply H2. now right.
Qed.

Lemma drop_duplicates_go_nodup seen l :
  NoDup (map dup_key (drop_duplicates_go seen l)).
Proof.
  revert seen. induction l as [|x l IH]; simpl; intros seen; [constructor|].
  destruct (existsb (Frame.list_eqb (dup_key x)) seen) eqn:E; [apply IH|].
  simpl. constructor; [|apply IH].
  intros Hin. apply in_map_iff in Hin as (y & Hy & Hin).
  apply drop_duplicates_go_in in Hin as [_ Hn]. apply Hn. left. congruence.
Qed.

(** The first row of [l] with the key of [r]. *)
Definition first_with_key (r : DictRow) (l : list DictRow) : option DictRow :=
  find (fun x => Frame.list_eqb (dup_key x) (dup_key r)) l.

Lemma drop_duplicates_go_first seen l r :
  In r l -> ~ In (dup_key r) seen ->
  exists r', first_with_key r l = Some r' /\ In r' (drop_duplicates_go seen l).
Proof.
  revert seen. induction l as [|x l IH]; simpl; intros seen Hin Hseen;
    [contradiction|].
  unfold first_with_key. simpl.
  destruct (Frame.list_eqb (dup_key x) (dup_key r)) eqn:Ex.
  - apply list_eqb_eq in Ex. exists x. split; [reflexivity|].
    destruct (existsb (Frame.list_eqb (dup_key x)) seen) eqn:E.
    + apply existsb_list_eqb in E. rewrite Ex in E. contradiction.
    + now left.
  - assert (Hne : dup_key x <> dup_key r).
    { intros Heq. apply list_eqb_eq in Heq. congruence. }
    destruct Hin as [->|Hin]; [congruence|].
    destruct (existsb (Frame.list_eqb (dup_key x)) seen) eqn:E.
    + now apply IH.
    + destruct (IH (dup_key x :: seen) Hin) as (r' & H1 & H2).
      * intros [H|H]; [congruence | contradiction].
      * exists r'. split; [exact H1 | now right].
Qed.

Lemma drop_duplicates_nil l : drop_duplicates l = [] <-> l = [].
Proof.
  split; [|intros ->; reflexivity].
  destruct l as [|x l]; [reflexivity|]. unfold drop_duplicates. simpl. discriminate.
Qed.

(** The merged dictionary keeps the order of the rows it keeps. *)
Fixpoint sublist (a b : list DictRow) : Prop :=
  match a, b with
  | [], _ => True
  | _ :: _, [] => False
  | x :: a', y :: b' => (x = y /\ sublist a' b') \/ sublist a b'
  end.

Lemma sublist_skip a : forall b y, sublist a b -> sublist a (y :: b).
Proof. destruct a; simpl; auto. Qed.

Lemma drop_duplicates_go_sublist seen l : sublist (drop_duplicates_go seen l) l.
Proof.
  revert seen. induction l as [|x l IH]; simpl; intros seen; [exact I|].
  destruct (existsb (Frame.list_eqb (dup_key x)) seen).
  - apply sublist_skip, IH.
  - simpl. left. split; [reflexivity | apply IH].
Qed.

Lemma nodup_map_inj (f : DictRow -> list string) l r r' :
  NoDup (map f l) -> In r l -> In r' l -> f r = f r' -> r = r'.
Proof.
  induction l as [|x l IH]; simpl; intros Hnd Hr Hr' Hf; [contradiction|].
  inversion Hnd as [|? ? Hx Hl]; subst.
  destruct Hr as [->|Hr], Hr' as [->|Hr']; auto.
  - exfalso. apply Hx. rewrite Hf. now apply in_map.
  - exfalso. apply Hx. rewrite <- Hf. now apply in_map.
Qed.

Lemma first_with_key_key r l r' :
  first_with_key r l = Some r' -> dup_key r' = dup_key r.
Proof.
  unfold first_with_key. intros H. apply find_some in H as [_ H].
  now apply list_eqb_eq.
Qed.

(** What holds of a merged dictionary [d] for the files: no two rows of
    [d] agree on the four compared columns; [d] lists rows of the files in
    the order of the files; every row of the files is represented by the
    earliest row with its four compared columns; and each row of [d] is
    the earliest of the rows that agree with it on the four columns. *)
Definition merged_first_wins (input_files : list InputFile) (d : Dictionary)
  : Prop :=
  NoDup (map dup_key d)
  /\ sublist d (all_rows input_files)
  /\ (forall r, In r (all_rows input_files) ->
        exists r', first_with_key r (all_rows input_files) = Some r' /\ In r' d)
  /\ (forall r, In r d -> first_with_key r (all_rows input_files) = Some r).

(** The merger, amended for C2.  When [combine_DICT_tables] returns a
    dictionary, no two of its rows have the same HEADING, DICT_TYPE,
    DICT_GRP and DICT_HDNG cells, and of the rows of the sources that agree
    on these four cells the one kept is the one of the source listed first
    (the earliest row). *)
Theorem merged_dictionary_first_wins input_files s d :
  snd (combine_DICT_tables input_files s) = Ok d ->
  merged_first_wins input_files d.
Proof.
  rewrite combine_DICT_tables_eq. unfold merged_first_wins.
  destruct (all_rows input_files) as [|x rows]; simpl snd; [discriminate|].
  intros H. injection H as <-. unfold drop_duplicates.
  assert (H3 : forall r, In r (x :: rows) ->
            exists r', first_with_key r (x :: rows) = Some r' /\
                       In r' (drop_duplicates_go [] (x :: rows))).
  { intros r Hr. apply drop_duplicates_go_first; auto. }
  pose proof (drop_duplicates_go_nodup [] (x :: rows)) as H1.
  repeat split; auto.
  - apply drop_duplicates_go_sublist.
  - intros r Hr. pose proof (drop_duplicates_go_in _ _ _ Hr) as [Hin _].
    destruct (H3 r Hin) as (r' & Hf & Hr'). rewrite Hf. f_equal.
    eapply nodup_map_inj; eauto using first_with_key_key.
Qed.

(** C9.  The merger with no dictionary data.  When the merged result has
    no row, [combine_DICT_tables] prints its two error lines and exits:
    whatever the check run would do next with the dictionary is not run,
    the outcome is [SystemExit], and the log, the tables and the heading
    index are as they were, so that nothing is recorded as a rule
    violation.  When the merged result has a row, the merger returns it,
    having printed nothing but the warnings for files without a DICT
    table. *)
Theorem merger_exits_without_dictionary input_files s
    (A : Type) (k : Dictionary -> M A) :
  let merged := drop_duplicates (all_rows input_files) in
  (merged = [] ->
     bind (combine_DICT_tables input_files) k s
     = (printing s (warnings input_files ++ no_dictionary_messages),
        Raise SystemExit))
  /\ (merged <> [] ->
        combine_DICT_tables input_files s
        = (printing s (warnings input_files), Ok merged)).
Proof.
  intros merged. subst merged. split; intros H.
  - apply (proj1 (drop_duplicates_nil _)) in H. unfold bind.
    rewrite combine_DICT_tables_eq, H. reflexivity.
  - rewrite combine_DICT_tables_eq.
    destruct (all_rows input_files); [now contradiction H | reflexivity].
Qed.

(** ** Strings: the first field of a line *)

Lemma append_assoc (a b c : string) : (a ++ b) ++ c = a ++ (b ++ c).
Proof. induction a; simpl; congruence. Qed.

Lemma append_nil_r (a : string) : a ++ "" = a.
Proof. induction a; simpl; congruence. Qed.

Lemma prefix_append (d u : string) : prefix d (d ++ u) = true.
Proof.
  induction d as [|c d IH]; simpl; [now destruct u|].
  destruct (ascii_dec c c); [assumption | congruence].
Qed.

Lemma rev_str_acc (s : string) : forall acc,
  PyStr.rev_str acc s = PyStr.rev_str "" s ++ acc.
Proof.
  induction s as [|c s IH]; simpl; intros acc; [reflexivity|].
  rewrite IH, (IH (String c "")), append_assoc. reflexivity.
Qed.

Lemma rstrip_by_prefix p (s : string) : exists t, s = PyStr.rstrip_by p s ++ t.
Proof.
  induction s as [|c s [t IH]]; simpl; [now exists ""|].
  destruct (PyStr.rstrip_by p s) as [|c' r] eqn:E.
  - destruct (p c); [now exists (String c s)|]. exists s. reflexivity.
  - exists t. simpl in *. congruence.
Qed.

Lemma lstrip_by_suffix p (s : string) :
  exists qs, s = qs ++ PyStr.lstrip_by p s /\ PyStr.forallb_str p qs = true.
Proof.
  induction s as [|c s (qs & IH & Hq)]; simpl; [now exists ""|].
  destruct (p c) eqn:E.
  - exists (String c qs). simpl. rewrite E. split; [congruence | assumption].
  - now exists "".
Qed.

Lemma lstrip_by_skip p (qs x : string) :
  PyStr.forallb_str p qs = true ->
  PyStr.lstrip_by p (qs ++ x) = PyStr.lstrip_by p x.
Proof.
  induction qs as [|c qs IH]; simpl; [reflexivity|].
  intros H. apply andb_prop in H as [-> H]. auto.
Qed.

Lemma rstrip_by_keeps p (d tail : string) :
  PyStr.forallb_str (fun c => negb (p c)) d = true ->
  exists u, PyStr.rstrip_by p (d ++ tail) = d ++ u.
Proof.
  induction d as [|c d IH]; simpl; intros H; [now exists (PyStr.rstrip_by p tail)|].
  apply andb_prop in H as [Hc H]. destruct (IH H) as [u Hu]. rewrite Hu.
  destruct (d ++ u) as [|c' r] eqn:E.
  - apply negb_true_iff in Hc. rewrite Hc. exists "".
    destruct d; [reflexivity | discriminate].
  - exists u. now rewrite E.
Qed.

Lemma split_go_head sep (s : string) : forall acc,
  exists a b rest,
    s = a ++ b /\
    PyStr.split_go sep 0 acc s = (PyStr.rev_str "" acc ++ a) :: rest.
Proof.
  induction s as [|c s IH]; intros acc.
  - exists "", "", []. simpl. now rewrite append_nil_r.
  - cbn [PyStr.split_go]. destruct (prefix sep (String c s)).
    + exists "", (String c s). eexists. split; [reflexivity|].
      now rewrite append_nil_r.
    + destruct (IH (String c acc)) as (a & b & rest & Hs & Hg).
      exists (String c a), b, rest. split; [simpl; congruence|].
      rewrite Hg. simpl. rewrite (rev_str_acc acc (String c "")).
      now rewrite append_assoc.
Qed.

(** The first field being [d] makes the line, stripped of quotes, start
    with [d]: the test of the rules on the descriptor of a line. *)
Lemma first_field_starts (d line : string) :
  d <> "" ->
  PyStr.forallb_str (fun c => negb (PyStr.is_quote c)) d = true ->
  field_at 0 (fields line) = d ->
  starts d line = true.
Proof.
  intros Hne Hd Hf. unfold field_at, fields, PyStr.split in Hf.
  destruct (split_go_head PyStr.QCQ (PyStr.rstrip line) "")
    as (x & b & rest & Hs & Hg).
  rewrite Hg in Hf. simpl in Hf.
  destruct (rstrip_by_prefix PyStr.is_space line) as [t Ht].
  fold (PyStr.rstrip line) in Ht. rewrite Hs in Ht.
  unfold PyStr.strip_quotes, PyStr.strip_by in Hf.
  destruct (lstrip_by_suffix PyStr.is_quote x) as (qs & Hx & Hq).
  destruct (rstrip_by_prefix PyStr.is_quote (PyStr.lstrip_by PyStr.is_quote x))
    as [t2 Hy].
  rewrite Hf in Hy. rewrite Hy in Hx.
  assert (Hline : line = qs ++ (d ++ (t2 ++ b ++ t))).
  { rewrite Ht, Hx. now rewrite !append_assoc. }
  unfold starts, PyStr.startswith, PyStr.strip_quotes, PyStr.strip_by.
  rewrite Hline, lstrip_by_skip by assumption.
  assert (Hl : PyStr.lstrip_by PyStr.is_quote (d ++ (t2 ++ b ++ t))
               = d ++ (t2 ++ b ++ t)).
  { destruct d as [|c d]; [congruence|]. simpl in *.
    apply andb_prop in Hd as [Hc _]. apply negb_true_iff in Hc. now rewrite Hc. }
  rewrite Hl. destruct (rstrip_by_keeps PyStr.is_quote d (t2 ++ b ++ t) Hd)
    as [u Hu].
  rewrite Hu. apply prefix_append.
Qed.

Lemma descriptor_starts (line : string) :
  PyStr.mem (field_at 0 (fields line)) ["UNIT"; "TYPE"; "DATA"] = true ->
  starts "UNIT" line || starts "TYPE" line || starts "DATA" line = true.
Proof.
  unfold PyStr.mem. cbn [existsb]. intros H.
  rewrite !orb_true_iff in H. destruct H as [H|[H|[H|H]]]; [| | |discriminate];
    apply String.eqb_eq in H;
    apply first_field_starts in H; try discriminate; try reflexivity;
    rewrite H; rewrite ?orb_true_r; reflexivity.
Qed.

(** ** The field-count rule *)

Lemma records_of_add_same log rule line group desc :
  records_of (add_error_msg log rule line group desc) rule
  = (records_of log rule ++ [Err.mk line group desc])%list.
Proof. unfold records_of at 1. now rewrite add_error_msg_same. Qed.

Lemma records_of_add_other log rule line group desc rule' :
  rule' <> rule ->
  records_of (add_error_msg log rule line group desc) rule' = records_of log rule'.
Proof. intros H. unfold records_of. now rewrite add_error_msg_other. Qed.

(** The records of Rule 4b that say the headings row of [g] is missing. *)
Definition missing_count (g : string) (log : ErrorLog) : nat :=
  List.length (filter (is_missing_headings g) (records_of log "Rule 4b")).

Definition has_missing (g : string) (log : ErrorLog) : bool :=
  existsb (is_missing_headings g) (records_of log "Rule 4b").

(** The line rules one after the other on one log. *)
Definition run_lines (calls : list LineCall) (log : ErrorLog) : ErrorLog :=
  fold_left (fun l c => line_rule c l) calls log.

Definition same_missing (log log' : ErrorLog) : Prop :=
  forall g, missing_count g log' = missing_count g log.

Lemma same_missing_add log rule line group desc :
  rule <> "Rule 4b" \/ desc <> "Headings row missing." ->
  same_missing log (add_error_msg log rule line group desc).
Proof.
  intros H g. unfold missing_count.
  destruct (string_dec rule "Rule 4b") as [->|Hne].
  - rewrite records_of_add_same, filter_app, length_app. simpl.
    unfold is_missing_headings at 2. simpl.
    destruct H as [H|H]; [congruence|].
    destruct (String.eqb_spec desc "Headings row missing."); [congruence|].
    rewrite andb_false_r. simpl. lia.
  - rewrite records_of_add_other; [reflexivity|]. congruence.
Qed.

Lemma same_missing_fold (X : Type) (f : ErrorLog -> X -> ErrorLog) :
  (forall l x, same_missing l (f l x)) ->
  forall xs l, same_missing l (fold_left f xs l).
Proof.
  intros Hf. induction xs as [|x xs IH]; simpl; intros l g; [reflexivity|].
  rewrite IH. apply Hf.
Qed.

Ltac same_missing_tac :=
  repeat match goal with
    | |- same_missing ?a ?a => intros ?; reflexivity
    | |- same_missing _ (add_error_msg _ _ _ _ _) =>
        apply same_missing_add; first [left; discriminate | right; discriminate]
    | |- same_missing _ (fold_left _ _ _) => apply same_missing_fold; intros
    | |- same_missing _ (if ?b then _ else _) => destruct b
    | |- same_missing _ (match ?x with _ => _ end) => destruct x
    | |- _ => progress cbv zeta
    end.

Lemma filter_none (A : Type) (p : A -> bool) l :
  existsb p l = false -> filter p l = [].
Proof.
  induction l as [|x l IH]; simpl; [reflexivity|].
  destruct (p x); simpl; [discriminate | assumption].
Qed.

Lemma rule_4b_missing line line_number group headings log g :
  missing_count g log <= 1 ->
  missing_count g (rule_4b line line_number group headings log) <= 1.
Proof.
  intros H. unfold rule_4b.
  destruct (starts "UNIT" line || starts "TYPE" line || starts "DATA" line);
    [|assumption].
  destruct (List.length headings =? 0)%nat.
  - assert (Hadd : existsb (is_missing_headings group) (records_of log "Rule 4b")
                   = false ->
                   missing_count g
                     (add_error_msg log "Rule 4b" Dash group "Headings row missing.")
                   <= 1).
    { intros Hex. unfold missing_count in *.
      rewrite records_of_add_same, filter_app, length_app. simpl.
      unfold is_missing_headings at 2. simpl.
      destruct (String.eqb_spec group g) as [->|Hg]; simpl; [|lia].
      rewrite (filter_none _ _ Hex). simpl. lia. }
    unfold records_of in Hadd.
    destruct (log_get log "Rule 4b") as [l|] eqn:E.
    + destruct (existsb (is_missing_headings group) l) eqn:Ex; simpl; auto.
    + now apply Hadd.
  - destruct (negb (List.length (fields line) =? List.length headings)%nat);
      [|assumption].
    rewrite same_missing_add; [assumption | right; discriminate].
Qed.

Lemma line_rule_missing c log g :
  missing_count g log <= 1 -> missing_count g (line_rule c log) <= 1.
Proof.
  intros H. destruct c; simpl; try (now apply rule_4b_missing);
    match goal with
    | |- missing_count g ?l' <= 1 =>
        enough (Hs : same_missing log l') by (now rewrite Hs)
    end;
    unfold rule_1, rule_2a, rule_2c, rule_3, rule_4a, rule_5, rule_6,
      rule_19, rule_19a, rule_19b, rule_19b_item;
    same_missing_tac.
Qed.

Lemma run_lines_missing calls : forall log g,
  missing_count g log <= 1 -> missing_count g (run_lines calls log) <= 1.
Proof.
  induction calls as [|c calls IH]; simpl; intros log g H; [assumption|].
  apply IH. now apply line_rule_missing.
Qed.

(** C4.  The field-count rule.  On a line whose first field is UNIT, TYPE
    or DATA: with a heading row of the group seen and a number of fields
    that differs from that of the heading row, [rule_4b] appends exactly one
    record, with the number of the line and the group (and none when the
    numbers agree); with no heading row seen, it appends one record saying
    that the headings row is missing unless the log already holds that
    record for the group, so that the record is in the log afterwards.
    And however many lines are run through the line rules, a log that
    started with at most one such record for a group (the fresh log has
    none) never holds more than one. *)
Theorem rule_4b_field_count line line_number group headings ags_errors :
  PyStr.mem (field_at 0 (fields line)) ["UNIT"; "TYPE"; "DATA"] = true ->
  (headings <> [] ->
     rule_4b line line_number group headings ags_errors
     = if (List.length (fields line) =? List.length headings)%nat
       then ags_errors
       else add_error_msg ags_errors "Rule 4b" (Line line_number) group
              "Number of fields does not match the HEADING row.")
  /\ (headings = [] ->
        rule_4b line line_number group headings ags_errors
        = (if has_missing group ags_errors then ags_errors
           else add_error_msg ags_errors "Rule 4b" Dash group
                  "Headings row missing.")
        /\ has_missing group
             (rule_4b line line_number group headings ags_errors) = true)
  /\ (forall calls g,
        missing_count g ags_errors <= 1 ->
        missing_count g
          (run_lines calls (rule_4b line line_number group headings ags_errors))
        <= 1).
Proof.
  intros Hd. apply descriptor_starts in Hd. split; [|split].
  - intros Hh. unfold rule_4b. rewrite Hd.
    destruct headings as [|h hs]; [congruence|]. simpl List.length at 1.
    cbn [Nat.eqb]. now destruct (List.length (fields line) =? _)%nat.
  - intros ->. unfold rule_4b, has_missing. rewrite Hd. simpl.
    assert (Hadd : existsb (is_missing_headings group)
                     (records_of
                        (add_error_msg ags_errors "Rule 4b" Dash group
                           "Headings row missing.") "Rule 4b") = true).
    { rewrite records_of_add_same, existsb_app. simpl.
      unfold is_missing_headings at 2. simpl.
      rewrite String.eqb_refl. simpl. apply orb_true_r. }
    pose proof (eq_refl (records_of ags_errors "Rule 4b")) as Hr.
    unfold records_of at 2 in Hr.
    destruct (log_get ags_errors "Rule 4b") as [l|]; rewrite Hr.
    + destruct (existsb (is_missing_headings group) l) eqn:Ex; simpl;
        [|now split].
      split; [reflexivity|]. now rewrite Hr.
    + simpl. now split.
  - intros calls g H. apply run_lines_missing. now apply rule_4b_missing.
Qed.

(** ** The namespacing rule *)

Definition is_underscore (c : ascii) : bool := Ascii.eqb c "_"%char.

(** The characters before the first underscore (all of them when there is
    none). *)
Fixpoint before_underscore (s : string) : string :=
  match s with
  | EmptyString => EmptyString
  | String c s' =>
      if is_underscore c then EmptyString else String c (before_underscore s')
  end.

(** Everything after the first underscore, when there is one. *)
Fixpoint after_underscore (s : string) : option string :=
  match s with
  | EmptyString => None
  | String c s' => if is_underscore c then Some s' else after_underscore s'
  end.

Lemma prefix_underscore c s :
  prefix "_" (String c s) = is_underscore c.
Proof.
  unfold is_underscore. cbn [prefix]. destruct (ascii_dec "_" c) as [<-|Hne].
  - rewrite Ascii.eqb_refl. now destruct s.
  - symmetry. apply Ascii.eqb_neq. congruence.
Qed.

(** Splitting at underscores, piece by piece. *)
Lemma split_underscore_go (s : string) : forall acc,
  PyStr.split_go "_" 0 acc s
  = (PyStr.rev_str "" acc ++ before_underscore s)
    :: match after_underscore s with
       | Some rest => PyStr.split_go "_" 0 "" rest
       | None => []
       end.
Proof.
  induction s as [|c s IH]; intros acc.
  - simpl. now rewrite append_nil_r.
  - cbn [PyStr.split_go]. rewrite prefix_underscore. simpl.
    destruct (is_underscore c).
    + now rewrite append_nil_r.
    + rewrite IH. simpl. rewrite (rev_str_acc acc (String c "")).
      now rewrite append_assoc.
Qed.

Lemma split_underscore (s : string) :
  PyStr.split "_" s
  = before_underscore s
    :: match after_underscore s with
       | Some rest => PyStr.split "_" rest
       | None => []
       end.
Proof. unfold PyStr.split. now rewrite split_underscore_go. Qed.

Definition message_19b (item : string) : string :=
  "Heading " ++ item
  ++ " should consist of a 4 charater group name and a field name of upto 4 characters.".

Definition message_19b_no_underscore (item : string) : string :=
  "Heading " ++ item
  ++ " should consist of group name and field name separated by "
  ++ PyStr.quoted "_" ++ ".".

(** What [rule_19b] does for one heading, in terms of its underscores. *)
Lemma rule_19b_item_eq line_number group log item :
  rule_19b_item line_number group log item =
  match after_underscore item with
  | Some rest =>
      if negb (String.length (before_underscore item) =? 4)%nat
         || (4 <? String.length (before_underscore rest))%nat
      then add_error_msg log "Rule 19b" (Line line_number) group
             (message_19b item)
      else log
  | None =>
      if negb (String.length item =? 4)%nat
      then add_error_msg log "Rule 19b" (Line line_number) group
             (message_19b item)
      else add_error_msg log "Rule 19b" (Line line_number) group
             (message_19b_no_underscore item)
  end.
Proof.
  unfold rule_19b_item. rewrite split_underscore. cbn [nth nth_error].
  destruct (after_underscore item) as [rest|] eqn:E.
  - rewrite (split_underscore rest). cbn [nth_error].
    destruct (negb (String.length (before_underscore item) =? 4)%nat);
      reflexivity.
  - assert (Hb : before_underscore item = item).
    { clear -E. induction item as [|c s IH]; simpl in *; [reflexivity|].
      destruct (is_underscore c); [discriminate | now rewrite IH]. }
    rewrite Hb. reflexivity.
Qed.

(** The namespacing rule, amended for C6.  On a HEADING line, [rule_19b]
    goes through the fields after the first, in order, and for a field
    with an underscore it appends its record exactly when the characters
    before the first underscore are not four, or the characters between
    the first underscore and the next (up to the end of the field when
    there is no next) are more than four; for a field of four characters
    without an underscore it appends the record of a different text, that
    asks for a group name and a field name separated by an underscore. *)
Theorem rule_19b_namespacing line line_number group ags_errors :
  field_at 0 (fields line) = "HEADING" ->
  rule_19b line line_number group ags_errors
  = fold_left (rule_19b_item line_number group) (tl (fields line)) ags_errors
  /\ (forall log item rest,
        after_underscore item = Some rest ->
        rule_19b_item line_number group log item
        = if negb (String.length (before_underscore item) =? 4)%nat
             || (4 <? String.length (before_underscore rest))%nat
          then add_error_msg log "Rule 19b" (Line line_number) group
                 (message_19b item)
          else log)
  /\ (forall log item,
        after_underscore item = None -> String.length item = 4 ->
        rule_19b_item line_number group log item
        = add_error_msg log "Rule 19b" (Line line_number) group
            (message_19b_no_underscore item)).
Proof.
  intros Hd. apply first_field_starts in Hd; [|discriminate|reflexivity].
  split; [|split].
  - unfold rule_19b. rewrite Hd.
    destruct (fields line) as [|x [|y l]] eqn:E; reflexivity.
  - intros log item rest H. now rewrite rule_19b_item_eq, H.
  - intros log item H Hl. rewrite rule_19b_item_eq, H, Hl. reflexivity.
Qed.

(** ** The heading-order rule *)

Definition with_errors (s : State) (log : ErrorLog) : State :=
  mkState (tables s) (headings s) log (stdout s) (copies s).

Lemma with_errors_same s : with_errors s (ags_errors s) = s.
Proof. now destruct s. Qed.

(** Records appended one after the other under one rule. *)
Definition add_all (rule : string) (records : list Err.t) (log : ErrorLog)
  : ErrorLog :=
  fold_left (fun l r => add_error_msg l rule (Err.line r) (Err.group r) (Err.desc r))
    records log.

Lemma add_all_app rule a b log :
  add_all rule (a ++ b)%list log = add_all rule b (add_all rule a log).
Proof. unfold add_all. apply fold_left_app. Qed.

Lemma list_remove_first x a b :
  PyStr.mem x a = false -> list_remove x (a ++ x :: b)%list = Some (a ++ b)%list.
Proof.
  induction a as [|y a IH]; simpl; intros H.
  - now rewrite String.eqb_refl.
  - apply orb_false_elim in H as [Hy Ha]. rewrite String.eqb_sym in Hy.
    rewrite Hy, IH by assumption. reflexivity.
Qed.

(** The loop of [rule_7] that removes, one at a time, the dictionary
    headings that the file does not use never fails, and leaves the
    dictionary headings that the file uses, in dictionary order. *)
Lemma remove_unused_is_filter (h : list string) s : forall l2 a,
  (forall y, In y a -> PyStr.mem y h = true) ->
  for_fold l2 (a ++ l2)%list
    (fun item temp =>
       if negb (PyStr.mem item h)
       then lift ValueError (list_remove item temp)
       else ret temp) s
  = (s, Ok (a ++ filter (fun x => PyStr.mem x h) l2)%list).
Proof.
  induction l2 as [|x l2 IH]; intros a Ha; simpl; [reflexivity|].
  unfold bind at 1. destruct (PyStr.mem x h) eqn:E; simpl.
  - replace (a ++ x :: l2)%list with ((a ++ [x]) ++ l2)%list
      by now rewrite <- app_assoc.
    rewrite IH.
    + now rewrite <- app_assoc.
    + intros y Hy. apply in_app_or in Hy as [Hy|[<-|[]]]; auto.
  - rewrite list_remove_first.
    + simpl. now apply IH.
    + destruct (PyStr.mem x a) eqn:Ea; [|reflexivity].
      unfold PyStr.mem in Ea. apply existsb_exists in Ea as (y & Hy & Hxy).
      apply String.eqb_eq in Hxy. subst y. apply Ha in Hy. congruence.
Qed.

(** The dictionary headings of a group, in dictionary order. *)
Definition reference_headings (dictionary : Dictionary) (key : string)
  : list string :=
  dict_loc dictionary (fun r => DICT_GRP r =? key) DICT_HDNG.

Definition message_7_order (key : string) : string :=
  "HEADING names in " ++ key
  ++ " are not in the order that they are defined in the DICT table and the standard dictionary.".

Definition message_7_unchecked : string :=
  "Order of headings could not be checked as one or more fields were not found in either the DICT table or the standard dictionary. Check error log under Rule 9.".

(** What the rule is to record for one group, in the words of the
    specification: when the headings of the group after the row-type
    column are all dictionary headings of the group, the dictionary
    headings that are present in the heading row are compared, in
    dictionary order, with the headings after the row-type column, and a
    difference is one record; otherwise the record is that the order could
    not be checked. *)
Definition rule_7_records (dictionary : Dictionary) (key : string)
    (h : list string) : list Err.t :=
  let reference := reference_headings dictionary key in
  if PyStr.issubset (tl h) reference
  then
    if Frame.list_eqb (filter (fun x => PyStr.mem x h) reference) (tl h)
    then []
    else [Err.mk Dash key (message_7_order key)]
  else [Err.mk Dash key message_7_unchecked].

Lemma assoc_in_nodup (A : Type) (k : string) (v : A) l :
  NoDup (map fst l) -> In (k, v) l -> assoc k l = Some v.
Proof.
  induction l as [|[k' v'] l IH]; simpl; intros Hnd Hin; [contradiction|].
  inversion Hnd as [|? ? Hk Hl]; subst.
  destruct Hin as [Heq|Hin].
  - injection Heq as -> ->. now rewrite String.eqb_refl.
  - destruct (String.eqb_spec k' k) as [->|Hne]; [|auto].
    exfalso. apply Hk. change k with (fst (k, v)). now apply in_map.
Qed.

Lemma rule_7_group dictionary key h s :
  assoc key (headings s) = Some h ->
  bind (heading_list key) (fun h =>
    if PyStr.issubset (tl h) (reference_headings dictionary key)
    then
      temp <- for_fold (reference_headings dictionary key)
                (reference_headings dictionary key)
                (fun item temp =>
                   if negb (PyStr.mem item h)
                   then lift ValueError (list_remove item temp)
                   else ret temp) ;;
      when (negb (Frame.list_eqb temp (tl h)))
        (record "Rule 7" Dash key (message_7_order key))
    else record "Rule 7" Dash key message_7_unchecked) s
  = (with_errors s
       (add_all "Rule 7" (rule_7_records dictionary key h) (ags_errors s)),
     Ok tt).
Proof.
  intros Hh. unfold bind at 1, heading_list. rewrite Hh.
  unfold rule_7_records. cbv zeta.
  destruct (PyStr.issubset (tl h) (reference_headings dictionary key)).
  - unfold bind.
    assert (Hf := @remove_unused_is_filter h s
                    (reference_headings dictionary key) []).
    cbn [app] in Hf. rewrite Hf by (intros y []).
    destruct (Frame.list_eqb _ (tl h)); simpl; [|reflexivity].
    now rewrite with_errors_same.
  - reflexivity.
Qed.

Lemma rule_7_loop dictionary (es : list (string * list string)) : forall s,
  (forall k h, In (k, h) es -> assoc k (headings s) = Some h) ->
  for_each (map fst es) (fun key =>
    let reference_headings_list :=
      dict_loc dictionary (fun r => DICT_GRP r =? key) DICT_HDNG in
    h <- heading_list key ;;
    if PyStr.issubset (tl h) reference_headings_list
    then
      temp <- for_fold reference_headings_list reference_headings_list
                (fun item temp =>
                   if negb (PyStr.mem item h)
                   then lift ValueError (list_remove item temp)
                   else ret temp) ;;
      when (negb (Frame.list_eqb temp (tl h)))
        (record "Rule 7" Dash key
           ("HEADING names in " ++ key
            ++ " are not in the order that they are defined in the DICT table and the standard dictionary."))
    else
      record "Rule 7" Dash key
        "Order of headings could not be checked as one or more fields were not found in either the DICT table or the standard dictionary. Check error log under Rule 9.") s
  = (with_errors s
       (add_all "Rule 7"
          (flat_map (fun kh => rule_7_records dictionary (fst kh) (snd kh)) es)
          (ags_errors s)),
     Ok tt).
Proof.
  induction es as [|[k h] es IH]; intros s Hs.
  - simpl. now rewrite with_errors_same.
  - cbn [map fst for_each flat_map snd]. unfold bind at 1. cbv zeta.
    pose proof (@rule_7_group dictionary k h s (Hs k h (or_introl eq_refl))) as Hg.
    unfold reference_headings, message_7_order, message_7_unchecked in Hg.
    rewrite Hg. rewrite IH.
    + rewrite add_all_app. reflexivity.
    + intros k' h' Hin. simpl. apply Hs. now right.
Qed.

(** C5.  The heading-order rule.  For a heading index with one entry per
    group, [rule_7] returns, having appended under Rule 7, group after
    group in the order of the index, what [rule_7_records] says: for a
    group whose headings after the row-type column are all dictionary
    headings of the group, one order record exactly when the dictionary
    headings present in the heading row, in dictionary order, differ from
    the headings after the row-type column; for any other group, one
    record that the order could not be checked, with no comparison made.
    The tables and the heading index are left as they were. *)
Theorem rule_7_heading_order dictionary s :
  NoDup (map fst (headings s)) ->
  rule_7 dictionary s
  = (with_errors s
       (add_all "Rule 7"
          (flat_map (fun kh => rule_7_records dictionary (fst kh) (snd kh))
             (headings s))
          (ags_errors s)),
     Ok tt).
Proof.
  intros Hnd. unfold rule_7, bind at 1, heading_keys.
  apply rule_7_loop. intros k h Hin. now apply assoc_in_nodup.
Qed.

(** ** The key-field rule *)

(** The cell of a row under a column ([""] for a column the table does not
    have), and the cells under a list of columns. *)
Definition get (cols : list string) (row : list string) (c : string) : string :=
  match Frame.position c cols with
  | Some i => nth i row ""
  | None => ""
  end.

Definition tuple (cols cs : list string) (row : list string) : list string :=
  map (get cols row) cs.

Lemma position_mem c cols :
  PyStr.mem c cols = true -> exists i, Frame.position c cols = Some i.
Proof.
  induction cols as [|x cols IH]; simpl; [discriminate|].
  rewrite String.eqb_sym. destruct (x =? c); simpl; [now exists 0|].
  intros H. destruct (IH H) as [i ->]. now exists (S i).
Qed.

Lemma cells_tuple cols row cs :
  PyStr.issubset cs cols = true ->
  Frame.cells cols row cs = Some (tuple cols cs row).
Proof.
  induction cs as [|c cs IH]; simpl; [reflexivity|].
  intros H. apply andb_prop in H as [Hc Hcs].
  unfold Frame.cell, get. destruct (position_mem _ _ Hc) as [i ->].
  now rewrite IH.
Qed.

Lemma keys_of_tuples cols rows cs :
  PyStr.issubset cs cols = true ->
  Frame.keys_of cols rows cs = Some (map (tuple cols cs) rows).
Proof.
  intros H. induction rows as [|row rows IH]; simpl.
  - now rewrite cells_tuple.
  - now rewrite cells_tuple, IH.
Qed.

Lemma select_map (A B : Type) (f : A -> B) mask l :
  map f (Frame.select mask l) = Frame.select mask (map f l).
Proof.
  revert l. induction mask as [|b mask IH]; intros [|x l]; simpl; auto.
  destruct b; simpl; now rewrite IH.
Qed.

(** A tuple is shared when it occurs more than once among the tuples of
    the rows. *)
Definition is_shared (ks : list (list string)) (k : list string) : bool :=
  (1 <? Frame.count_occ_b k ks)%nat.

Definition flagged (ks : list (list string)) : list bool := map (is_shared ks) ks.

Lemma count_occ_b_pos k ks :
  0 < Frame.count_occ_b k ks <-> exists j, nth_error ks j = Some k.
Proof.
  induction ks as [|x ks IH]; simpl.
  - split; [lia | intros [[|j] H]; discriminate].
  - destruct (Frame.list_eqb k x) eqn:E.
    + apply list_eqb_eq in E. subst x. split; [|lia]. intros _. now exists 0.
    + rewrite IH. split.
      * intros [j Hj]. now exists (S j).
      * intros [[|j] Hj]; simpl in Hj; [|now exists j].
        injection Hj as ->. rewrite (proj2 (list_eqb_eq k k) eq_refl) in E.
        discriminate.
Qed.

(** The row at [i] is marked exactly when another row has its tuple. *)
Lemma is_shared_other ks : forall i k,
  nth_error ks i = Some k ->
  (is_shared ks k = true <-> exists j, j <> i /\ nth_error ks j = Some k).
Proof.
  unfold is_shared. induction ks as [|x ks IH]; intros i k Hi.
  - destruct i; discriminate.
  - simpl. destruct i as [|i]; simpl in Hi.
    + injection Hi as ->. rewrite (proj2 (list_eqb_eq k k) eq_refl).
      rewrite Nat.ltb_lt. split.
      * intros H. assert (H0 : 0 < Frame.count_occ_b k ks) by lia.
        apply count_occ_b_pos in H0 as [j Hj]. exists (S j). now split.
      * intros (j & Hne & Hj). destruct j as [|j]; [congruence|]. simpl in Hj.
        assert (H0 : 0 < Frame.count_occ_b k ks)
          by (apply count_occ_b_pos; now exists j).
        lia.
    + destruct (Frame.list_eqb k x) eqn:E.
      * apply list_eqb_eq in E. subst x. rewrite Nat.ltb_lt. split.
        -- intros _. exists 0. now split.
        -- intros _. assert (H0 : 0 < Frame.count_occ_b k ks)
             by (apply count_occ_b_pos; now exists i).
           lia.
      * simpl. rewrite (IH i k Hi). split.
        -- intros (j & Hne & Hj). exists (S j). split; [congruence | assumption].
        -- intros (j & Hne & Hj). destruct j as [|j]; simpl in Hj.
           ++ injection Hj as ->.
              rewrite (proj2 (list_eqb_eq k k) eq_refl) in E. discriminate.
           ++ exists j. split; [congruence | assumption].
Qed.

(** The headings the dictionary tags as key for a group. *)
Definition key_fields_of (dictionary : Dictionary) (group : string)
  : list string :=
  dict_loc dictionary
    (fun r => (DICT_GRP r =? group) && stat_contains "key" r) DICT_HDNG.

Definition missing_key_records (group : string) (key_fields h : list string)
  : list Err.t :=
  map (fun heading =>
         Err.mk Dash group ("Key field " ++ heading ++ " not found."))
    (filter (fun heading => negb (PyStr.mem heading h)) key_fields).

(** The tuples of the rows of a table: the row-type cell, then the cells
    under the key headings. *)
Definition key_tuples (key_fields : list string) (df : Frame.t)
  : list (list string) :=
  map (tuple (Frame.columns df) ("HEADING" :: key_fields)) (Frame.values df).

Definition duplicate_records (group : string) (key_fields : list string)
    (df : Frame.t) : list Err.t :=
  let ks := key_tuples key_fields df in
  map (fun k =>
         Err.mk Dash group
           ("Duplicate key field combination: " ++ PyStr.join "|" k))
    (Frame.select (flagged ks) ks).

(** What the rule is to record for one group: the key headings that the
    heading row lacks, and, when it lacks none, the rows whose tuple is
    shared. *)
Definition rule_10a_records (dictionary : Dictionary) (group : string)
    (df : Frame.t) : list Err.t :=
  let key_fields := key_fields_of dictionary group in
  let h := Frame.columns df in
  (missing_key_records group key_fields h
   ++ (if PyStr.issubset key_fields h
       then duplicate_records group key_fields df
       else []))%list.

Lemma record_eq rule line group desc s :
  record rule line group desc s
  = (with_errors s (add_error_msg (ags_errors s) rule line group desc), Ok tt).
Proof. reflexivity. Qed.

Lemma missing_keys_loop group h (l : list string) : forall s,
  assoc group (headings s) = Some h ->
  for_each l (fun heading =>
    h <- heading_list group ;;
    when (negb (PyStr.mem heading h))
      (record "Rule 10a" Dash group ("Key field " ++ heading ++ " not found."))) s
  = (with_errors s
       (add_all "Rule 10a" (missing_key_records group l h) (ags_errors s)),
     Ok tt).
Proof.
  induction l as [|x l IH]; intros s Hh.
  - simpl. now rewrite with_errors_same.
  - cbn [for_each]. unfold bind at 1 2, heading_list at 1. rewrite Hh.
    unfold missing_key_records. cbn [filter].
    destruct (negb (PyStr.mem x h)); cbn [when].
    + rewrite record_eq. rewrite IH by exact Hh. reflexivity.
    + unfold ret. rewrite IH by exact Hh. reflexivity.
Qed.

Lemma duplicates_loop group cols cs (rows : list (list string)) : forall s,
  PyStr.issubset cs cols = true ->
  for_each rows (fun row =>
    cs' <- lift KeyError (Frame.cells cols row cs) ;;
    let duplicate_key_combo := PyStr.join "|" cs' in
    record "Rule 10a" Dash group
      ("Duplicate key field combination: " ++ duplicate_key_combo)) s
  = (with_errors s
       (add_all "Rule 10a"
          (map (fun k =>
                  Err.mk Dash group
                    ("Duplicate key field combination: " ++ PyStr.join "|" k))
             (map (tuple cols cs) rows))
          (ags_errors s)),
     Ok tt).
Proof.
  induction rows as [|row rows IH]; intros s Hcs.
  - simpl. now rewrite with_errors_same.
  - cbn [for_each]. unfold bind at 1 2. rewrite cells_tuple by assumption.
    cbn [lift ret]. cbv zeta. rewrite record_eq. rewrite IH by assumption.
    reflexivity.
Qed.

(** The heading index lists the columns of each table, the row-type
    column among them: what the reader hands over. *)
Definition index_matches (s : State) : Prop :=
  forall key df, In (key, df) (tables s) ->
    assoc key (headings s) = Some (Frame.columns (data df))
    /\ PyStr.mem "HEADING" (Frame.columns (data df)) = true.

Lemma rule_10a_group dictionary group df s :
  assoc group (tables s) = Some df ->
  assoc group (headings s) = Some (Frame.columns (data df)) ->
  PyStr.mem "HEADING" (Frame.columns (data df)) = true ->
  (let key_fields := key_fields_of dictionary group in
   for_each key_fields (fun heading =>
     h <- heading_list group ;;
     when (negb (PyStr.mem heading h))
       (record "Rule 10a" Dash group ("Key field " ++ heading ++ " not found."))) ;;
   h <- heading_list group ;;
   when (PyStr.issubset key_fields h)
     (let key_fields := "HEADING" :: key_fields in
      df <- table group ;;
      mask <- lift KeyError (Frame.duplicated df key_fields) ;;
      let duplicate_rows := Frame.select mask (Frame.values df) in
      for_each duplicate_rows (fun row =>
        cs <- lift KeyError (Frame.cells (Frame.columns df) row key_fields) ;;
        let duplicate_key_combo := PyStr.join "|" cs in
        record "Rule 10a" Dash group
          ("Duplicate key field combination: " ++ duplicate_key_combo)))) s
  = (with_errors s
       (add_all "Rule 10a" (rule_10a_records dictionary group (data df))
          (ags_errors s)),
     Ok tt).
Proof.
  intros Ht Hh Hc. cbv zeta. unfold bind at 1.
  rewrite (@missing_keys_loop group (Frame.columns (data df))) by exact Hh.
  unfold bind at 1, heading_list at 1. cbn [headings with_errors]. rewrite Hh.
  unfold rule_10a_records. cbv zeta. rewrite add_all_app.
  destruct (PyStr.issubset (key_fields_of dictionary group)
              (Frame.columns (data df))) eqn:Hsub; cbn [when].
  - assert (Hall : PyStr.issubset ("HEADING" :: key_fields_of dictionary group)
                     (Frame.columns (data df)) = true).
    { simpl. now rewrite Hc, Hsub. }
    unfold bind at 1, table at 1. cbn [tables with_errors]. rewrite Ht.
    unfold bind at 1, Frame.duplicated. rewrite keys_of_tuples by exact Hall.
    cbn [lift ret]. rewrite duplicates_loop by exact Hall.
    cbn [ags_errors with_errors]. rewrite select_map.
    unfold duplicate_records, key_tuples, flagged, is_shared. cbv zeta.
    reflexivity.
  - unfold ret. cbn [add_all fold_left]. reflexivity.
Qed.

Lemma rule_10a_loop dictionary (es : list (string * DataFrame)) : forall s,
  (forall k df, In (k, df) es ->
     assoc k (tables s) = Some df
     /\ assoc k (headings s) = Some (Frame.columns (data df))
     /\ PyStr.mem "HEADING" (Frame.columns (data df)) = true) ->
  for_each (map fst es) (fun group =>
    let key_fields :=
      dict_loc dictionary
        (fun r => (DICT_GRP r =? group) && stat_contains "key" r) DICT_HDNG in
    for_each key_fields (fun heading =>
      h <- heading_list group ;;
      when (negb (PyStr.mem heading h))
        (record "Rule 10a" Dash group ("Key field " ++ heading ++ " not found."))) ;;
    h <- heading_list group ;;
    when (PyStr.issubset key_fields h)
      (let key_fields := "HEADING" :: key_fields in
       df <- table group ;;
       mask <- lift KeyError (Frame.duplicated df key_fields) ;;
       let duplicate_rows := Frame.select mask (Frame.values df) in
       for_each duplicate_rows (fun row =>
         cs <- lift KeyError (Frame.cells (Frame.columns df) row key_fields) ;;
         let duplicate_key_combo := PyStr.join "|" cs in
         record "Rule 10a" Dash group
           ("Duplicate key field combination: " ++ duplicate_key_combo)))) s
  = (with_errors s
       (add_all "Rule 10a"
          (flat_map (fun kd => rule_10a_records dictionary (fst kd) (data (snd kd)))
             es)
          (ags_errors s)),
     Ok tt).
Proof.
  induction es as [|[k df] es IH]; intros s Hs.
  - simpl. now rewrite with_errors_same.
  - cbn [map fst for_each flat_map snd]. unfold bind at 1.
    destruct (Hs k df (or_introl eq_refl)) as (Ht & Hh & Hc).
    pose proof (@rule_10a_group dictionary k df s Ht Hh Hc) as Hg.
    unfold key_fields_of in Hg. cbv zeta in Hg. cbv zeta.
    rewrite Hg. rewrite IH.
    + rewrite add_all_app. reflexivity.
    + intros k' df' Hin. simpl. apply Hs. now right.
Qed.

(** The key-field rule, amended for C3.  With one table per group and a
    heading index that lists the columns of each table, [rule_10a]
    returns, having appended under Rule 10a, group after group, the key
    headings the heading row lacks and then, only when it lacks none, one
    record for each row whose tuple (row-type cell, then the cells under
    the key headings) is shared: the row at a position is marked exactly
    when a row at another position of the same table has the same tuple.
    The row-type cell is part of the tuple, so a DATA row is marked
    exactly when another DATA row has its key values, and a row whose
    tuple no other row has is never marked; rows of the other row types
    are marked by the same test.  When a key heading is missing only the
    missing-key records of the group are appended. *)
Theorem rule_10a_key_uniqueness dictionary s :
  NoDup (map fst (tables s)) ->
  index_matches s ->
  rule_10a dictionary s
  = (with_errors s
       (add_all "Rule 10a"
          (flat_map
             (fun kd => rule_10a_records dictionary (fst kd) (data (snd kd)))
             (tables s))
          (ags_errors s)),
     Ok tt)
  /\ (forall group df,
        PyStr.issubset (key_fields_of dictionary group) (Frame.columns df) = false ->
        rule_10a_records dictionary group df
        = missing_key_records group (key_fields_of dictionary group)
            (Frame.columns df))
  /\ (forall group df,
        PyStr.issubset (key_fields_of dictionary group) (Frame.columns df) = true ->
        rule_10a_records dictionary group df
        = duplicate_records group (key_fields_of dictionary group) df)
  /\ (forall key_fields df i k,
        nth_error (key_tuples key_fields df) i = Some k ->
        (nth i (flagged (key_tuples key_fields df)) false = true
         <-> exists j, j <> i /\ nth_error (key_tuples key_fields df) j = Some k)).
Proof.
  intros Hnd Hwf. split; [|split; [|split]].
  - unfold rule_10a, bind at 1, table_keys. apply rule_10a_loop.
    intros k df Hin. destruct (Hwf k df Hin) as [Hh Hc].
    repeat split; auto. now apply assoc_in_nodup.
  - intros group df H. unfold rule_10a_records. cbv zeta. rewrite H.
    apply app_nil_r.
  - intros group df H. unfold rule_10a_records. cbv zeta. rewrite H.
    unfold missing_key_records.
    replace (filter _ (key_fields_of dictionary group)) with (@nil string);
      [reflexivity|].
    symmetry. unfold PyStr.issubset in H. rewrite forallb_forall in H.
    induction (key_fields_of dictionary group) as [|x l IH]; [reflexivity|].
    simpl. rewrite (H x (or_introl eq_refl)). simpl. apply IH.
    intros y Hy. apply H. now right.
  - intros key_fields df i k Hi. rewrite <- (is_shared_other _ _ Hi).
    unfold flagged.
    rewrite (nth_indep _ false (is_shared (key_tuples key_fields df) k)).
    + rewrite map_nth. erewrite nth_error_nth by exact Hi. reflexivity.
    + rewrite length_map. apply nth_error_Some. congruence.
Qed.

(** ** The parent rule *)

(** The parent group the dictionary declares for a group: the DICT_PGRP
    cell of the first GROUP row of the group. *)
Definition parent_of (dictionary : Dictionary) (group : string) : option string :=
  hd_error
    (dict_loc dictionary
       (fun r => (DICT_TYPE r =? "GROUP") && (DICT_GRP r =? group)) DICT_PGRP).

(** The child rows without a parent row, as their cells under the key
    headings of the parent: no row of the parent has the same cells. *)
Definition orphans (keys : list string) (child_df parent_df : Frame.t)
  : list (list string) :=
  filter
    (fun k =>
       negb (existsb (Frame.list_eqb k)
               (map (tuple (Frame.columns parent_df) keys) (Frame.values parent_df))))
    (map (tuple (Frame.columns child_df) keys) (Frame.values child_df)).

Definition orphan_message (parent_group : string) (k : list string) : string :=
  "Parent entry for line not found in " ++ parent_group ++ ": " ++ PyStr.join "|" k.

(** The records of [rule_10c] for the orphans of one group. *)
Definition orphan_records (dictionary : Dictionary)
    (tables : list (string * DataFrame)) (group : string) (df : Frame.t)
  : list Err.t :=
  if PyStr.mem group root_groups then []
  else
    match parent_of dictionary group with
    | Some parent_group =>
        match assoc parent_group tables with
        | Some parent_df =>
            map (fun k => Err.mk Dash group (orphan_message parent_group k))
              (orphans (key_fields_of dictionary parent_group) df (data parent_df))
        | None => []
        end
    | None => []
    end.

(** The parent of the group and its key fields can be resolved: the
    dictionary names a parent, the parent has a table, it has key
    headings, each named once, and both tables have them. *)
Definition resolvable (dictionary : Dictionary) (s : State) (group : string)
    (df : Frame.t) : Prop :=
  exists parent_group parent_df,
    parent_of dictionary group = Some parent_group
    /\ parent_group <> ""
    /\ assoc parent_group (tables s) = Some parent_df
    /\ key_fields_of dictionary parent_group <> []
    /\ NoDup (key_fields_of dictionary parent_group)
    /\ PyStr.issubset (key_fields_of dictionary parent_group) (Frame.columns df) = true
    /\ PyStr.issubset (key_fields_of dictionary parent_group)
         (Frame.columns (data parent_df)) = true.

Lemma orphans_loop group parent_group (l : list (list string)) : forall s,
  for_each l (fun row =>
    let msg := PyStr.join "|" row in
    record "Rule 10a" Dash group
      ("Parent entry for line not found in " ++ parent_group ++ ": " ++ msg)) s
  = (with_errors s
       (add_all "Rule 10a"
          (map (fun k => Err.mk Dash group (orphan_message parent_group k)) l)
          (ags_errors s)),
     Ok tt).
Proof.
  induction l as [|row l IH]; intros s.
  - simpl. now rewrite with_errors_same.
  - cbn [for_each]. unfold bind at 1. cbv zeta. rewrite record_eq.
    rewrite IH. reflexivity.
Qed.

Lemma orphan_rows_eq child parent i j keys s :
  keys <> [] ->
  nth_error (copies s) i = Some child ->
  nth_error (copies s) j = Some parent ->
  PyStr.issubset keys (Frame.columns child) = true ->
  PyStr.issubset keys (Frame.columns parent) = true ->
  orphan_rows (Copy i) (Copy j) keys s = (s, Ok (orphans keys child parent)).
Proof.
  intros Hne Hi Hj Hc Hp. unfold orphan_rows, bind, read. rewrite Hi, Hj.
  rewrite !keys_of_tuples by assumption. cbn [lift ret].
  destruct keys; [congruence | reflexivity].
Qed.

Lemma assoc_some_in (A : Type) (k : string) (v : A) l :
  assoc k l = Some v -> In (k, v) l.
Proof.
  induction l as [|[k' v'] l IH]; simpl; [discriminate|].
  destruct (String.eqb_spec k' k) as [->|Hne].
  - intros H. injection H as ->. now left.
  - intros H. right. now apply IH.
Qed.

Lemma nth_error_last (A : Type) (l : list A) x rest :
  nth_error (l ++ x :: rest)%list (List.length l) = Some x.
Proof. induction l; simpl; auto. Qed.

(** One group of [rule_10c]: the copies it leaves are its own business;
    the rest of the state is as the orphans say. *)
Lemma rule_10c_group_eq dictionary group df s :
  index_matches s ->
  assoc group (tables s) = Some df ->
  assoc group (headings s) = Some (Frame.columns (data df)) ->
  (PyStr.mem group root_groups = false -> resolvable dictionary s group (data df)) ->
  exists c,
    rule_10c_group dictionary group s
    = (with_copies
         (with_errors s
            (add_all "Rule 10a"
               (orphan_records dictionary (tables s) group (data df))
               (ags_errors s)))
         c,
       Ok tt).
Proof.
  intros Hwf Ht Hh Hres. unfold rule_10c_group, orphan_records.
  destruct (PyStr.mem group root_groups) eqn:Hroot; cbn [negb when].
  - exists (copies s). unfold ret. cbn [add_all fold_left]. now destruct s.
  - destruct (Hres eq_refl)
      as (parent_group & parent_df & Hp & Hne & Hpt & Hk & _ & Hc & Hpc).
    destruct (Hwf _ _ (assoc_some_in _ _ Hpt)) as [Hph _].
    unfold parent_of in Hp |- *. rewrite Hp, Hpt.
    exists (copies s ++ [data parent_df; data df])%list.
    apply try_ok. unfold bind at 1. cbn [lift ret]. apply try_ok.
    destruct (String.eqb_spec parent_group ""); [congruence|].
    cbv zeta. fold (key_fields_of dictionary parent_group).
    unfold bind at 1, table_copy at 1. rewrite Hpt.
    unfold bind at 1, table_copy at 1. cbn [tables with_copies]. rewrite Ht.
    unfold bind at 1, heading_list at 1. cbn [headings with_copies]. rewrite Hh.
    rewrite Hc. unfold bind at 1 2, heading_list at 1.
    cbn [headings with_copies]. rewrite Hph.
    cbn [ret]. rewrite Hpc. cbn [copies with_copies].
    erewrite bind_ok.
    2:{ apply orphan_rows_eq with (child := data df) (parent := data parent_df);
          try assumption; cbn [copies with_copies].
        - apply nth_error_last.
        - rewrite <- app_assoc. apply nth_error_last. }
    rewrite orphans_loop. cbn [ags_errors with_copies with_errors].
    unfold with_errors, with_copies. cbn. rewrite <- app_assoc. reflexivity.
Qed.

Lemma rule_10c_loop dictionary (es : list (string * DataFrame)) : forall s,
  index_matches s ->
  (forall k df, In (k, df) es ->
     assoc k (tables s) = Some df
     /\ assoc k (headings s) = Some (Frame.columns (data df))
     /\ (PyStr.mem k root_groups = false -> resolvable dictionary s k (data df))) ->
  exists c,
    for_each (map fst es) (rule_10c_group dictionary) s
    = (with_copies
         (with_errors s
            (add_all "Rule 10a"
               (flat_map
                  (fun kd =>
                     orphan_records dictionary (tables s) (fst kd) (data (snd kd)))
                  es)
               (ags_errors s)))
         c,
       Ok tt).
Proof.
  induction es as [|[k df] es IH]; intros s Hwf Hs.
  - exists (copies s). simpl. now destruct s.
  - cbn [map fst for_each flat_map snd].
    destruct (Hs k df (or_introl eq_refl)) as (Ht & Hh & Hr).
    destruct (@rule_10c_group_eq dictionary k df s Hwf Ht Hh Hr) as [c1 H1].
    rewrite (@bind_ok _ _ _ _ _ _ _ H1).
    match goal with
    | |- exists c, for_each _ _ ?s1 = _ => destruct (IH s1) as [c2 H2]
    end.
    + exact Hwf.
    + intros k' df' Hin. apply Hs. now right.
    + exists c2. rewrite H2. cbn [tables ags_errors with_copies with_errors].
      rewrite add_all_app. reflexivity.
Qed.

Lemma records_of_add_all_other rule rule' recs : forall log,
  rule' <> rule -> records_of (add_all rule recs log) rule' = records_of log rule'.
Proof.
  induction recs as [|r recs IH]; intros log Hne; [reflexivity|].
  unfold add_all in *. simpl. rewrite IH by assumption.
  now apply records_of_add_other.
Qed.

Lemma records_of_add_all_same rule recs : forall log,
  records_of (add_all rule recs log) rule = (records_of log rule ++ recs)%list.
Proof.
  induction recs as [|r recs IH]; intros log.
  - simpl. now rewrite app_nil_r.
  - unfold add_all in *. simpl. rewrite IH, records_of_add_same.
    rewrite <- app_assoc. now destruct r.
Qed.

(** The parent rule as the code has it (C1).  With one table per group, a
    heading index that lists the columns of each table, and the parent
    and the parent key fields of every group outside the root set
    resolvable, [rule_10c] returns having appended one record for each row
    of each such group that has no row of the parent group with the same
    cells under the key headings of the parent, and no record for a row
    that has one; but it appends these records under Rule 10a: the list of
    Rule 10c, the rule of this check, is left as it was. *)
Theorem rule_10c_records_orphans_under_10a dictionary s :
  NoDup (map fst (tables s)) ->
  index_matches s ->
  (forall group df, In (group, df) (tables s) ->
     PyStr.mem group root_groups = false ->
     resolvable dictionary s group (data df)) ->
  let found :=
    flat_map (fun kd => orphan_records dictionary (tables s) (fst kd) (data (snd kd)))
      (tables s) in
  rule_10c dictionary s
  = (with_errors s (add_all "Rule 10a" found (ags_errors s)), Ok tt)
  /\ records_of (ags_errors (fst (rule_10c dictionary s))) "Rule 10a"
     = (records_of (ags_errors s) "Rule 10a" ++ found)%list
  /\ records_of (ags_errors (fst (rule_10c dictionary s))) "Rule 10c"
     = records_of (ags_errors s) "Rule 10c".
Proof.
  intros Hnd Hwf Hres found.
  assert (H : rule_10c dictionary s
              = (with_errors s (add_all "Rule 10a" found (ags_errors s)), Ok tt)).
  { unfold rule_10c, in_frame.
    rewrite (@bind_ok _ _ table_keys _ (with_copies s []) (with_copies s [])
               (map fst (tables s)) eq_refl).
    destruct (@rule_10c_loop dictionary (tables s) (with_copies s []) Hwf)
      as [c Hc].
    - intros k df Hin. destruct (Hwf k df Hin) as [Hh _].
      split; [now apply assoc_in_nodup|]. split; [exact Hh|].
      intros Hroot. exact (Hres k df Hin Hroot).
    - rewrite Hc. reflexivity. }
  rewrite H. cbn [fst ags_errors with_errors]. repeat split.
  - apply records_of_add_all_same.
  - apply records_of_add_all_other. discriminate.
Qed.

(** * The rules on concrete inputs *)

(** A dictionary in the shape of the standard one: LOCA is a root group
    with key LOCA_ID, GEOL is a child of LOCA with keys LOCA_ID and
    GEOL_TOP. *)
Definition std_dictionary : Dictionary :=
  [ mkDict "DATA" "GROUP" "LOCA" "" "" "-";
    mkDict "DATA" "HEADING" "LOCA" "LOCA_ID" "KEY+REQUIRED" "";
    mkDict "DATA" "HEADING" "LOCA" "LOCA_NATE" "OTHER" "";
    mkDict "DATA" "GROUP" "GEOL" "" "" "LOCA";
    mkDict "DATA" "HEADING" "GEOL" "LOCA_ID" "KEY+REQUIRED" "";
    mkDict "DATA" "HEADING" "GEOL" "GEOL_TOP" "KEY+REQUIRED" "" ].

Definition LOCA_headings : list string := ["HEADING"; "LOCA_ID"; "LOCA_NATE"].
Definition GEOL_headings : list string := ["HEADING"; "LOCA_ID"; "GEOL_TOP"].

Definition LOCA_table : DataFrame :=
  mkDF [0; 1; 2]%Z
    (Frame.mk LOCA_headings
       [ ["UNIT"; ""; "m"]; ["TYPE"; "ID"; "2DP"]; ["DATA"; "BH01"; "100000.01"] ]).

(** A GEOL table whose second DATA row names a location that LOCA does
    not have. *)
Definition GEOL_table : DataFrame :=
  mkDF [0; 1; 2; 3]%Z
    (Frame.mk GEOL_headings
       [ ["UNIT"; ""; "m"]; ["TYPE"; "ID"; "2DP"];
         ["DATA"; "BH01"; "0.00"]; ["DATA"; "BH02"; "0.00"] ]).

Definition parsed (tables : list (string * DataFrame)) : State :=
  mkState tables (map (fun kd => (fst kd, Frame.columns (data (snd kd)))) tables)
    [] [] [].

Definition file_with_orphan : State :=
  parsed [("LOCA", LOCA_table); ("GEOL", GEOL_table)].

Ltac in_cases H :=
  repeat (destruct H as [H|H]; [injection H as <- <-|]); try contradiction.

(** C1 on the input of scenario D: one GEOL row has no LOCA row.  The
    record of the orphan is there, under Rule 10a; Rule 10c has none. *)
Lemma rule_10c_scenario_D :
  records_of (ags_errors (fst (rule_10c std_dictionary file_with_orphan))) "Rule 10a"
  = [Err.mk Dash "GEOL" "Parent entry for line not found in LOCA: BH02"]
  /\ records_of (ags_errors (fst (rule_10c std_dictionary file_with_orphan))) "Rule 10c"
     = [].
Proof.
  assert (Hnd : NoDup (map fst (tables file_with_orphan))).
  { repeat constructor; simpl; intuition discriminate. }
  assert (Hwf : index_matches file_with_orphan).
  { intros key df H. simpl in H. in_cases H; split; reflexivity. }
  assert (Hres : forall group df, In (group, df) (tables file_with_orphan) ->
            PyStr.mem group root_groups = false ->
            resolvable std_dictionary file_with_orphan group (data df)).
  { intros group df H Hroot. simpl in H. in_cases H; [discriminate Hroot|].
    exists "LOCA", LOCA_table. repeat split; try reflexivity; try discriminate.
    repeat constructor; simpl; intuition discriminate. }
  destruct (@rule_10c_records_orphans_under_10a std_dictionary
              file_with_orphan Hnd Hwf Hres) as (_ & Ha & Hc).
  split; [exact Ha | exact Hc].
Defined.

(** Scenario E: the standard dictionary first, then a file that tags the
    same heading differently. *)
Definition standard_LOCA_ID : DictRow :=
  mkDict "DATA" "HEADING" "LOCA" "LOCA_ID" "KEY+REQUIRED" "".
Definition other_LOCA_ID : DictRow :=
  mkDict "DATA" "HEADING" "LOCA" "LOCA_ID" "OTHER" "".
Definition source_A : InputFile := mkFile "Standard_dictionary.ags" (Some [standard_LOCA_ID]).
Definition source_B : InputFile := mkFile "input.ags" (Some [other_LOCA_ID]).
Definition no_state : State := mkState [] [] [] [] [].

Lemma merged_scenario_E : merged_first_wins [source_A; source_B] [standard_LOCA_ID].
Proof.
  exact (@merged_dictionary_first_wins [source_A; source_B] no_state
           [standard_LOCA_ID] eq_refl).
Defined.

(** C2 as stated fails: a row of another DICT_TYPE for the same group and
    heading is not a duplicate for the merger, and both rows are kept. *)
Definition group_typed_LOCA_ID : DictRow :=
  mkDict "DATA" "GROUP" "LOCA" "LOCA_ID" "" "".
Definition source_C : InputFile := mkFile "input.ags" (Some [group_typed_LOCA_ID]).

Lemma merged_keeps_two_rows_for_one_heading :
  snd (combine_DICT_tables [source_A; source_C] no_state)
  = Ok [standard_LOCA_ID; group_typed_LOCA_ID]
  /\ DICT_GRP standard_LOCA_ID = DICT_GRP group_typed_LOCA_ID
  /\ DICT_HDNG standard_LOCA_ID = DICT_HDNG group_typed_LOCA_ID
  /\ standard_LOCA_ID <> group_typed_LOCA_ID.
Proof. repeat split. discriminate. Qed.

(** Scenario C: two DATA rows of LOCA with the same key value. *)
Definition LOCA_repeated : DataFrame :=
  mkDF [0; 1; 2; 3]%Z
    (Frame.mk LOCA_headings
       [ ["UNIT"; ""; "m"]; ["TYPE"; "ID"; "2DP"];
         ["DATA"; "BH01"; "100000.01"]; ["DATA"; "BH01"; "100020.55"] ]).

Lemma rule_10a_scenario_C :
  rule_10a std_dictionary (parsed [("LOCA", LOCA_repeated)])
  = (with_errors (parsed [("LOCA", LOCA_repeated)])
       [("Rule 10a",
         [Err.mk Dash "LOCA" "Duplicate key field combination: DATA|BH01";
          Err.mk Dash "LOCA" "Duplicate key field combination: DATA|BH01"])],
     Ok tt).
Proof.
  assert (Hnd : NoDup (map fst (tables (parsed [("LOCA", LOCA_repeated)])))).
  { repeat constructor; simpl; intuition discriminate. }
  assert (Hwf : index_matches (parsed [("LOCA", LOCA_repeated)])).
  { intros key df H. simpl in H. in_cases H; split; reflexivity. }
  destruct (@rule_10a_key_uniqueness std_dictionary
              (parsed [("LOCA", LOCA_repeated)]) Hnd Hwf) as (H & _).
  exact H.
Defined.

(** C3 as stated fails: a table with its UNIT row twice and one DATA row.
    No DATA row shares its tuple, and the rule records two rows. *)
Definition LOCA_two_units : DataFrame :=
  mkDF [0; 1; 2; 3]%Z
    (Frame.mk LOCA_headings
       [ ["UNIT"; ""; "m"]; ["UNIT"; ""; "m"]; ["TYPE"; "ID"; "2DP"];
         ["DATA"; "BH01"; "100000.01"] ]).

Lemma rule_10a_marks_rows_that_are_not_DATA :
  Frame.rows_of (data LOCA_two_units) "DATA" = Some [["DATA"; "BH01"; "100000.01"]]
  /\ ags_errors (fst (rule_10a std_dictionary (parsed [("LOCA", LOCA_two_units)])))
     = [("Rule 10a",
         [Err.mk Dash "LOCA" "Duplicate key field combination: UNIT|";
          Err.mk Dash "LOCA" "Duplicate key field combination: UNIT|"])].
Proof. split; reflexivity. Qed.

(** Scenario B: a heading row of three columns, a DATA row of two
    fields. *)
Definition short_DATA_line : string :=
  PyStr.quoted "DATA" ++ "," ++ PyStr.quoted "BH01" ++ CRLF.

Lemma rule_4b_scenario_B :
  rule_4b short_DATA_line 5 "LOCA" LOCA_headings []
  = [("Rule 4b",
      [Err.mk (Line 5) "LOCA" "Number of fields does not match the HEADING row."])].
Proof.
  destruct (@rule_4b_field_count short_DATA_line 5 "LOCA" LOCA_headings []
              eq_refl) as (H & _).
  exact (H ltac:(discriminate)).
Defined.

(** A heading index in which GEOL has its two headings the other way
    round. *)
Definition swapped_headings : State :=
  mkState [] [("LOCA", LOCA_headings); ("GEOL", ["HEADING"; "GEOL_TOP"; "LOCA_ID"])]
    [] [] [].

Lemma rule_7_on_swapped_headings :
  rule_7 std_dictionary swapped_headings
  = (with_errors swapped_headings
       [("Rule 7", [Err.mk Dash "GEOL" (message_7_order "GEOL")])],
     Ok tt).
Proof.
  assert (Hnd : NoDup (map fst (headings swapped_headings))).
  { repeat constructor; simpl; intuition discriminate. }
  exact (@rule_7_heading_order std_dictionary swapped_headings Hnd).
Defined.

(** A HEADING line with a good heading, one with a long field name, and
    one of four characters without an underscore. *)
Definition HEADING_line : string :=
  PyStr.quoted "HEADING" ++ "," ++ PyStr.quoted "LOCA_ID" ++ ","
  ++ PyStr.quoted "LOCA_NATEX" ++ "," ++ PyStr.quoted "LOCA" ++ CRLF.

Lemma rule_19b_on_HEADING_line :
  rule_19b HEADING_line 2 "LOCA" []
  = [("Rule 19b",
      [Err.mk (Line 2) "LOCA" (message_19b "LOCA_NATEX");
       Err.mk (Line 2) "LOCA" (message_19b_no_underscore "LOCA")])].
Proof.
  destruct (@rule_19b_namespacing HEADING_line 2 "LOCA" [] eq_refl) as (H & _).
  exact H.
Defined.

(** C6 as stated fails: what follows the first underscore has seven
    characters, and the rule records nothing, for it measures the piece
    up to the second underscore. *)
Definition two_underscores_line : string :=
  PyStr.quoted "HEADING" ++ "," ++ PyStr.quoted "LOCA_A_BCDEF" ++ CRLF.

Lemma rule_19b_passes_long_suffix :
  field_at 0 (fields two_underscores_line) = "HEADING"
  /\ tl (fields two_underscores_line) = ["LOCA_A_BCDEF"]
  /\ before_underscore "LOCA_A_BCDEF" = "LOCA"
  /\ after_underscore "LOCA_A_BCDEF" = Some "A_BCDEF"
  /\ String.length "A_BCDEF" = 7
  /\ rule_19b two_underscores_line 2 "LOCA" [] = [].
Proof. repeat split. Qed.

(** C8 as stated fails: a table whose rows are labelled 5, 6, 7 has
    them labelled 0, 1, 2 after [rule_2b]. *)
Definition LOCA_filtered : DataFrame :=
  mkDF [5; 6; 7]%Z (data LOCA_table).

Lemma rule_2b_renumbers_rows :
  map (fun kd => index (snd kd)) (tables (parsed [("LOCA", LOCA_filtered)]))
  = [[5; 6; 7]%Z]
  /\ map (fun kd => index (snd kd))
       (tables (fst (rule_2b (parsed [("LOCA", LOCA_filtered)]))))
     = [[0; 1; 2]%Z]
  /\ tables (fst (rule_2b (parsed [("LOCA", LOCA_filtered)])))
     <> tables (parsed [("LOCA", LOCA_filtered)]).
Proof. repeat split. discriminate. Qed.

(** Scenario A: a heading row that names a column twice. *)
Example rule_2c_scenario_A :
  rule_2c (PyStr.quoted "HEADING" ++ "," ++ PyStr.quoted "LOCA_ID" ++ ","
           ++ PyStr.quoted "LOCA_ID" ++ CRLF) 2 []
  = [("Rule 2c", [Err.mk (Line 2) "" "HEADER row has duplicate fields."])].
Proof. reflexivity. Qed.

(** A whole run on the file with the orphan: every group rule, in the
    order of the source, with sets iterated in order of first
    occurrence. *)
Definition first_seen (l : list string) : list string := nodup string_dec l.
Definition first_seen_both (a b : list string) : list string :=
  filter (fun x => PyStr.mem x b) (nodup string_dec a).

Definition all_group_rules : list Call :=
  map Group_rule
    [Rule_2; Rule_2b; Rule_7; Rule_9; Rule_10a; Rule_10b; Rule_10c; Rule_12;
     Rule_13; Rule_14; Rule_15; Rule_16; Rule_17; Rule_18; Rule_19c].

Example run_on_file_with_orphan :
  let run := check_run first_seen first_seen_both std_dictionary all_group_rules
               file_with_orphan in
  snd run = Ok tt
  /\ map fst (ags_errors (fst run))
     = ["Rule 10a"; "Rule 13"; "Rule 14"; "Rule 15"; "Rule 17"]
  /\ records_of (ags_errors (fst run)) "Rule 10a"
     = [Err.mk Dash "GEOL" "Parent entry for line not found in LOCA: BH02"]
  /\ records_of (ags_errors (fst run)) "Rule 15"
     = [Err.mk Dash "UNIT" "UNIT table not found."].
Proof. vm_compute. repeat split. Qed.

(** The merger on files without a DICT table, and on the standard
    dictionary. *)
Lemma merger_on_concrete_files :
  bind (combine_DICT_tables [mkFile "input.ags" None]) rule_7 no_state
  = (printing no_state
       (["[yellow]  WARNING:There is no DICT table in input.ags.[/yellow]"]
        ++ no_dictionary_messages),
     Raise SystemExit)
  /\ combine_DICT_tables [source_A; source_B] no_state
     = (no_state, Ok [standard_LOCA_ID]).
Proof.
  split.
  - exact (proj1 (@merger_exits_without_dictionary [mkFile "input.ags" None]
                    no_state unit rule_7) eq_refl).
  - exact (proj2 (@merger_exits_without_dictionary [source_A; source_B]
                    no_state unit rule_7) ltac:(discriminate)).
Defined.

(** The default log is shared between calls: two calls of [rule_1] that
    pass no log leave two records in it, where a call that passes a fresh
    log returns one record and leaves the default alone.  A check run
    passes its own fresh log to every rule. *)
Example default_log_is_shared :
  let line := String (ascii_of_nat 233) "" in
  let first := call_rule (rule_1 line 1) [] None in
  let second := call_rule (rule_1 line 1) (snd first) None in
  records_of (fst second) "Rule 1"
  = [Err.mk (Line 1) "" "Has Non-ASCII character(s).";
     Err.mk (Line 1) "" "Has Non-ASCII character(s)."]
  /\ call_rule (rule_1 line 1) (snd first) (Some [])
     = ([("Rule 1", [Err.mk (Line 1) "" "Has Non-ASCII character(s)."])],
        snd first).
Proof. split; reflexivity. Qed.

(** * More of the checker *)

(** ** Under which rules a validator writes *)

(** The lists of the rules outside [allowed] are the same in both logs:
    the same records, and no list where there was none. *)
Definition untouched (allowed : list string) (a b : ErrorLog) : Prop :=
  forall rule, ~ In rule allowed -> log_get b rule = log_get a rule.

Lemma untouched_refl allowed a : untouched allowed a a.
Proof. intros rule _. reflexivity. Qed.

Lemma untouched_trans allowed a b c :
  untouched allowed a b -> untouched allowed b c -> untouched allowed a c.
Proof. intros H1 H2 rule Hr. now rewrite H2, H1. Qed.

Lemma untouched_add allowed log rule line group desc :
  In rule allowed ->
  untouched allowed log (add_error_msg log rule line group desc).
Proof.
  intros Hin rule' Hout. apply add_error_msg_other. congruence.
Qed.

Lemma untouched_fold allowed (X : Type) (f : ErrorLog -> X -> ErrorLog) :
  (forall l x, untouched allowed l (f l x)) ->
  forall xs l, untouched allowed l (fold_left f xs l).
Proof.
  intros Hf. induction xs as [|x xs IH]; simpl; intros l.
  - apply untouched_refl.
  - eapply untouched_trans; [apply Hf | apply IH].
Qed.

Ltac untouched_tac :=
  repeat match goal with
    | |- untouched _ ?a ?a => apply untouched_refl
    | |- untouched _ _ (add_error_msg _ _ _ _ _) =>
        apply untouched_add; simpl; tauto
    | |- untouched _ _ (fold_left _ _ _) => apply untouched_fold; intros
    | |- untouched _ _ (if ?b then _ else _) => destruct b
    | |- untouched _ _ (match ?x with _ => _ end) => destruct x
    | |- _ => progress cbv zeta
    end.

(** The rule name that a line rule passes to [add_error_msg]. *)
Definition line_rule_name (c : LineCall) : string :=
  match c with
  | Rule_1 _ _ => "Rule 1"
  | Rule_2a _ _ => "Rule 2a"
  | Rule_2c _ _ => "Rule 2c"
  | Rule_3 _ _ => "Rule 3"
  | Rule_4a _ _ => "Rule 4a"
  | Rule_4b _ _ _ _ => "Rule 4b"
  | Rule_5 _ _ => "Rule 5"
  | Rule_6 _ _ => "Rule 6"
  | Rule_19 _ _ => "Rule 19"
  | Rule_19a _ _ _ => "Rule 19a"
  | Rule_19b _ _ _ => "Rule 19b"
  end.

Lemma line_rule_untouched c log :
  untouched [line_rule_name c] log (line_rule c log).
Proof.
  destruct c; simpl;
    unfold rule_1, rule_2a, rule_2c, rule_3, rule_4a, rule_4b, rule_5, rule_6,
      rule_19, rule_19a, rule_19b, rule_19b_item;
    untouched_tac.
Qed.

(** The names under which a group rule calls [add_error_msg]. *)
Definition writes_under (r : GroupRule) : list string :=
  match r with
  | Rule_2 => ["Rule 2"]
  | Rule_2b => ["Rule 2b"]
  | Rule_7 => ["Rule 7"]
  | Rule_9 => ["Rule 9"]
  | Rule_10a => ["Rule 10a"]
  | Rule_10b => ["Rule 10b"]
  | Rule_10c => ["Rule 10c"; "Rule 10a"]
  | Rule_12 => []
  | Rule_13 => ["Rule 13"]
  | Rule_14 => ["Rule 14"]
  | Rule_15 => ["Rule 15"]
  | Rule_16 => ["Rule 16"]
  | Rule_17 => ["Rule 17"]
  | Rule_18 => ["Rule 18"]
  | Rule_19c => ["Rule 19b"]
  end.

Definition outside (allowed : list string) (s s' : State) : Prop :=
  untouched allowed (ags_errors s) (ags_errors s').

Lemma outside_refl allowed s : outside allowed s s.
Proof. apply untouched_refl. Qed.

Lemma outside_trans allowed a b c :
  outside allowed a b -> outside allowed b c -> outside allowed a c.
Proof. apply untouched_trans. Qed.

Lemma outside_copies allowed s c : outside allowed s (with_copies s c).
Proof. apply untouched_refl. Qed.

Lemma outside_reset allowed key s :
  outside allowed s (fst (table_reset_index key s)).
Proof.
  unfold outside, table_reset_index. destruct (assoc key (tables s));
    apply untouched_refl.
Qed.

Lemma outside_record allowed rule line group desc :
  In rule allowed -> steps (outside allowed) (record rule line group desc).
Proof. intros Hin s. now apply untouched_add. Qed.

(** A walk through the body of a rule for a relation [Q] that the
    combinators keep; [rec] is what settles a call of [record]. *)
Ltac walk Q Hr Ht Hc rec :=
  repeat (intros;
    match goal with
    | |- steps _ (bind (table_copy _) _) => apply (@steps_bind_copy Q Hr Ht Hc)
    | |- steps _ (bind _ _) => apply (@steps_bind Q Ht)
    | |- steps _ (in_frame _) => apply (@steps_in_frame Q Ht Hc)
    | |- steps _ (ret _) => apply (@steps_ret Q Hr)
    | |- steps _ (raise _) => apply (@steps_raise Q Hr)
    | |- steps _ (lift _ _) => apply (@steps_lift Q Hr)
    | |- steps _ (when _ _) => apply (@steps_when Q Hr)
    | |- steps _ (try_except _ _) => apply (@steps_try Q Ht)
    | |- steps _ (for_each _ _) => apply (@steps_for_each Q Hr Ht)
    | |- steps _ (for_fold _ _ _) => apply (@steps_for_fold Q Hr Ht)
    | |- steps _ (for_until _ _) => apply (@steps_for_until Q Hr Ht)
    | |- steps _ (for_map _ _) => apply (@steps_for_map Q Hr Ht)
    | |- steps _ table_keys => apply (@steps_table_keys Q Hr)
    | |- steps _ heading_keys => apply (@steps_heading_keys Q Hr)
    | |- steps _ errors => apply (@steps_errors Q Hr)
    | |- steps _ (table _) => apply (@steps_table Q Hr)
    | |- steps _ (read _) => apply (@steps_read Q Hr)
    | |- steps _ (assign_column (Copy _) _ _) =>
        apply (@steps_assign_copy Q Hr Hc)
    | |- steps _ (heading_list _) => apply (@steps_heading_list Q Hr)
    | |- steps _ (table_loc _ _ _) => apply (@steps_table_loc Q Hr)
    | |- steps _ (split_by _ _) => apply (@steps_split_by Q Hr)
    | |- steps _ (orphan_rows _ _ _) => apply (@steps_orphan_rows Q Hr Ht)
    | |- steps _ (type_of _ _) => apply (@steps_type_of Q Hr Ht)
    | |- steps _ (data_row_count _) => apply (@steps_data_row_count Q Hr Ht)
    | |- steps _ (record _ _ _ _) => rec
    | |- steps _ (if ?b then _ else _) => destruct b
    | |- Forall _ _ => constructor
    | |- _ => progress (cbv zeta; simpl snd)
    end).

Lemma group_rule_outside so sio dictionary r :
  steps (outside (writes_under r)) (group_rule so sio dictionary r).
Proof.
  destruct r; simpl writes_under; simpl group_rule;
    unfold rule_2, rule_2b, rule_2_check, rule_2b_check, rule_7, rule_9,
      rule_10a, rule_10b, rule_10c, rule_10c_group, rule_12, rule_13, rule_14,
      rule_15, rule_16, rule_17, rule_18, rule_19c;
    match goal with
    | |- steps (outside ?a) _ =>
        walk (outside a) (@outside_refl a) (@outside_trans a)
          (@outside_copies a)
          ltac:(apply outside_record; simpl; tauto)
    end;
    try (apply steps_table_reset_index; intros; apply outside_reset).
Qed.

(** X1.  A line rule writes under its own name only: whatever the line,
    the list of every other rule is after the call what it was before,
    and a rule that had no list has none. *)
Theorem line_rule_writes_under_its_name (c : LineCall) log rule :
  rule <> line_rule_name c ->
  log_get (line_rule c log) rule = log_get log rule.
Proof.
  intros H. apply (line_rule_untouched c log). simpl. intros [Heq|[]].
  congruence.
Qed.

(** X2.  A group rule, whether it returns or raises, writes only under
    the names of [writes_under]: its own, but for [rule_10c], which also
    writes under Rule 10a, [rule_19c], which writes under Rule 19b, and
    [rule_12], which writes nothing. *)
Theorem group_rule_writes_under_its_names so sio dictionary (r : GroupRule) s rule :
  ~ In rule (writes_under r) ->
  log_get (ags_errors (fst (group_rule so sio dictionary r s))) rule
  = log_get (ags_errors s) rule.
Proof. intros H. now apply (group_rule_outside so sio dictionary r s). Qed.

(** ** What a group rule can raise *)

(** Every raise of [m] is of a class in [E]. *)
Definition throws (E : list Exn) (A : Type) (m : M A) : Prop :=
  forall s e, snd (m s) = Raise e -> In e E.

Lemma throws_ret E (A : Type) (a : A) : throws E (ret a).
Proof. intros s e H. discriminate H. Qed.

Lemma throws_raise E (A : Type) (e : Exn) : In e E -> throws E (@raise A e).
Proof. intros Hin s e' H. injection H as <-. exact Hin. Qed.

Lemma throws_bind E (A B : Type) (m : M A) (k : A -> M B) :
  throws E m -> (forall a, throws E (k a)) -> throws E (bind m k).
Proof.
  intros Hm Hk s e. unfold bind. specialize (Hm s).
  destruct (m s) as [s' [a|e']]; simpl in *.
  - apply Hk.
  - intros H. injection H as <-. now apply Hm.
Qed.

Lemma handler_for_in (A : Type) e (clauses : list (Exn * M A)) :
  In e (map fst clauses) ->
  exists h, handler_for e clauses = Some h /\ In h (map snd clauses).
Proof.
  induction clauses as [|[e' h'] rest IH]; simpl; intros Hin; [contradiction|].
  destruct (exn_eqb e e') eqn:E.
  - exists h'. split; [reflexivity | now left].
  - destruct Hin as [->|Hin]; [now destruct e|].
    destruct (IH Hin) as (h & H1 & H2). exists h. split; [exact H1 | now right].
Qed.

Lemma handler_for_some (A : Type) e (clauses : list (Exn * M A)) h :
  handler_for e clauses = Some h -> In h (map snd clauses).
Proof.
  induction clauses as [|[e' h'] rest IH]; simpl; [discriminate|].
  destruct (exn_eqb e e'); [intros H; injection H as <-; now left|].
  intros H. right. now apply IH.
Qed.

(** A [try]: what the body raises is caught by a clause or gets out. *)
Lemma throws_try E (A : Type) (m : M A) (clauses : list (Exn * M A)) :
  throws (map fst clauses ++ E)%list m ->
  Forall (fun c => throws E (snd c)) clauses ->
  throws E (try_except m clauses).
Proof.
  intros Hm Hc s e. unfold try_except. specialize (Hm s).
  destruct (m s) as [s' [a|e']]; simpl in *; [discriminate|].
  destruct (handler_for e' clauses) as [h|] eqn:Eh.
  - apply handler_for_some in Eh. apply in_map_iff in Eh as ([e0 h0] & <- & Hin).
    rewrite Forall_forall in Hc. apply (Hc _ Hin).
  - intros H. injection H as <-.
    destruct (in_app_or _ _ _ (Hm e' eq_refl)) as [Hin|Hin]; [|exact Hin].
    apply handler_for_in in Hin as (h & Hh & _). congruence.
Qed.

Lemma throws_for_each E (X : Type) (xs : list X) (body : X -> M unit) :
  (forall x, throws E (body x)) -> throws E (for_each xs body).
Proof.
  intros H. induction xs; simpl; [apply throws_ret|].
  apply throws_bind; auto.
Qed.

Lemma throws_for_fold E (X S : Type) (body : X -> S -> M S) :
  (forall x i, throws E (body x i)) ->
  forall xs init, throws E (for_fold xs init body).
Proof.
  intros H. induction xs; simpl; intros init; [apply throws_ret|].
  apply throws_bind; auto.
Qed.

Lemma throws_for_until E (X : Type) (xs : list X) (body : X -> M bool) :
  (forall x, throws E (body x)) -> throws E (for_until xs body).
Proof.
  intros H. induction xs; simpl; [apply throws_ret|].
  apply throws_bind; [auto|]. intros [|]; [apply throws_ret | assumption].
Qed.

Lemma throws_for_map E (X Y : Type) (xs : list X) (body : X -> M Y) :
  (forall x, throws E (body x)) -> throws E (for_map xs body).
Proof.
  intros H. induction xs; simpl; [apply throws_ret|].
  apply throws_bind; [auto|]. intros y. apply throws_bind; [auto|].
  intros ys. apply throws_ret.
Qed.

Lemma throws_lift E (A : Type) (e : Exn) (o : option A) :
  In e E -> throws E (lift e o).
Proof. intros H. destruct o; [apply throws_ret | now apply throws_raise]. Qed.

Lemma throws_when E (b : bool) (m : M unit) : throws E m -> throws E (when b m).
Proof. destruct b; simpl; auto using throws_ret. Qed.

Lemma throws_in_frame E (A : Type) (m : M A) : throws E m -> throws E (in_frame m).
Proof.
  intros Hm s e. unfold in_frame. specialize (Hm (with_copies s [])).
  destruct (m (with_copies s [])) as [s' r]. simpl in *. apply Hm.
Qed.

(** The primitives that never raise. *)
Lemma throws_table_keys E : throws E table_keys.
Proof. intros s e H. discriminate H. Qed.

Lemma throws_heading_keys E : throws E heading_keys.
Proof. intros s e H. discriminate H. Qed.

Lemma throws_errors E : throws E errors.
Proof. intros s e H. discriminate H. Qed.

Lemma throws_record E rule line group desc : throws E (record rule line group desc).
Proof. intros s e H. discriminate H. Qed.

(** The lookups: a missing key is a [KeyError]. *)
Lemma throws_table E key : In KeyError E -> throws E (table key).
Proof.
  intros Hin s e. unfold table. destruct (assoc key (tables s)); simpl;
    [discriminate|]. intros H. now injection H as <-.
Qed.

Lemma throws_table_copy E key : In KeyError E -> throws E (table_copy key).
Proof.
  intros Hin s e. unfold table_copy. destruct (assoc key (tables s)); simpl;
    [discriminate|]. intros H. now injection H as <-.
Qed.

Lemma throws_read E r : In KeyError E -> throws E (read r).
Proof.
  intros Hin. destruct r as [key|n]; simpl; [now apply throws_table|].
  intros s e. destruct (nth_error (copies s) n); simpl; [discriminate|].
  intros H. now injection H as <-.
Qed.

Lemma throws_assign_column E r c v : In KeyError E -> throws E (assign_column r c v).
Proof.
  intros Hin. destruct r as [key|n]; simpl; intros s e.
  - destruct (assoc key (tables s)); simpl; [discriminate|].
    intros H. now injection H as <-.
  - destruct (nth_error (copies s) n); simpl; [discriminate|].
    intros H. now injection H as <-.
Qed.

Lemma throws_heading_list E key : In KeyError E -> throws E (heading_list key).
Proof.
  intros Hin s e. unfold heading_list. destruct (assoc key (headings s)); simpl;
    [discriminate|]. intros H. now injection H as <-.
Qed.

Lemma throws_table_reset_index E key : In KeyError E -> throws E (table_reset_index key).
Proof.
  intros Hin s e. unfold table_reset_index. destruct (assoc key (tables s)); simpl;
    [discriminate|]. intros H. now injection H as <-.
Qed.

Lemma throws_table_loc E key label c : In KeyError E -> throws E (table_loc key label c).
Proof.
  intros Hin s e. unfold table_loc.
  destruct (assoc key (tables s)) as [df|]; [destruct (loc df label c)|]; simpl;
    try discriminate; intros H; now injection H as <-.
Qed.

Lemma throws_split_by E c e : In ValueError E -> throws E (split_by c e).
Proof.
  intros Hin. unfold split_by.
  destruct (c =? ""); [now apply throws_raise | apply throws_ret].
Qed.

Ltac throws_tac :=
  repeat (intros;
    match goal with
    | |- throws _ (bind _ _) => apply throws_bind
    | |- throws _ (in_frame _) => apply throws_in_frame
    | |- throws _ (ret _) => apply throws_ret
    | |- throws _ (raise _) => apply throws_raise
    | |- throws _ (lift _ _) => apply throws_lift
    | |- throws _ (when _ _) => apply throws_when
    | |- throws _ (try_except _ _) => apply throws_try
    | |- throws _ (for_each _ _) => apply throws_for_each
    | |- throws _ (for_fold _ _ _) => apply throws_for_fold
    | |- throws _ (for_until _ _) => apply throws_for_until
    | |- throws _ (for_map _ _) => apply throws_for_map
    | |- throws _ table_keys => apply throws_table_keys
    | |- throws _ heading_keys => apply throws_heading_keys
    | |- throws _ errors => apply throws_errors
    | |- throws _ (record _ _ _ _) => apply throws_record
    | |- throws _ (table _) => apply throws_table
    | |- throws _ (table_copy _) => apply throws_table_copy
    | |- throws _ (read _) => apply throws_read
    | |- throws _ (assign_column _ _ _) => apply throws_assign_column
    | |- throws _ (heading_list _) => apply throws_heading_list
    | |- throws _ (table_reset_index _) => apply throws_table_reset_index
    | |- throws _ (table_loc _ _ _) => apply throws_table_loc
    | |- throws _ (split_by _ _) => apply throws_split_by
    | |- throws _ (if ?b then _ else _) => destruct b
    | |- Forall _ _ => constructor
    | |- In _ _ => simpl; tauto
    | |- _ => progress (cbv zeta; simpl snd; simpl map; simpl app)
    end).

(** The rules whose lookups can fail. *)
Lemma throws_rule_2 : throws [KeyError] rule_2.
Proof. unfold rule_2, rule_2_check. throws_tac. Qed.

Lemma throws_rule_2b : throws [KeyError] rule_2b.
Proof. unfold rule_2b, rule_2b_check. throws_tac. Qed.

Lemma throws_rule_10a dictionary : throws [KeyError] (rule_10a dictionary).
Proof. unfold rule_10a. throws_tac. Qed.

Lemma throws_rule_10b sio dictionary : throws [KeyError] (rule_10b sio dictionary).
Proof. unfold rule_10b. throws_tac. Qed.

Lemma throws_rule_13 : throws [KeyError] rule_13.
Proof. unfold rule_13, data_row_count. throws_tac. Qed.

Lemma throws_rule_14 : throws [KeyError] rule_14.
Proof. unfold rule_14, data_row_count. throws_tac. Qed.

Lemma throws_rule_10c dictionary : throws [ValueError] (rule_10c dictionary).
Proof. unfold rule_10c, rule_10c_group, orphan_rows. throws_tac. Qed.

Lemma throws_rule_16 so dictionary :
  throws [KeyError; IndexError; ValueError] (rule_16 so dictionary).
Proof. unfold rule_16, type_of. throws_tac. Qed.

(** The rules that catch what their lookups raise. *)
Lemma throws_rule_15 so : throws [] (rule_15 so).
Proof. unfold rule_15. throws_tac. Qed.

Lemma throws_rule_17 so dictionary : throws [] (rule_17 so dictionary).
Proof. unfold rule_17. throws_tac. Qed.

Lemma throws_rule_18 : throws [] rule_18.
Proof. unfold rule_18. throws_tac. Qed.

(** The rules that loop over the heading index look up the groups that
    the index holds: the lookups find them. *)
Lemma assoc_of_key (A : Type) (k : string) (l : list (string * A)) :
  In k (map fst l) -> exists v, assoc k l = Some v.
Proof.
  induction l as [|[k' v'] l IH]; simpl; intros H; [contradiction|].
  destruct (String.eqb_spec k' k) as [->|Hne]; [now exists v'|].
  destruct H as [H|H]; [congruence | now apply IH].
Qed.

Lemma keeps_tables_copies s c : keeps_tables s (with_copies s c).
Proof. now repeat split. Qed.

Lemma heading_loop_throws E (rest : string -> list string -> M unit) :
  (forall key h, throws E (rest key h)) ->
  (forall key h, steps keeps_tables (rest key h)) ->
  throws E
    (keys <- heading_keys ;;
     for_each keys (fun key => h <- heading_list key ;; rest key h)).
Proof.
  intros Ht Hk s e. unfold bind at 1, heading_keys.
  assert (H : forall keys s0,
             headings s0 = headings s ->
             (forall k, In k keys -> In k (map fst (headings s))) ->
             snd (for_each keys (fun key => h <- heading_list key ;; rest key h) s0)
             = Raise e -> In e E).
  { induction keys as [|k keys IH]; intros s0 Hs0 Hin; [discriminate|].
    cbn [for_each]. unfold bind at 1 2, heading_list at 1. rewrite Hs0.
    destruct (assoc_of_key k (headings s) (Hin k (or_introl eq_refl))) as [h Hh].
    rewrite Hh. pose proof (Ht k h s0) as Hr. pose proof (Hk k h s0) as Hq.
    destruct (rest k h s0) as [s1 [[]|e1]]; simpl in *.
    - apply IH.
      + destruct Hq as (_ & Hq & _). congruence.
      + intros k' Hk'. apply Hin. now right.
    - intros H. injection H as <-. now apply Hr. }
  apply H; auto.
Qed.

Ltac keeps_tables_tac :=
  walk keeps_tables keeps_tables_refl keeps_tables_trans keeps_tables_copies
    ltac:(intros ?; apply keeps_tables_record).

Lemma throws_rule_7 dictionary : throws [] (rule_7 dictionary).
Proof.
  unfold rule_7. cbv zeta.
  apply (@heading_loop_throws []
           (fun key h =>
              if PyStr.issubset (tl h) (reference_headings dictionary key)
              then
                temp <- for_fold (reference_headings dictionary key)
                          (reference_headings dictionary key)
                          (fun item temp =>
                             if negb (PyStr.mem item h)
                             then lift ValueError (list_remove item temp)
                             else ret temp) ;;
                when (negb (Frame.list_eqb temp (tl h)))
                  (record "Rule 7" Dash key (message_7_order key))
              else record "Rule 7" Dash key message_7_unchecked)).
  - intros key h. destruct (PyStr.issubset _ _); [|apply throws_record].
    apply throws_bind; [|throws_tac].
    intros s e.
    assert (Hf := @remove_unused_is_filter h s
                    (reference_headings dictionary key) []).
    cbn [app] in Hf. rewrite Hf by (intros y []). discriminate.
  - intros key h. keeps_tables_tac.
Qed.

Lemma throws_rule_9 dictionary : throws [] (rule_9 dictionary).
Proof.
  unfold rule_9. cbv zeta.
  apply (@heading_loop_throws []
           (fun key h =>
              for_each (tl h) (fun item =>
                when (negb (PyStr.mem item (reference_headings dictionary key)))
                  (record "Rule 9" Dash key
                     (item ++ " not found in DICT table or the standard AGS4 dictionary."))))).
  - throws_tac.
  - intros key h. keeps_tables_tac.
Qed.

Lemma throws_rule_19c dictionary : throws [] (rule_19c dictionary).
Proof.
  unfold rule_19c.
  apply (@heading_loop_throws []
           (fun key h =>
              for_each (tl h) (fun heading =>
                try_except
                  (let temp := PyStr.split "_" heading in
                   t0 <- lift IndexError (nth_error temp 0) ;;
                   when (negb (t0 =? key)
                         && negb (PyStr.mem heading (map DICT_HDNG dictionary)))
                     (record "Rule 19b" Dash key
                        (heading
                         ++ " does not start with the name of this group, nor is it defined in another group.")))
                  [(IndexError, ret tt)]))).
  - throws_tac.
  - intros key h. keeps_tables_tac.
Qed.

(** The classes of exception that can get out of a group rule. *)
Definition may_raise (r : GroupRule) : list Exn :=
  match r with
  | Rule_2 | Rule_2b | Rule_10a | Rule_10b | Rule_13 | Rule_14 => [KeyError]
  | Rule_10c => [ValueError]
  | Rule_16 => [KeyError; IndexError; ValueError]
  | Rule_7 | Rule_9 | Rule_12 | Rule_15 | Rule_17 | Rule_18 | Rule_19c => []
  end.

Lemma group_rule_throws so sio dictionary r :
  throws (may_raise r) (group_rule so sio dictionary r).
Proof.
  destruct r; simpl;
    auto using throws_rule_2, throws_rule_2b, throws_rule_7, throws_rule_9,
      throws_rule_10a, throws_rule_10b, throws_rule_10c, throws_rule_13,
      throws_rule_14, throws_rule_15, throws_rule_16, throws_rule_17,
      throws_rule_18, throws_rule_19c.
  unfold rule_12. apply throws_ret.
Qed.

(** X3.  What gets out of a group rule.  On tables of strings, a raise
    that leaves a group rule is of a class of [may_raise]: a [KeyError]
    from [rule_2], [rule_2b], [rule_10a], [rule_10b], [rule_13] and
    [rule_14], a [ValueError] from [rule_10c], one of the three from
    [rule_16]; and [rule_7], [rule_9], [rule_12], [rule_15], [rule_17],
    [rule_18] and [rule_19c] return on every input.  No rule exits. *)
Theorem group_rule_raises_only so sio dictionary (r : GroupRule) s :
  (forall e, snd (group_rule so sio dictionary r s) = Raise e -> In e (may_raise r))
  /\ (may_raise r = [] -> snd (group_rule so sio dictionary r s) = Ok tt)
  /\ snd (group_rule so sio dictionary r s) <> Raise SystemExit.
Proof.
  pose proof (@group_rule_throws so sio dictionary r s) as H.
  split; [exact H|]. split.
  - intros Hnil. rewrite Hnil in H.
    destruct (snd (group_rule so sio dictionary r s)) as [[]|e];
      [reflexivity | destruct (H e eq_refl)].
  - intros Hx. apply H in Hx. destruct r; simpl in Hx;
      repeat (destruct Hx as [Hx|Hx]; try discriminate Hx); contradiction.
Qed.

(** ** The line rules, one call at a time *)








(** The end of a line. *)
Lemma last2_longer c (s : string) :
  2 <= String.length s -> PyStr.last2 (String c s) = PyStr.last2 s.
Proof.
  intros H. unfold PyStr.last2. cbn [String.length].
  replace (S (String.length s) - 2) with (S (String.length s - 2)) by lia.
  reflexivity.
Qed.

Lemma last2_ends (s : string) :
  PyStr.last2 s = CRLF <-> exists l, s = l ++ CRLF.
Proof.
  induction s as [|c s IH].
  - split; [discriminate|]. intros [[|c l] H]; discriminate H.
  - destruct (le_lt_dec 2 (String.length s)) as [Hlen|Hlen].
    + rewrite last2_longer by assumption. rewrite IH. split.
      * intros [l ->]. now exists (String c l).
      * intros [[|c' l] H].
        -- simpl in H. injection H as Hc Hs. subst s. simpl in Hlen. lia.
        -- simpl in H. injection H as Hc Hs. subst s. now exists l.
    + destruct s as [|c1 [|c2 s]]; try (simpl in Hlen; lia).
      * split; [discriminate|]. intros [[|c' [|c'' l]] H]; discriminate H.
      * split.
        -- intros H. exists "". exact H.
        -- intros [[|c' [|c'' [|c3 l]]] H]; try discriminate H; exact H.
Qed.

Lemma add_error_msg_changes log rule line group desc :
  add_error_msg log rule line group desc <> log.
Proof.
  intros H. pose proof (add_error_msg_size log rule line group desc) as Hs.
  rewrite H in Hs. lia.
Qed.

(** X5.  The line terminator.  [rule_2a] leaves the log as it is exactly
    when the line ends with a carriage return and a line feed; any other
    line, the empty line and a line of one character among them, gets one
    record under Rule 2a with the number of the line. *)
Theorem rule_2a_passes_crlf_only line line_number log :
  (rule_2a line line_number log = log <-> exists l, line = l ++ CRLF)
  /\ ((forall l, line <> l ++ CRLF) ->
      rule_2a line line_number log
      = add_error_msg log "Rule 2a" (Line line_number) ""
          "Is not terminated by <CR> and <LF> characters.").
Proof.
  unfold rule_2a. destruct (String.eqb_spec (PyStr.last2 line) CRLF) as [E|E];
    simpl.
  - apply last2_ends in E. split; [tauto|].
    intros H. destruct E as [l Hl]. now destruct (H l).
  - split; [|reflexivity]. split.
    + intros H. now apply add_error_msg_changes in H.
    + intros H. apply last2_ends in H. contradiction.
Qed.

(** The fields of a line and its set of fields. *)
Lemma nodup_length (l : list string) :
  List.length (nodup string_dec l) <= List.length l.
Proof.
  induction l as [|x l IH]; simpl; [lia|].
  destruct (in_dec string_dec x l); simpl; lia.
Qed.

Lemma len_set_full (l : list string) :
  (List.length l =? PyStr.len_set l)%nat = true <-> NoDup l.
Proof.
  unfold PyStr.len_set. rewrite Nat.eqb_eq. split.
  - induction l as [|x l IH]; simpl; [constructor|].
    destruct (in_dec string_dec x l) as [Hin|Hout]; simpl.
    + pose proof (nodup_length l). lia.
    + intros H. constructor; [assumption | apply IH; lia].
  - intros H. now rewrite nodup_fixed_point.
Qed.

(** X6.  Duplicate fields of a HEADING line.  On a line that, stripped of
    quotes, starts with HEADING, [rule_2c] appends its record exactly when
    two of the fields of the line, compared without their quotes, are the
    same; on any other line it appends nothing. *)
Theorem rule_2c_duplicate_fields line line_number log :
  (starts "HEADING" line = true ->
     (NoDup (fields line) -> rule_2c line line_number log = log)
     /\ (~ NoDup (fields line) ->
         rule_2c line line_number log
         = add_error_msg log "Rule 2c" (Line line_number) ""
             "HEADER row has duplicate fields."))
  /\ (starts "HEADING" line = false -> rule_2c line line_number log = log).
Proof.
  unfold rule_2c. split; intros ->; [|reflexivity]. cbv zeta.
  destruct (List.length (fields line) =? PyStr.len_set (fields line))%nat eqn:E;
    simpl.
  - apply len_set_full in E. split; [reflexivity | contradiction].
  - split; [|reflexivity]. intros H. apply len_set_full in H. congruence.
Qed.

(** Records appended for the items of a list that fail a test. *)
Lemma fold_left_filter (X : Type) (p : X -> bool) rule (mk : X -> Err.t) :
  forall xs log,
    fold_left (fun l x =>
      if p x
      then add_error_msg l rule (Err.line (mk x)) (Err.group (mk x)) (Err.desc (mk x))
      else l) xs log
    = add_all rule (map mk (filter p xs)) log.
Proof.
  induction xs as [|x xs IH]; intros log; [reflexivity|].
  simpl. rewrite IH. destruct (p x); reflexivity.
Qed.

Definition message_19a (item : string) : string :=
  "Heading " ++ item
  ++ " should be uppercase and limited to 9 character in length.".

(** The test of [rule_19a] on one heading: it has a lowercase letter or
    no uppercase letter, or more than nine characters. *)
Definition fails_19a (item : string) : bool :=
  negb (PyStr.isupper item) || (9 <? String.length item)%nat.

Lemma rule_19a_eq line line_number group log :
  starts "HEADING" line = true ->
  rule_19a line line_number group log
  = match tl (fields line) with
    | [] => add_error_msg log "Rule 19a" (Line line_number) group
              "Headings row does not seem to have any fields."
    | items =>
        add_all "Rule 19a"
          (map (fun item => Err.mk (Line line_number) group (message_19a item))
             (filter fails_19a items))
          log
    end.
Proof.
  intros Hd. unfold rule_19a. rewrite Hd. cbv zeta.
  destruct (fields line) as [|x [|y l]] eqn:E; try reflexivity.
  cbn [List.length Nat.leb tl].
  apply (@fold_left_filter string fails_19a "Rule 19a"
           (fun item => Err.mk (Line line_number) group (message_19a item))).
Qed.

(** X7.  The case of the headings.  On a line that, stripped of quotes,
    starts with HEADING, [rule_19a] appends, under Rule 19a and with the number of the
    line and the group, one record for each field after the first that is
    not uppercase or is longer than nine characters, in the order of the
    fields, and nothing for the others; when the line has no field after
    the first, it appends the one record that says so. *)
Theorem rule_19a_one_record_per_heading line line_number group log :
  starts "HEADING" line = true ->
  rule_19a line line_number group log
  = match tl (fields line) with
    | [] => add_error_msg log "Rule 19a" (Line line_number) group
              "Headings row does not seem to have any fields."
    | items =>
        add_all "Rule 19a"
          (map (fun item => Err.mk (Line line_number) group (message_19a item))
             (filter fails_19a items))
          log
    end.
Proof. apply rule_19a_eq. Qed.

(** ** The rules on the heading index *)

Lemma for_each_ext (X : Type) (f g : X -> M unit) :
  (forall x s, f x s = g x s) ->
  forall xs s, for_each xs f s = for_each xs g s.
Proof.
  intros H. induction xs as [|x xs IH]; intros s; [reflexivity|].
  cbn [for_each]. unfold bind. rewrite H.
  destruct (g x s) as [s' [[]|e]]; [apply IH | reflexivity].
Qed.

(** A loop that records the items of a list that fail a test. *)
Lemma for_each_filter (X : Type) (p : X -> bool) rule (mk : X -> Err.t) :
  forall xs s,
    for_each xs (fun x =>
      when (p x)
        (record rule (Err.line (mk x)) (Err.group (mk x)) (Err.desc (mk x)))) s
    = (with_errors s (add_all rule (map mk (filter p xs)) (ags_errors s)), Ok tt).
Proof.
  induction xs as [|x xs IH]; intros s.
  - simpl. now rewrite with_errors_same.
  - cbn [for_each filter]. unfold bind at 1.
    destruct (p x); cbn [when].
    + rewrite record_eq, IH. reflexivity.
    + unfold ret. apply IH.
Qed.

(** A loop over the groups of the heading index whose body, for a group
    and its headings, appends records under one rule. *)
Lemma heading_loop_records rule (recs : string -> list string -> list Err.t)
    (rest : string -> list string -> M unit) :
  (forall key h s,
     rest key h s
     = (with_errors s (add_all rule (recs key h) (ags_errors s)), Ok tt)) ->
  forall (es : list (string * list string)) s,
    (forall k h, In (k, h) es -> assoc k (headings s) = Some h) ->
    for_each (map fst es) (fun key => h <- heading_list key ;; rest key h) s
    = (with_errors s
         (add_all rule (flat_map (fun kh => recs (fst kh) (snd kh)) es)
            (ags_errors s)),
       Ok tt).
Proof.
  intros Hrest. induction es as [|[k h] es IH]; intros s Hs.
  - simpl. now rewrite with_errors_same.
  - cbn [map fst for_each flat_map snd]. unfold bind at 1 2, heading_list at 1.
    rewrite (Hs k h (or_introl eq_refl)), Hrest, IH.
    + rewrite add_all_app. reflexivity.
    + intros k' h' Hin. apply Hs. now right.
Qed.

Definition message_9 (item : string) : string :=
  item ++ " not found in DICT table or the standard AGS4 dictionary.".

(** What [rule_9] records for a group: the headings after the row-type
    column that are no heading of a dictionary row of the group. *)
Definition rule_9_records (dictionary : Dictionary) (key : string)
    (h : list string) : list Err.t :=
  map (fun item => Err.mk Dash key (message_9 item))
    (filter (fun item => negb (PyStr.mem item (reference_headings dictionary key)))
       (tl h)).

Lemma append_cancel_r (c : string) : forall a b, a ++ c = b ++ c -> a = b.
Proof.
  assert (Hlen : forall x y : string,
             String.length (x ++ y) = String.length x + String.length y).
  { induction x as [|ch x IH]; intros y; simpl; [reflexivity | now rewrite IH]. }
  induction a as [|x a IH]; intros [|y b] H; simpl in H.
  - reflexivity.
  - apply (f_equal String.length) in H. simpl in H. rewrite Hlen in H. lia.
  - apply (f_equal String.length) in H. simpl in H. rewrite Hlen in H. lia.
  - injection H as -> H. f_equal. now apply IH.
Qed.

Lemma rule_9_eq dictionary s :
  NoDup (map fst (headings s)) ->
  rule_9 dictionary s
  = (with_errors s
       (add_all "Rule 9"
          (flat_map (fun kh => rule_9_records dictionary (fst kh) (snd kh))
             (headings s))
          (ags_errors s)),
     Ok tt).
Proof.
  intros Hnd. unfold rule_9, bind at 1, heading_keys. cbv zeta.
  apply (@heading_loop_records "Rule 9" (rule_9_records dictionary)
           (fun key h =>
              for_each (tl h) (fun item =>
                when (negb (PyStr.mem item (reference_headings dictionary key)))
                  (record "Rule 9" Dash key (message_9 item))))).
  - intros key h s0.
    apply (@for_each_filter string
             (fun item => negb (PyStr.mem item (reference_headings dictionary key)))
             "Rule 9" (fun item => Err.mk Dash key (message_9 item))).
  - intros k h Hin. now apply assoc_in_nodup.
Qed.

(** X8.  Headings that the dictionary does not define.  For a heading
    index with one entry per group, [rule_9] returns, having appended
    under Rule 9, group after group and heading after heading, one record
    for each heading after the row-type column that is not a DICT_HDNG of
    a dictionary row of the group, and nothing else; a heading that occurs
    twice is recorded twice. *)
Theorem rule_9_undefined_headings dictionary s :
  NoDup (map fst (headings s)) ->
  rule_9 dictionary s
  = (with_errors s
       (add_all "Rule 9"
          (flat_map (fun kh => rule_9_records dictionary (fst kh) (snd kh))
             (headings s))
          (ags_errors s)),
     Ok tt)
  /\ (forall key h item,
        In (Err.mk Dash key (message_9 item)) (rule_9_records dictionary key h)
        <-> In item (tl h)
            /\ PyStr.mem item (reference_headings dictionary key) = false).
Proof.
  intros Hnd. split; [now apply rule_9_eq|].
  intros key h item. unfold rule_9_records. rewrite in_map_iff. split.
  - intros (i & Heq & Hi). apply filter_In in Hi as [Hi Hm].
    assert (Hmsg : message_9 i = message_9 item) by congruence.
    apply append_cancel_r in Hmsg. subst i.
    split; [exact Hi | now apply negb_true_iff].
  - intros [Hi Hm]. exists item. split; [reflexivity|].
    apply filter_In. split; [exact Hi | now rewrite Hm].
Qed.

Lemma records_of_fresh rule recs :
  records_of (add_all rule recs []) rule = recs.
Proof. now rewrite records_of_add_all_same. Qed.

Lemma issubset_false a b :
  PyStr.issubset a b = false <-> exists x, In x a /\ PyStr.mem x b = false.
Proof.
  unfold PyStr.issubset. induction a as [|y a IH]; simpl.
  - split; [discriminate | intros (x & [] & _)].
  - destruct (PyStr.mem y b) eqn:E; simpl.
    + rewrite IH. split.
      * intros (x & Hx & Hm). exists x. auto.
      * intros (x & [->|Hx] & Hm); [congruence | exists x; auto].
    + split; [|reflexivity]. intros _. exists y. auto.
Qed.

Lemma order_is_not_unchecked key : message_7_order key <> message_7_unchecked.
Proof. discriminate. Qed.

Lemma rule_7_eq dictionary s :
  NoDup (map fst (headings s)) ->
  rule_7 dictionary s
  = (with_errors s
       (add_all "Rule 7"
          (flat_map (fun kh => rule_7_records dictionary (fst kh) (snd kh))
             (headings s))
          (ags_errors s)),
     Ok tt).
Proof.
  intros Hnd. unfold rule_7, bind at 1, heading_keys.
  apply rule_7_loop. intros k h Hin. now apply assoc_in_nodup.
Qed.

(** X9.  Rule 7 points at Rule 9.  On the same heading index and
    dictionary, each run on a fresh log: [rule_7] records for a group that
    the order of its headings could not be checked exactly when [rule_9]
    records at least one heading of that group as not found. *)
Theorem rule_7_unchecked_iff_rule_9 dictionary s key :
  NoDup (map fst (headings s)) ->
  let log7 := ags_errors (fst (rule_7 dictionary (fresh_log s))) in
  let log9 := ags_errors (fst (rule_9 dictionary (fresh_log s))) in
  In (Err.mk Dash key message_7_unchecked) (records_of log7 "Rule 7")
  <-> exists item, In (Err.mk Dash key (message_9 item)) (records_of log9 "Rule 9").
Proof.
  intros Hnd log7 log9. subst log7 log9.
  rewrite rule_7_eq, rule_9_eq by exact Hnd.
  cbn [fst ags_errors with_errors fresh_log headings].
  rewrite !records_of_fresh. rewrite in_flat_map. split.
  - intros ([k h] & Hin & Hr). cbn [fst snd] in Hr. unfold rule_7_records in Hr.
    cbv zeta in Hr.
    destruct (PyStr.issubset (tl h) (reference_headings dictionary k)) eqn:E.
    + destruct (Frame.list_eqb _ (tl h)); [destruct Hr|].
      destruct Hr as [Hr|[]].
      assert (Hm : message_7_order k = message_7_unchecked) by congruence.
      now apply order_is_not_unchecked in Hm.
    + destruct Hr as [Hr|[]]. assert (Hk : k = key) by congruence. subst k.
      apply issubset_false in E as (item & Hi & Hm).
      exists item. apply in_flat_map. exists (key, h).
      split; [exact Hin|]. cbn [fst snd].
      unfold rule_9_records. apply in_map_iff. exists item.
      split; [reflexivity|]. apply filter_In.
      split; [exact Hi | now rewrite Hm].
  - intros (item & Hr). apply in_flat_map in Hr as ([k h] & Hin & Hr).
    cbn [fst snd] in Hr.
    unfold rule_9_records in Hr. apply in_map_iff in Hr as (i & Heq & Hi).
    assert (Hk : k = key) by congruence. subst k. clear Heq.
    apply filter_In in Hi as [Hi Hm].
    exists (key, h). split; [exact Hin|]. cbn [fst snd].
    unfold rule_7_records. cbv zeta.
    assert (E : PyStr.issubset (tl h) (reference_headings dictionary key) = false).
    { apply issubset_false. exists i. split; [exact Hi|].
      now apply negb_true_iff. }
    rewrite E. now left.
Qed.

Definition message_18 : string :=
  "DICT table not found. See error log under Rule 9 for a list of non-standard headings that need to be defined in a DICT table.".

Lemma add_all_fresh rule r recs :
  add_all rule (r :: recs) [] = [(rule, r :: recs)].
Proof.
  unfold add_all. cbn [fold_left]. unfold add_error_msg at 2. cbn [log_append app].
  assert (H : forall recs l,
             fold_left (fun l0 r0 =>
               add_error_msg l0 rule (Err.line r0) (Err.group r0) (Err.desc r0))
               recs [(rule, l)]
             = [(rule, (l ++ recs)%list)]).
  { clear. induction recs as [|x recs IH]; intros l; simpl.
    - now rewrite app_nil_r.
    - unfold add_error_msg. simpl. rewrite String.eqb_refl. rewrite IH.
      rewrite <- app_assoc. now destruct x. }
  rewrite H. now destruct r.
Qed.

Definition is_nil (A : Type) (l : list A) : bool :=
  match l with [] => true | _ :: _ => false end.

(** X10.  Rule 18 reads what Rule 9 wrote.  [rule_18] appends its record
    exactly when the tables have no DICT group and the log has a list
    under Rule 9.  So, after [rule_9] on a fresh log, it appends the record
    exactly when there is no DICT table and [rule_9] recorded a heading;
    called before [rule_9], on the fresh log, it appends nothing, whatever
    the headings. *)
Theorem rule_18_after_rule_9 dictionary s :
  NoDup (map fst (headings s)) ->
  let s9 := fst (rule_9 dictionary (fresh_log s)) in
  rule_18 s9
  = (if negb (PyStr.mem "DICT" (map fst (tables s)))
        && negb (is_nil (records_of (ags_errors s9) "Rule 9"))
     then with_errors s9
            (add_error_msg (ags_errors s9) "Rule 18" Dash "DICT" message_18)
     else s9,
     Ok tt)
  /\ rule_18 (fresh_log s) = (fresh_log s, Ok tt).
Proof.
  intros Hnd s9. subst s9. split.
  - rewrite rule_9_eq by exact Hnd.
    cbn [fst ags_errors with_errors fresh_log headings].
    rewrite records_of_fresh.
    unfold rule_18, bind, table_keys, errors.
    cbn [tables ags_errors with_errors fresh_log].
    destruct (flat_map _ (headings s)) as [|r recs].
    + cbn [add_all fold_left map PyStr.mem existsb is_nil negb].
      rewrite !andb_false_r. reflexivity.
    + rewrite add_all_fresh. cbn [map fst PyStr.mem existsb is_nil negb].
      rewrite String.eqb_refl. cbn [orb]. rewrite !andb_true_r.
      destruct (negb _); reflexivity.
  - unfold rule_18, bind, table_keys, errors. cbn [ags_errors fresh_log map].
    cbn [PyStr.mem existsb]. rewrite andb_false_r. reflexivity.
Qed.

Definition message_19c (heading : string) : string :=
  heading
  ++ " does not start with the name of this group, nor is it defined in another group.".

(** What [rule_19c] records for a group: the headings after the row-type
    column whose characters before the first underscore are not the name
    of the group and that are the DICT_HDNG of no dictionary row. *)
Definition rule_19c_records (dictionary : Dictionary) (key : string)
    (h : list string) : list Err.t :=
  map (fun heading => Err.mk Dash key (message_19c heading))
    (filter
       (fun heading =>
          negb (before_underscore heading =? key)
          && negb (PyStr.mem heading (map DICT_HDNG dictionary)))
       (tl h)).

(** X11.  Headings of other groups.  For a heading index with one entry
    per group, [rule_19c] returns, having appended under Rule 19b (the name
    it shares with the line rule), one record for each heading after the
    row-type column whose part before the first underscore (the whole
    heading when it has none) differs from the group name and that no row
    of the dictionary, of any group, has as DICT_HDNG; the clause for a
    heading without underscore is never entered. *)
Theorem rule_19c_foreign_headings dictionary s :
  NoDup (map fst (headings s)) ->
  rule_19c dictionary s
  = (with_errors s
       (add_all "Rule 19b"
          (flat_map (fun kh => rule_19c_records dictionary (fst kh) (snd kh))
             (headings s))
          (ags_errors s)),
     Ok tt).
Proof.
  intros Hnd. unfold rule_19c, bind at 1, heading_keys.
  apply (@heading_loop_records "Rule 19b" (rule_19c_records dictionary)
           (fun key h =>
              for_each (tl h) (fun heading =>
                try_except
                  (let temp := PyStr.split "_" heading in
                   t0 <- lift IndexError (nth_error temp 0) ;;
                   when (negb (t0 =? key)
                         && negb (PyStr.mem heading (map DICT_HDNG dictionary)))
                     (record "Rule 19b" Dash key (message_19c heading)))
                  [(IndexError, ret tt)]))).
  - intros key h s0. unfold rule_19c_records.
    rewrite <- (@for_each_filter string
                  (fun heading =>
                     negb (before_underscore heading =? key)
                     && negb (PyStr.mem heading (map DICT_HDNG dictionary)))
                  "Rule 19b" (fun heading => Err.mk Dash key (message_19c heading))).
    apply for_each_ext. intros heading s1. cbv zeta.
    rewrite split_underscore. cbn [nth_error lift]. unfold try_except, bind, ret.
    destruct (negb (before_underscore heading =? key) && _); reflexivity.
  - intros k h Hin. now apply assoc_in_nodup.
Qed.

(** ** The rules on single tables *)

Lemma mem_keys_assoc (A : Type) (k : string) (l : list (string * A)) :
  PyStr.mem k (map fst l) = match assoc k l with Some _ => true | None => false end.
Proof.
  induction l as [|[k' v] l IH]; simpl; [reflexivity|].
  rewrite String.eqb_sym. destruct (k' =? k); simpl; auto.
Qed.

(** What a rule that wants one DATA row in a group records for the DATA
    rows it finds. *)
Definition one_row_records (name : string) (rows : list (list string))
  : list Err.t :=
  match rows with
  | [] => [Err.mk Dash name
             ("There should be at least one DATA row in the " ++ name ++ " table.")]
  | [_] => []
  | _ :: _ :: _ =>
      [Err.mk Dash name
         ("There should not be more than one DATA row in the " ++ name ++ " table.")]
  end.

Lemma data_row_count_eq name df rows s :
  assoc name (tables s) = Some df ->
  Frame.rows_of (data df) "DATA" = Some rows ->
  data_row_count name s = (s, Ok (List.length rows)).
Proof.
  intros Ht Hr. unfold data_row_count, bind, table. now rewrite Ht, Hr.
Qed.

Lemma data_row_count_raises name df s :
  assoc name (tables s) = Some df ->
  Frame.rows_of (data df) "DATA" = None ->
  data_row_count name s = (s, Raise KeyError).
Proof.
  intros Ht Hr. unfold data_row_count, bind, table. now rewrite Ht, Hr.
Qed.

(** X12.  The project and transmission groups.  [rule_13] records that
    the PROJ table is not found when the tables have no PROJ group; with a
    PROJ table, it records nothing exactly when the table has one DATA
    row, one record when it has none and one record when it has more; and
    it raises a [KeyError], the log untouched, when the PROJ table has no
    row-type column.  [rule_14] does the same for TRAN. *)
Theorem rule_13_and_rule_14_want_one_data_row s :
  (assoc "PROJ" (tables s) = None ->
     rule_13 s
     = (with_errors s
          (add_error_msg (ags_errors s) "Rule 13" Dash "PROJ" "PROJ table not found."),
        Ok tt))
  /\ (forall df rows,
        assoc "PROJ" (tables s) = Some df ->
        Frame.rows_of (data df) "DATA" = Some rows ->
        rule_13 s
        = (with_errors s
             (add_all "Rule 13" (one_row_records "PROJ" rows) (ags_errors s)),
           Ok tt))
  /\ (forall df,
        assoc "PROJ" (tables s) = Some df ->
        Frame.rows_of (data df) "DATA" = None ->
        rule_13 s = (s, Raise KeyError))
  /\ (assoc "TRAN" (tables s) = None ->
        rule_14 s
        = (with_errors s
             (add_error_msg (ags_errors s) "Rule 14" Dash "TRAN" "TRAN table not found."),
           Ok tt))
  /\ (forall df rows,
        assoc "TRAN" (tables s) = Some df ->
        Frame.rows_of (data df) "DATA" = Some rows ->
        rule_14 s
        = (with_errors s
             (add_all "Rule 14" (one_row_records "TRAN" rows) (ags_errors s)),
           Ok tt))
  /\ (forall df,
        assoc "TRAN" (tables s) = Some df ->
        Frame.rows_of (data df) "DATA" = None ->
        rule_14 s = (s, Raise KeyError)).
Proof.
  repeat split.
  - intros H. unfold rule_13, bind at 1, table_keys. rewrite mem_keys_assoc, H.
    reflexivity.
  - intros df rows Ht Hr. unfold rule_13, bind at 1, table_keys.
    rewrite mem_keys_assoc, Ht. cbn [negb].
    rewrite (@bind_ok _ _ _ _ _ _ _ (data_row_count_eq "PROJ" s Ht Hr)).
    destruct rows as [|r1 [|r2 rows]]; cbn [List.length Nat.ltb Nat.leb].
    + reflexivity.
    + rewrite (@bind_ok _ _ _ _ _ _ _ (data_row_count_eq "PROJ" s Ht Hr)).
      cbn [List.length Nat.ltb Nat.leb when one_row_records add_all fold_left].
      unfold ret. now rewrite with_errors_same.
    + rewrite (@bind_ok _ _ _ _ _ _ _ (data_row_count_eq "PROJ" s Ht Hr)).
      reflexivity.
  - intros df Ht Hr. unfold rule_13, bind at 1, table_keys.
    rewrite mem_keys_assoc, Ht. cbn [negb].
    now rewrite (@bind_raise _ _ _ _ _ _ _ (data_row_count_raises "PROJ" s Ht Hr)).
  - intros H. unfold rule_14, bind at 1, table_keys. rewrite mem_keys_assoc, H.
    reflexivity.
  - intros df rows Ht Hr. unfold rule_14, bind at 1, table_keys.
    rewrite mem_keys_assoc, Ht. cbn [negb].
    rewrite (@bind_ok _ _ _ _ _ _ _ (data_row_count_eq "TRAN" s Ht Hr)).
    destruct rows as [|r1 [|r2 rows]]; cbn [List.length Nat.ltb Nat.leb].
    + reflexivity.
    + rewrite (@bind_ok _ _ _ _ _ _ _ (data_row_count_eq "TRAN" s Ht Hr)).
      cbn [List.length Nat.ltb Nat.leb when one_row_records add_all fold_left].
      unfold ret. now rewrite with_errors_same.
    + rewrite (@bind_ok _ _ _ _ _ _ _ (data_row_count_eq "TRAN" s Ht Hr)).
      reflexivity.
  - intros df Ht Hr. unfold rule_14, bind at 1, table_keys.
    rewrite mem_keys_assoc, Ht. cbn [negb].
    now rewrite (@bind_raise _ _ _ _ _ _ _ (data_row_count_raises "TRAN" s Ht Hr)).
Qed.

(** The row-type cells of a table, row after row. *)
Definition kinds (df : Frame.t) : list string :=
  match Frame.column df "HEADING" with
  | Some col => col
  | None => []
  end.

(** Row labels that count the rows from zero. *)
Definition numbered (df : DataFrame) : Prop :=
  index df = range_index (List.length (Frame.values (data df))).

Lemma label_position_seq (i : nat) : forall n a,
  label_position (Z.of_nat i) (map Z.of_nat (seq a n))
  = if ((a <=? i) && (i <? a + n))%nat then Some (i - a) else None.
Proof.
  induction n as [|n IH]; intros a; cbn [seq map label_position].
  - destruct (Nat.leb_spec a i), (Nat.ltb_spec i (a + 0)); cbn [andb];
      try reflexivity; lia.
  - rewrite IH.
    destruct (Z.eqb_spec (Z.of_nat a) (Z.of_nat i)) as [E|E];
      destruct (Nat.leb_spec a i), (Nat.ltb_spec i (a + S n)),
        (Nat.leb_spec (S a) i), (Nat.ltb_spec i (S a + n));
      cbn [andb option_map]; try reflexivity; try lia;
      try (f_equal; lia).
Qed.

(** In a table whose rows are numbered from zero, the label [i] is the
    row at [i]. *)
Lemma loc_numbered df (i : nat) c col :
  numbered df ->
  Frame.column (data df) c = Some col ->
  loc df (Z.of_nat i) c = nth_error col i.
Proof.
  unfold numbered, loc, Frame.column, range_index. intros -> Hc.
  rewrite label_position_seq. cbn [Nat.leb andb Nat.add].
  destruct (Frame.position c (Frame.columns (data df))) as [j|]; [|discriminate].
  injection Hc as <-. rewrite Nat.sub_0_r.
  destruct (i <? List.length (Frame.values (data df)))%nat eqn:E.
  - rewrite nth_error_map. now destruct (nth_error (Frame.values (data df)) i).
  - apply Nat.ltb_ge in E. symmetry. apply nth_error_None. now rewrite length_map.
Qed.

Lemma table_loc_numbered key df (i : nat) c col s :
  assoc key (tables s) = Some df ->
  numbered df ->
  Frame.column (data df) c = Some col ->
  table_loc key (Z.of_nat i) c s
  = match nth_error col i with
    | Some v => (s, Ok v)
    | None => (s, Raise KeyError)
    end.
Proof.
  intros Ht Hn Hc. unfold table_loc. rewrite Ht, (@loc_numbered df i c col Hn Hc).
  reflexivity.
Qed.

(** A rule that renumbers the rows of each table and then checks it: when
    the check of a table whose rows are numbered from zero appends records
    under one rule, so does the loop, table after table. *)
Lemma renumbering_loop_records rule (recs : string -> Frame.t -> list Err.t)
    (check : string -> M unit) (ok : Frame.t -> Prop) :
  (forall key df s,
     assoc key (tables s) = Some df -> numbered df -> ok (data df) ->
     check key s
     = (with_errors s (add_all rule (recs key (data df)) (ags_errors s)), Ok tt)) ->
  forall (es : list (string * DataFrame)) s,
    (forall k df, In (k, df) es ->
       ok (data df)
       /\ exists df', assoc k (tables s) = Some df' /\ data df' = data df) ->
    for_each (map fst es) (fun key => table_reset_index key ;; check key) s
    = (mkState (reset_keys (map fst es) (tables s)) (headings s)
         (add_all rule (flat_map (fun kd => recs (fst kd) (data (snd kd))) es)
            (ags_errors s))
         (stdout s) (copies s),
       Ok tt).
Proof.
  intros Hcheck. induction es as [|[k df] es IH]; intros s Hs.
  - simpl. now destruct s.
  - cbn [map fst for_each flat_map snd].
    destruct (Hs k df (or_introl eq_refl)) as (Hok & df' & Ht & Hd).
    unfold bind at 1 2, table_reset_index at 1. rewrite Ht.
    match goal with
    | |- context [check k ?s1] =>
        rewrite (@Hcheck k (reset_index df') s1)
    end.
    + cbn [data reset_index]. rewrite Hd. rewrite IH.
      * cbn [tables headings ags_errors stdout copies with_errors].
        rewrite add_all_app. reflexivity.
      * intros k' d Hin. destruct (Hs k' d (or_intror Hin)) as (Hok' & d' & Ht' & Hd').
        split; [exact Hok'|]. cbn [tables with_errors].
        destruct (string_dec k' k) as [->|Hne].
        -- rewrite assoc_update_same, Ht'. simpl. eexists. split; [reflexivity|].
           exact Hd'.
        -- rewrite assoc_update_other by exact Hne. now exists d'.
    + cbn [tables]. now rewrite assoc_update_same, Ht.
    + reflexivity.
    + cbn [data reset_index]. now rewrite Hd.
Qed.

Definition rule_2_records (key : string) (df : Frame.t) : list Err.t :=
  if PyStr.mem "DATA" (kinds df) then []
  else [Err.mk Dash key "No DATA rows in group."].

Lemma rule_2_check_eq key df s :
  assoc key (tables s) = Some df ->
  PyStr.mem "HEADING" (Frame.columns (data df)) = true ->
  rule_2_check key s
  = (with_errors s (add_all "Rule 2" (rule_2_records key (data df)) (ags_errors s)),
     Ok tt).
Proof.
  intros Ht Hc. unfold rule_2_check, bind, table. rewrite Ht.
  unfold rule_2_records, kinds, Frame.column.
  destruct (position_mem _ _ Hc) as [i ->]. cbn [lift ret].
  destruct (PyStr.mem "DATA" _); cbn [negb when].
  - unfold ret. cbn [add_all fold_left]. now rewrite with_errors_same.
  - reflexivity.
Qed.

(** The tables hold one table for each group, each with a row-type
    column. *)
Definition tables_have_kinds (s : State) : Prop :=
  NoDup (map fst (tables s))
  /\ forall key df, In (key, df) (tables s) ->
       PyStr.mem "HEADING" (Frame.columns (data df)) = true.

(** X13.  Groups without DATA rows.  On tables that each have a row-type
    column, [rule_2] returns, having numbered the rows of every table from
    zero and appended under Rule 2, in the order of the tables, one record
    for each group that has no row of type DATA (a group with no row at
    all among them), and none for a group that has one. *)
Theorem rule_2_groups_without_data s :
  tables_have_kinds s ->
  rule_2 s
  = (mkState (renumbered (tables s)) (headings s)
       (add_all "Rule 2"
          (flat_map (fun kd => rule_2_records (fst kd) (data (snd kd))) (tables s))
          (ags_errors s))
       (stdout s) (copies s),
     Ok tt).
Proof.
  intros [Hnd Hk]. unfold rule_2, bind at 1, table_keys.
  rewrite (@renumbering_loop_records "Rule 2" rule_2_records rule_2_check
             (fun df => PyStr.mem "HEADING" (Frame.columns df) = true)).
  - now rewrite reset_keys_all.
  - intros key df s0 Ht _ Hc. now apply rule_2_check_eq.
  - intros k df Hin. split; [now apply (Hk k df)|].
    exists df. split; [now apply assoc_in_nodup | reflexivity].
Qed.

Definition rule_2b_records (key : string) (df : Frame.t) : list Err.t :=
  let col := kinds df in
  ((if negb (PyStr.mem "UNIT" col)
    then [Err.mk Dash key "UNIT row missing from group."]
    else if negb (nth 0 col "" =? "UNIT")
    then [Err.mk Dash key
            "UNIT row is misplaced. It should be immediately below the HEADING row."]
    else [])
   ++
   (if negb (PyStr.mem "TYPE" col)
    then [Err.mk Dash key "TYPE row missing from group."]
    else if negb (nth 1 col "" =? "TYPE")
    then [Err.mk Dash key
            "TYPE row is misplaced. It should be immediately below the UNIT row."]
    else []))%list.

Lemma mem_nonempty x (l : list string) : PyStr.mem x l = true -> l <> [].
Proof. destruct l; [discriminate | discriminate]. Qed.

(** The first part of the check of [rule_2b], on the UNIT row: it never
    raises, since a table with a UNIT row has a first row. *)
Lemma rule_2b_unit_eq key df col s :
  assoc key (tables s) = Some df ->
  numbered df ->
  Frame.column (data df) "HEADING" = Some col ->
  (if negb (PyStr.mem "UNIT" col)
   then record "Rule 2b" Dash key "UNIT row missing from group."
   else
     v <- table_loc key 0 "HEADING" ;;
     when (negb (v =? "UNIT"))
       (record "Rule 2b" Dash key
          "UNIT row is misplaced. It should be immediately below the HEADING row.")) s
  = (with_errors s
       (add_all "Rule 2b"
          (if negb (PyStr.mem "UNIT" col)
           then [Err.mk Dash key "UNIT row missing from group."]
           else if negb (nth 0 col "" =? "UNIT")
           then [Err.mk Dash key
                   "UNIT row is misplaced. It should be immediately below the HEADING row."]
           else [])
          (ags_errors s)),
     Ok tt).
Proof.
  intros Ht Hn Hc. destruct (PyStr.mem "UNIT" col) eqn:Hu; cbn [negb].
  - unfold bind. change 0%Z with (Z.of_nat 0).
    rewrite (@table_loc_numbered key df 0 "HEADING" col s Ht Hn Hc).
    destruct col as [|v col]; [discriminate Hu|]. cbn [nth_error nth].
    destruct (v =? "UNIT"); cbn [negb when].
    + unfold ret. cbn [add_all fold_left]. now rewrite with_errors_same.
    + reflexivity.
  - reflexivity.
Qed.

Lemma rule_2b_check_eq key df col s :
  assoc key (tables s) = Some df ->
  numbered df ->
  Frame.column (data df) "HEADING" = Some col ->
  col <> ["TYPE"] ->
  rule_2b_check key s
  = (with_errors s (add_all "Rule 2b" (rule_2b_records key (data df)) (ags_errors s)),
     Ok tt).
Proof.
  intros Ht Hn Hc Hne. unfold rule_2b_check.
  unfold bind at 1, table at 1. rewrite Ht.
  unfold bind at 1. rewrite Hc. cbn [lift ret].
  unfold bind at 1. rewrite (@rule_2b_unit_eq key df col s Ht Hn Hc).
  unfold bind at 1, table at 1. cbn [tables with_errors]. rewrite Ht.
  unfold bind at 1. rewrite Hc. cbn [lift ret].
  unfold rule_2b_records, kinds. rewrite Hc. cbv zeta. rewrite add_all_app.
  destruct (PyStr.mem "TYPE" col) eqn:Hty; cbn [negb]; [|reflexivity].
  unfold bind. change 1%Z with (Z.of_nat 1).
  match goal with
  | |- context [table_loc key (Z.of_nat 1) "HEADING" ?s1] =>
      rewrite (@table_loc_numbered key df 1 "HEADING" col s1 Ht Hn Hc)
  end.
  destruct col as [|v1 [|v2 col]]; [discriminate Hty| |].
  - exfalso. apply Hne. unfold PyStr.mem in Hty. cbn [existsb] in Hty.
    rewrite orb_false_r in Hty. apply String.eqb_eq in Hty. now subst.
  - cbn [nth_error nth]. destruct (v2 =? "TYPE"); cbn [negb when].
    + unfold ret. cbn [add_all fold_left]. reflexivity.
    + reflexivity.
Qed.

(** X14.  The UNIT and TYPE rows.  On tables that each have a row-type
    column, none of them being the single row of type TYPE, [rule_2b]
    returns, having numbered the rows of every table from zero and
    appended under Rule 2b, table after table: for the UNIT row, that it
    is missing when no row is of type UNIT, and that it is misplaced when
    there is one but the first row is not it; then the same for the TYPE
    row and the second row. *)
Theorem rule_2b_unit_and_type_rows s :
  tables_have_kinds s ->
  (forall key df, In (key, df) (tables s) -> kinds (data df) <> ["TYPE"]) ->
  rule_2b s
  = (mkState (renumbered (tables s)) (headings s)
       (add_all "Rule 2b"
          (flat_map (fun kd => rule_2b_records (fst kd) (data (snd kd))) (tables s))
          (ags_errors s))
       (stdout s) (copies s),
     Ok tt).
Proof.
  intros [Hnd Hk] Hty. unfold rule_2b, bind at 1, table_keys.
  rewrite (@renumbering_loop_records "Rule 2b" rule_2b_records rule_2b_check
             (fun df => PyStr.mem "HEADING" (Frame.columns df) = true
                        /\ kinds df <> ["TYPE"])).
  - now rewrite reset_keys_all.
  - intros key df s0 Ht Hn [Hc Hne].
    destruct (position_mem _ _ Hc) as [i Hi].
    assert (Hcol : Frame.column (data df) "HEADING" = Some (kinds (data df))).
    { unfold kinds, Frame.column. now rewrite Hi. }
    now apply (@rule_2b_check_eq key df _ s0 Ht Hn Hcol).
  - intros k df Hin. split; [split; [now apply (Hk k df) | now apply (Hty k df)]|].
    exists df. split; [now apply assoc_in_nodup | reflexivity].
Qed.

(** A loop does not return when one of its iterations cannot: [I] is what
    the iterations before it keep. *)
Lemma for_each_not_ok (I : State -> Prop) (X : Type) (body : X -> M unit) x :
  (forall y s, I s -> I (fst (body y s))) ->
  (forall s, I s -> snd (body x s) <> Ok tt) ->
  forall xs s, In x xs -> I s -> snd (for_each xs body s) <> Ok tt.
Proof.
  intros Hkeep Hx. induction xs as [|a xs IH]; intros s Hin HI; [destruct Hin|].
  cbn [for_each]. unfold bind.
  pose proof (Hkeep a s HI) as Hs1. pose proof (Hx s HI) as Hxs.
  destruct (body a s) as [s1 [[]|e]] eqn:E; [|discriminate].
  destruct Hin as [->|Hin].
  - rewrite E in Hxs. now contradiction Hxs.
  - apply IH; assumption.
Qed.

Lemma same_data_lookup key t t' d :
  same_data t t' -> assoc key t = Some d ->
  exists d', assoc key t' = Some d' /\ data d' = data d.
Proof.
  intros Hs Hd. pose proof (same_data_assoc key Hs) as H. rewrite Hd in H.
  destruct (assoc key t') as [d'|]; [|contradiction]. now exists d'.
Qed.

Lemma keeps_data_record rule line group desc s :
  keeps_data s (fst (record rule line group desc s)).
Proof. repeat split. apply same_data_refl. Qed.

Lemma keeps_data_reset key s : keeps_data s (fst (table_reset_index key s)).
Proof.
  unfold table_reset_index.
  destruct (assoc key (tables s)); repeat split; simpl;
    auto using same_data_refl, same_data_update.
Qed.

Lemma keeps_data_rule_2b_body y :
  steps keeps_data (table_reset_index y ;; rule_2b_check y).
Proof.
  apply (@steps_bind keeps_data keeps_data_trans).
  - apply steps_table_reset_index. intros. apply keeps_data_reset.
  - intros _. apply (@steps_rule_2b_check keeps_data keeps_data_refl
                       keeps_data_trans keeps_data_record).
Qed.

Lemma rule_2b_lone_type_row key df s :
  assoc key (tables s) = Some df ->
  Frame.column (data df) "HEADING" = Some ["TYPE"] ->
  snd ((table_reset_index key ;; rule_2b_check key) s) = Raise KeyError.
Proof.
  intros Ht Hc. unfold bind at 1, table_reset_index at 1. rewrite Ht.
  match goal with
  | |- snd (rule_2b_check key ?s1) = _ =>
      assert (Ht1 : assoc key (tables s1) = Some (reset_index df))
        by (cbn [tables]; now rewrite assoc_update_same, Ht);
      generalize dependent s1
  end.
  intros s1 Ht1.
  assert (Hn : numbered (reset_index df)) by reflexivity.
  assert (Hc1 : Frame.column (data (reset_index df)) "HEADING" = Some ["TYPE"])
    by exact Hc.
  unfold rule_2b_check.
  unfold bind at 1, table at 1. rewrite Ht1.
  unfold bind at 1. rewrite Hc1. cbn [lift ret].
  unfold bind at 1.
  rewrite (@rule_2b_unit_eq key (reset_index df) ["TYPE"] s1 Ht1 Hn Hc1).
  unfold bind at 1, table at 1. cbn [tables with_errors]. rewrite Ht1.
  unfold bind at 1. rewrite Hc1. cbn [lift ret].
  unfold bind. change 1%Z with (Z.of_nat 1).
  cbn [PyStr.mem existsb String.eqb Ascii.eqb Bool.eqb orb negb].
  match goal with
  | |- context [table_loc key (Z.of_nat 1) "HEADING" ?s2] =>
      rewrite (@table_loc_numbered key (reset_index df) 1 "HEADING" ["TYPE"] s2
                 Ht1 Hn Hc1)
  end.
  reflexivity.
Qed.

(** X15.  A table that is a lone TYPE row.  When the rows of some table
    are one row of type TYPE, [rule_2b] does not return: having found a
    TYPE row, it asks for the row with label 1, which the table does not
    have, and the [KeyError] of that lookup leaves the rule. *)
Theorem rule_2b_raises_on_lone_type_row s key df :
  assoc key (tables s) = Some df ->
  Frame.column (data df) "HEADING" = Some ["TYPE"] ->
  snd (rule_2b s) = Raise KeyError.
Proof.
  intros Ht Hc.
  assert (Hno : snd (rule_2b s) <> Ok tt).
  { unfold rule_2b, bind at 1, table_keys.
    apply (@for_each_not_ok
             (fun s0 => exists df', assoc key (tables s0) = Some df'
                                    /\ data df' = data df)
             string _ key).
    - intros y s0 (df' & Ht' & Hd').
      destruct (keeps_data_rule_2b_body y s0) as (Hs & _).
      destruct (same_data_lookup key Hs Ht') as (d & Hd1 & Hd2).
      exists d. split; [exact Hd1 | congruence].
    - intros s0 (df' & Ht' & Hd').
      rewrite (@rule_2b_lone_type_row key df' s0 Ht'); [discriminate|].
      now rewrite Hd'.
    - apply in_map_iff. exists (key, df). split; [reflexivity|].
      now apply assoc_some_in.
    - now exists df. }
  pose proof (@throws_rule_2b s) as Hth.
  destruct (snd (rule_2b s)) as [[]|e]; [now contradiction Hno|].
  destruct (Hth e eq_refl) as [<-|[]]. reflexivity.
Qed.

(** ** The rules on units and data types *)









Section Units.

Variable set_order : list string -> list string.



End Units.






Section Types.

Variable set_order : list string -> list string.


End Types.

(** ** Abbreviations without an ABBR table *)

Definition same_log (s s' : State) : Prop := ags_errors s' = ags_errors s.

Lemma same_log_refl s : same_log s s.
Proof. reflexivity. Qed.

Lemma same_log_trans a b c : same_log a b -> same_log b c -> same_log a c.
Proof. unfold same_log. congruence. Qed.

Lemma same_log_table_copy key : steps same_log (table_copy key).
Proof.
  intros s. unfold table_copy. now destruct (assoc key (tables s)).
Qed.

(** A search that stops at its first find: either the log is as it was
    and the search has not answered that it found, or the log has the one
    record of the missing ABBR table and the search has answered that it
    found. *)
Definition finds (m : M bool) : Prop :=
  forall s,
    (ags_errors (fst (m s)) = ags_errors s /\ snd (m s) <> Ok true)
    \/ (ags_errors (fst (m s))
        = add_error_msg (ags_errors s) "Rule 16" Dash "ABBR" "ABBR table not found."
        /\ snd (m s) = Ok true).

Lemma finds_bind (A : Type) (m : M A) (k : A -> M bool) :
  steps same_log m -> (forall a, finds (k a)) -> finds (bind m k).
Proof.
  intros Hm Hk s. unfold bind. specialize (Hm s). unfold same_log in Hm.
  destruct (m s) as [s1 [a|e]]; simpl in *.
  - rewrite <- Hm. apply Hk.
  - left. split; [exact Hm | discriminate].
Qed.

Lemma finds_for_until (X : Type) (body : X -> M bool) :
  (forall x, finds (body x)) -> forall xs, finds (for_until xs body).
Proof.
  intros Hb. induction xs as [|x xs IH]; intros s.
  - left. split; [reflexivity | discriminate].
  - cbn [for_until]. unfold bind. specialize (Hb x s).
    destruct (body x s) as [s1 [[|]|e]]; simpl in *.
    + destruct Hb as [[_ H]|[H _]]; [now contradiction H|]. right. now split.
    + destruct Hb as [[H _]|[_ H]]; [|discriminate H]. rewrite <- H. apply IH.
    + destruct Hb as [[H _]|[_ H]]; [|discriminate H]. left.
      split; [exact H | discriminate].
Qed.

Lemma finds_pa (ty : string) :
  finds (if ty =? "PA"
         then record "Rule 16" Dash "ABBR" "ABBR table not found." ;; ret true
         else ret false).
Proof.
  intros s. destruct (ty =? "PA").
  - right. split; reflexivity.
  - left. split; [reflexivity | discriminate].
Qed.

(** X19.  Abbreviations without an ABBR table.  When the tables have no
    ABBR group, [rule_16] appends at most one record, whatever the number
    of columns of data type PA: either the log is left as it was, or the
    rule returns having appended the one record that the ABBR table is
    not found. *)
Theorem rule_16_without_abbr_table so dictionary s :
  assoc "ABBR" (tables s) = None ->
  let s' := fst (rule_16 so dictionary s) in
  ags_errors s' = ags_errors s
  \/ (ags_errors s'
      = add_error_msg (ags_errors s) "Rule 16" Dash "ABBR" "ABBR table not found."
      /\ snd (rule_16 so dictionary s) = Ok tt).
Proof.
  intros Ha s'. subst s'.
  destruct (rule_16 so dictionary s) as [s2 r] eqn:E. cbn [fst snd].
  unfold rule_16, in_frame, try_except at 1 in E.
  unfold bind at 1, table_copy at 1 in E. cbn [tables with_copies] in E.
  rewrite Ha in E. cbn [handler_for exn_eqb] in E.
  unfold bind at 1, table_keys at 1 in E. unfold bind at 1 in E.
  match type of E with
  | context [for_until ?xs ?body ?s0] =>
      assert (H : finds (for_until xs body));
        [|specialize (H s0); destruct (for_until xs body s0) as [s1 [[|]|e]]]
  end.
  - apply finds_for_until. intros group.
    apply finds_bind; [apply same_log_table_copy|]. intros df.
    apply finds_bind;
      [apply (@steps_heading_list same_log same_log_refl)|]. intros h.
    apply finds_for_until. intros heading.
    apply finds_bind; [apply (@steps_read same_log same_log_refl)|]. intros d.
    apply finds_bind;
      [apply (@steps_type_of same_log same_log_refl same_log_trans)|].
    intros ty. apply finds_pa.
  - injection E as <- <-. simpl in *.
    destruct H as [[_ H]|[H _]]; [now contradiction H|].
    right. split; [exact H | reflexivity].
  - injection E as <- <-. simpl in *.
    destruct H as [[H _]|[_ H]]; [|discriminate H]. now left.
  - injection E as <- <-. simpl in *.
    destruct H as [[H _]|[_ H]]; [|discriminate H]. now left.
Qed.

(** ** More of the dictionary merger *)

(** Rows that no earlier row and no key of [seen] clashes with are all
    kept, and the rows after them are filtered against their keys too. *)
Lemma drop_duplicates_go_app (a : list DictRow) : forall seen b,
  NoDup (map dup_key a) ->
  (forall r, In r a -> ~ In (dup_key r) seen) ->
  drop_duplicates_go seen (a ++ b)%list
  = (a ++ drop_duplicates_go (rev (map dup_key a) ++ seen)%list b)%list.
Proof.
  induction a as [|x a IH]; intros seen b Hnd Hseen; [reflexivity|].
  inversion Hnd as [|? ? Hx Ha]; subst. cbn [app drop_duplicates_go].
  destruct (existsb (Frame.list_eqb (dup_key x)) seen) eqn:E.
  - apply existsb_list_eqb in E. now destruct (Hseen x (or_introl eq_refl)).
  - rewrite IH.
    + cbn [map rev]. now rewrite <- app_assoc.
    + exact Ha.
    + intros r Hr [Hk|Hk].
      * apply Hx. rewrite Hk. now apply in_map.
      * now apply (Hseen r (or_intror Hr)).
Qed.

Lemma drop_duplicates_fixed (d : list DictRow) :
  NoDup (map dup_key d) -> drop_duplicates d = d.
Proof.
  intros H. unfold drop_duplicates.
  rewrite <- (app_nil_r d) at 1. rewrite drop_duplicates_go_app; auto.
  simpl. apply app_nil_r.
Qed.

(** X20.  Merging a merged dictionary.  A dictionary that
    [combine_DICT_tables] returned, handed back to it as the DICT table of
    one file, comes out as it is, with nothing printed: merging is
    idempotent. *)
Theorem merger_is_idempotent input_files s d name s2 :
  snd (combine_DICT_tables input_files s) = Ok d ->
  combine_DICT_tables [mkFile name (Some d)] s2 = (s2, Ok d).
Proof.
  rewrite !combine_DICT_tables_eq.
  destruct (all_rows input_files) as [|x rows] eqn:E; simpl snd; [discriminate|].
  intros H. injection H as <-.
  unfold all_rows at 1 2, warnings. cbn [flat_map DICT app]. rewrite app_nil_r.
  rewrite printing_nil.
  destruct (drop_duplicates (x :: rows)) as [|y d] eqn:Ed.
  - apply drop_duplicates_nil in Ed. discriminate.
  - rewrite <- Ed. rewrite drop_duplicates_fixed; [reflexivity|].
    apply drop_duplicates_go_nodup.
Qed.

(** X21.  The first source comes first.  When the first file has a DICT
    table with a row and with no two rows that agree on the four compared
    columns, as the standard dictionary is to be, the merged dictionary
    is that table, row for row and in its order, followed by the rows of
    the later files that clash with none of its rows. *)
Theorem merger_keeps_first_source f files s d0 :
  DICT f = Some d0 ->
  d0 <> [] ->
  NoDup (map dup_key d0) ->
  exists rest,
    combine_DICT_tables (f :: files) s
    = (printing s (warnings files), Ok (d0 ++ rest)%list)
    /\ (forall r, In r rest ->
          In r (all_rows files) /\ ~ In (dup_key r) (map dup_key d0)).
Proof.
  intros Hf Hne Hnd.
  exists (drop_duplicates_go (rev (map dup_key d0) ++ [])%list (all_rows files)).
  split.
  - rewrite combine_DICT_tables_eq.
    unfold all_rows, warnings. cbn [flat_map]. rewrite Hf. cbn [app].
    fold (all_rows files). fold (warnings files).
    destruct d0 as [|r0 d0]; [congruence|]. cbn [app].
    f_equal. f_equal. unfold drop_duplicates.
    change (r0 :: (d0 ++ all_rows files))%list
      with ((r0 :: d0) ++ all_rows files)%list.
    apply drop_duplicates_go_app; auto.
  - intros r Hr. apply drop_duplicates_go_in in Hr as [Hin Hout].
    split; [exact Hin|]. intros Hk. apply Hout.
    rewrite app_nil_r. now apply in_rev in Hk.
Qed.

(** ** The parent rule when the parent cannot be resolved *)

(** X22.  What [rule_10c] says of a group whose parent it cannot check.
    For a group of the root set (PROJ, TRAN, ABBR, DICT, UNIT, TYPE, LOCA)
    the body of its loop does nothing.  For any other group it appends
    one record under Rule 10c and returns: that the group definitions are
    not found, when the dictionary has no GROUP row for the group; that
    the parent group is left blank, when the DICT_PGRP cell of that row is
    empty; that the parent group could not be found, when the tables have
    no group of that name. *)
Theorem rule_10c_group_diagnostics dictionary group s :
  (PyStr.mem group root_groups = true ->
     rule_10c_group dictionary group s = (s, Ok tt))
  /\ (PyStr.mem group root_groups = false ->
      (parent_of dictionary group = None ->
         rule_10c_group dictionary group s
         = (with_errors s
              (add_error_msg (ags_errors s) "Rule 10c" Dash group
                 "Could not check parent entries since group definitions not found in standard dictionary or DICT table."),
            Ok tt))
      /\ (parent_of dictionary group = Some "" ->
            rule_10c_group dictionary group s
            = (with_errors s
                 (add_error_msg (ags_errors s) "Rule 10c" Dash group
                    "Parent group left blank in dictionary."),
               Ok tt))
      /\ (forall parent_group,
            parent_of dictionary group = Some parent_group ->
            parent_group <> "" ->
            assoc parent_group (tables s) = None ->
            rule_10c_group dictionary group s
            = (with_errors s
                 (add_error_msg (ags_errors s) "Rule 10c" Dash group
                    ("Could not find parent group " ++ parent_group ++ ".")),
               Ok tt))).
Proof.
  split; [|intros H; split; [|split]].
  - intros H. unfold rule_10c_group. now rewrite H.
  - intros Hp. unfold rule_10c_group. rewrite H. cbn [negb when].
    unfold parent_of in Hp. unfold try_except at 1, bind at 1. rewrite Hp.
    reflexivity.
  - intros Hp. unfold rule_10c_group. rewrite H. cbn [negb when].
    unfold parent_of in Hp. unfold try_except at 1, bind at 1. rewrite Hp.
    reflexivity.
  - intros parent_group Hp Hne Ht. unfold rule_10c_group. rewrite H.
    cbn [negb when]. unfold parent_of in Hp.
    unfold try_except at 1, bind at 1. rewrite Hp. cbn [lift ret].
    destruct (String.eqb_spec parent_group ""); [congruence|].
    unfold try_except at 1. cbv zeta. unfold bind at 1, table_copy at 1.
    rewrite Ht. reflexivity.
Qed.

(** ** Well-formed lines *)

(** A line as the format asks for it: each field between double quotes,
    the fields separated by commas, the line ended by a carriage return
    and a line feed. *)
Definition wire_line (l : list string) : string :=
  PyStr.join "," (map PyStr.quoted l) ++ CRLF.

Definition quote_free (f : string) : bool :=
  PyStr.forallb_str (fun c => negb (PyStr.is_quote c)) f.

(** The fields between the opening and the closing quote of a line. *)
Definition inner (l : list string) : string := PyStr.join PyStr.QCQ l.

Lemma join_quoted (l : list string) :
  l <> [] ->
  PyStr.join "," (map PyStr.quoted l)
  = String PyStr.dq (inner l ++ String PyStr.dq "").
Proof.
  unfold inner, PyStr.join. induction l as [|f [|g l] IH]; intros Hne;
    [congruence | reflexivity |].
  specialize (IH ltac:(discriminate)).
  change (concat "," (map PyStr.quoted (f :: g :: l)))
    with (PyStr.quoted f ++ "," ++ concat "," (map PyStr.quoted (g :: l))).
  rewrite IH.
  change (concat PyStr.QCQ (f :: g :: l))
    with (f ++ PyStr.QCQ ++ concat PyStr.QCQ (g :: l)).
  unfold PyStr.quoted, PyStr.QCQ. simpl. f_equal.
  rewrite !append_assoc. simpl. reflexivity.
Qed.

Lemma rstrip_by_spaces p (ws : string) :
  PyStr.forallb_str p ws = true -> PyStr.rstrip_by p ws = "".
Proof.
  induction ws as [|c ws IH]; simpl; [reflexivity|].
  intros H. apply andb_prop in H as [Hc H]. now rewrite IH, Hc.
Qed.

Lemma rstrip_by_app p (a ws : string) c :
  p c = false -> PyStr.forallb_str p ws = true ->
  PyStr.rstrip_by p ((a ++ String c "") ++ ws) = a ++ String c "".
Proof.
  intros Hc Hws. induction a as [|x a IH]; simpl.
  - rewrite rstrip_by_spaces by assumption. now rewrite Hc.
  - rewrite IH. now destruct a.
Qed.

Lemma rstrip_by_free p (f : string) :
  PyStr.forallb_str (fun c => negb (p c)) f = true -> PyStr.rstrip_by p f = f.
Proof.
  induction f as [|c f IH]; simpl; [reflexivity|].
  intros H. apply andb_prop in H as [Hc H]. rewrite IH by assumption.
  apply negb_true_iff in Hc. rewrite Hc. now destruct f.
Qed.

Lemma rstrip_by_tail p (f qs : string) :
  PyStr.forallb_str (fun c => negb (p c)) f = true ->
  PyStr.forallb_str p qs = true ->
  PyStr.rstrip_by p (f ++ qs) = f.
Proof.
  intros Hf Hq. induction f as [|c f IH]; simpl.
  - now apply rstrip_by_spaces.
  - simpl in Hf. apply andb_prop in Hf as [Hc Hf]. rewrite IH by assumption.
    apply negb_true_iff in Hc. rewrite Hc. now destruct f.
Qed.

(** Stripping the quotes around a field that has none inside. *)
Lemma strip_quotes_around (qs1 f qs2 : string) :
  PyStr.forallb_str PyStr.is_quote qs1 = true ->
  quote_free f = true ->
  PyStr.forallb_str PyStr.is_quote qs2 = true ->
  PyStr.strip_quotes (qs1 ++ f ++ qs2) = f.
Proof.
  intros H1 Hf H2. unfold PyStr.strip_quotes, PyStr.strip_by.
  rewrite lstrip_by_skip by assumption.
  destruct f as [|c f].
  - simpl. destruct (lstrip_by_suffix PyStr.is_quote qs2) as (qs & Hq & Hall).
    assert (Hl : PyStr.lstrip_by PyStr.is_quote qs2 = "").
    { clear -H2. induction qs2 as [|c qs2 IH]; simpl; [reflexivity|].
      simpl in H2. apply andb_prop in H2 as [Hc H2]. rewrite Hc. auto. }
    now rewrite Hl.
  - unfold quote_free in Hf. simpl in Hf. apply andb_prop in Hf as [Hc Hf].
    assert (Hl : PyStr.lstrip_by PyStr.is_quote (String c f ++ qs2)
                 = String c f ++ qs2).
    { simpl. apply negb_true_iff in Hc. now rewrite Hc. }
    rewrite Hl. apply rstrip_by_tail; [|assumption].
    simpl. now rewrite Hc, Hf.
Qed.

(** Splitting at the delimiter: a stretch without quotes holds no
    delimiter. *)
Lemma split_go_free (x : string) : forall acc rest,
  quote_free x = true ->
  PyStr.split_go PyStr.QCQ 0 acc (x ++ rest)
  = PyStr.split_go PyStr.QCQ 0 (PyStr.rev_str acc x) rest.
Proof.
  induction x as [|c x IH]; intros acc rest H; [reflexivity|].
  unfold quote_free in H. simpl in H. apply andb_prop in H as [Hc H].
  cbn [append PyStr.split_go PyStr.rev_str].
  assert (Hp : prefix PyStr.QCQ (String c (x ++ rest)) = false).
  { unfold PyStr.QCQ. cbn [prefix]. unfold PyStr.is_quote in Hc.
    destruct (ascii_dec PyStr.dq c) as [<-|Hne]; [|reflexivity].
    now rewrite Ascii.eqb_refl in Hc. }
  rewrite Hp. now apply IH.
Qed.

Lemma split_go_delimiter acc rest :
  PyStr.split_go PyStr.QCQ 0 acc (PyStr.QCQ ++ rest)
  = PyStr.rev_str "" acc :: PyStr.split_go PyStr.QCQ 0 "" rest.
Proof.
  pose proof (prefix_append PyStr.QCQ rest) as Hp.
  unfold PyStr.QCQ at 2 in Hp. unfold PyStr.QCQ at 2.
  cbn [append] in Hp |- *. cbn [PyStr.split_go]. rewrite Hp.
  reflexivity.
Qed.

Lemma rev_str_rev (x : string) : forall acc,
  PyStr.rev_str "" (PyStr.rev_str acc x) = PyStr.rev_str "" acc ++ x.
Proof.
  induction x as [|c x IH]; intros acc; simpl.
  - now rewrite append_nil_r.
  - rewrite IH. simpl. rewrite (rev_str_acc acc (String c "")).
    now rewrite append_assoc.
Qed.

(** The pieces the delimiter cuts out of the fields and the closing
    quote: the fields, the last with the quote. *)
Fixpoint closed (l : list string) : list string :=
  match l with
  | [] => []
  | [f] => [f ++ String PyStr.dq ""]
  | f :: l' => f :: closed l'
  end.

Definition prepend (a : string) (l : list string) : list string :=
  match l with
  | [] => []
  | x :: l' => (a ++ x) :: l'
  end.

Lemma prepend_nil (l : list string) : prepend "" l = l.
Proof. now destruct l. Qed.

Lemma split_go_inner (l : list string) : forall acc,
  l <> [] ->
  forallb quote_free l = true ->
  PyStr.split_go PyStr.QCQ 0 acc (inner l ++ String PyStr.dq "")
  = prepend (PyStr.rev_str "" acc) (closed l).
Proof.
  unfold inner, PyStr.join.
  induction l as [|f [|g l] IH]; intros acc Hne Hq; [congruence| |].
  - cbn [concat closed prepend]. cbn [forallb] in Hq.
    apply andb_prop in Hq as [Hf _].
    rewrite split_go_free by assumption. cbn [PyStr.split_go].
    assert (Hp : prefix PyStr.QCQ (String PyStr.dq "") = false) by reflexivity.
    rewrite Hp. cbn [PyStr.split_go PyStr.rev_str].
    rewrite (rev_str_acc (PyStr.rev_str acc f) (String PyStr.dq "")).
    rewrite rev_str_rev. cbn [PyStr.rev_str]. now rewrite append_assoc.
  - cbn [forallb] in Hq. apply andb_prop in Hq as [Hf Hq].
    change (concat PyStr.QCQ (f :: g :: l))
      with (f ++ PyStr.QCQ ++ concat PyStr.QCQ (g :: l)).
    rewrite !append_assoc. rewrite split_go_free by assumption.
    rewrite split_go_delimiter. rewrite rev_str_rev.
    rewrite IH by (try discriminate; exact Hq).
    change (PyStr.rev_str "" "") with "". rewrite prepend_nil.
    reflexivity.
Qed.

Lemma prefix_cons_ne a b (s1 s2 : string) :
  a <> b -> prefix (String a s1) (String b s2) = false.
Proof. intros H. cbn [prefix]. now destruct (ascii_dec a b). Qed.

Lemma prefix_cons_eq a (s1 s2 : string) :
  prefix (String a s1) (String a s2) = prefix s1 s2.
Proof. cbn [prefix]. destruct (ascii_dec a a); [reflexivity | congruence]. Qed.

(** The opening quote is no delimiter, unless the first field is a
    lone comma. *)
Lemma opening_quote (f tail : string) :
  quote_free f = true -> f <> "," ->
  prefix PyStr.QCQ (String PyStr.dq (f ++ String PyStr.dq tail)) = false.
Proof.
  intros Hq Hne. unfold PyStr.QCQ. rewrite prefix_cons_eq.
  destruct f as [|c [|c' f]]; cbn [append].
  - apply prefix_cons_ne. discriminate.
  - apply prefix_cons_ne. congruence.
  - destruct (ascii_dec "," c) as [<-|H]; [|now apply prefix_cons_ne].
    rewrite prefix_cons_eq. apply prefix_cons_ne.
    unfold quote_free in Hq. cbn [PyStr.forallb_str] in Hq.
    apply andb_prop in Hq as [_ Hq]. apply andb_prop in Hq as [Hc _].
    unfold PyStr.is_quote in Hc. intros <-.
    now rewrite Ascii.eqb_refl in Hc.
Qed.

Lemma inner_head (f : string) (l : list string) :
  exists tail, inner (f :: l) ++ String PyStr.dq "" = f ++ String PyStr.dq tail.
Proof.
  unfold inner, PyStr.join. destruct l as [|g l].
  - now exists "".
  - change (concat PyStr.QCQ (f :: g :: l))
      with (f ++ PyStr.QCQ ++ concat PyStr.QCQ (g :: l)).
    rewrite !append_assoc. unfold PyStr.QCQ at 1. cbn [append].
    eexists. reflexivity.
Qed.

Lemma strip_closed (l : list string) :
  forallb quote_free l = true -> map PyStr.strip_quotes (closed l) = l.
Proof.
  induction l as [|f [|g l] IH]; intros Hq; [reflexivity| |].
  - cbn [closed map]. cbn [forallb] in Hq. apply andb_prop in Hq as [Hf _].
    f_equal. apply (@strip_quotes_around "" f (String PyStr.dq "")); auto.
  - cbn [forallb] in Hq. apply andb_prop in Hq as [Hf Hq].
    change (closed (f :: g :: l)) with (f :: closed (g :: l)).
    cbn [map]. rewrite IH by exact Hq. f_equal.
    pose proof (@strip_quotes_around "" f "" eq_refl Hf eq_refl) as H.
    cbn [append] in H. now rewrite append_nil_r in H.
Qed.

(** The fields of a well-formed line, read the way the line rules read
    them, are the fields it was made of. *)
Lemma fields_wire_line (l : list string) :
  l <> [] ->
  forallb quote_free l = true ->
  hd "" l <> "," ->
  fields (wire_line l) = l.
Proof.
  intros Hne Hq Hhd. unfold fields, wire_line.
  rewrite join_quoted by exact Hne.
  assert (Hr : PyStr.rstrip
                 (String PyStr.dq (inner l ++ String PyStr.dq "") ++ CRLF)
               = String PyStr.dq (inner l ++ String PyStr.dq "")).
  { change (String PyStr.dq (inner l ++ String PyStr.dq ""))
      with ((String PyStr.dq (inner l)) ++ String PyStr.dq "").
    apply rstrip_by_app; reflexivity. }
  rewrite Hr. unfold PyStr.split.
  destruct l as [|f l]; [congruence|]. cbn [hd] in Hhd.
  cbn [forallb] in Hq. apply andb_prop in Hq as [Hf Hq].
  destruct (inner_head f l) as [tail Ht].
  cbn [PyStr.split_go]. rewrite Ht, opening_quote by assumption.
  rewrite <- Ht. rewrite split_go_inner;
    [|discriminate | cbn [forallb]; now rewrite Hf, Hq].
  cbn [PyStr.rev_str].
  destruct l as [|g l].
  - cbn [closed prepend map]. f_equal.
    apply (@strip_quotes_around (String PyStr.dq "") f (String PyStr.dq ""));
      auto.
  - change (closed (f :: g :: l)) with (f :: closed (g :: l)).
    cbn [prepend map]. rewrite strip_closed by exact Hq. f_equal.
    pose proof (@strip_quotes_around (String PyStr.dq "") f "" eq_refl Hf eq_refl)
      as H.
    now rewrite append_nil_r in H.
Qed.

Lemma wire_line_opens (l : list string) :
  l <> [] -> exists rest, wire_line l = String PyStr.dq rest.
Proof.
  intros Hne. unfold wire_line. rewrite join_quoted by exact Hne.
  eexists. reflexivity.
Qed.

Lemma descriptor_quote_free d :
  In d ["HEADING"; "UNIT"; "TYPE"; "DATA"] -> quote_free d = true /\ d <> ",".
Proof.
  intros [<-|[<-|[<-|[<-|[]]]]]; split; try reflexivity; discriminate.
Qed.

(** X23.  Well-formed lines.  A line made of fields without double
    quotes inside, each between double quotes, separated by commas and
    ended by carriage return and line feed, whose first field is UNIT,
    TYPE or DATA, is split by the line rules into the fields it was made
    of, commas inside the fields included: [rule_2a], [rule_3] and
    [rule_4a] record nothing for it, and [rule_4b], for a group with a
    heading row, records it exactly when the number of its fields is not
    the number of fields of the heading row. *)
Theorem well_formed_line_passes d l line_number group headings log :
  In d ["UNIT"; "TYPE"; "DATA"] ->
  forallb quote_free l = true ->
  let line := wire_line (d :: l) in
  fields line = d :: l
  /\ rule_2a line line_number log = log
  /\ rule_3 line line_number log = log
  /\ rule_4a line line_number log = log
  /\ (headings <> [] ->
      rule_4b line line_number group headings log
      = if (S (List.length l) =? List.length headings)%nat then log
        else add_error_msg log "Rule 4b" (Line line_number) group
               "Number of fields does not match the HEADING row.").
Proof.
  intros Hd Hq line.
  assert (Hd4 : In d ["HEADING"; "UNIT"; "TYPE"; "DATA"]) by (now right).
  destruct (@descriptor_quote_free d Hd4) as [Hdq Hdc].
  assert (Hf : fields line = d :: l).
  { apply fields_wire_line; [discriminate | | exact Hdc].
    cbn [forallb]. now rewrite Hdq, Hq. }
  assert (Hm : PyStr.mem (field_at 0 (fields line)) ["UNIT"; "TYPE"; "DATA"] = true).
  { rewrite Hf. cbn [field_at nth]. unfold PyStr.mem.
    destruct Hd as [<-|[<-|[<-|[]]]]; reflexivity. }
  split; [exact Hf|]. split; [|split; [|split]].
  - unfold rule_2a.
    assert (H : PyStr.last2 line = CRLF) by (apply last2_ends; now eexists).
    rewrite H. reflexivity.
  - unfold rule_3. destruct (@wire_line_opens (d :: l)) as [rest Hr];
      [discriminate|]. fold line in Hr.
    assert (Hs : PyStr.isspace line = false) by (now rewrite Hr).
    rewrite Hs. cbn [negb]. cbv zeta.
    assert (Hm5 : PyStr.mem (field_at 0 (fields line))
                    ["GROUP"; "HEADING"; "TYPE"; "UNIT"; "DATA"] = true).
    { rewrite Hf. cbn [field_at nth]. unfold PyStr.mem.
      destruct Hd as [<-|[<-|[<-|[]]]]; reflexivity. }
    now rewrite Hm5.
  - unfold rule_4a.
    assert (Hg : PyStr.startswith (PyStr.quoted "GROUP") line = false).
    { unfold line, wire_line. rewrite join_quoted by discriminate.
      unfold inner, PyStr.join.
      destruct Hd as [<-|[<-|[<-|[]]]]; destruct l; reflexivity. }
    now rewrite Hg.
  - intros Hh. unfold rule_4b. rewrite (@descriptor_starts line Hm). cbv zeta.
    destruct headings as [|h hs]; [congruence|].
    cbn [List.length Nat.eqb]. rewrite Hf. cbn [List.length].
    now destruct (_ =? _)%nat.
Qed.

(** X24.  Well-formed HEADING lines.  On a well-formed line whose first
    field is HEADING and that has a heading after it, the heading rules
    go through the headings the line was made of: [rule_19a] records the
    ones that fail its test, [rule_19b] runs its check on each in turn,
    and [rule_2c] records the line exactly when the word HEADING or a
    heading occurs twice. *)
Theorem well_formed_heading_line l line_number group log :
  l <> [] ->
  forallb quote_free l = true ->
  let line := wire_line ("HEADING" :: l) in
  rule_19a line line_number group log
  = add_all "Rule 19a"
      (map (fun item => Err.mk (Line line_number) group (message_19a item))
         (filter fails_19a l))
      log
  /\ rule_19b line line_number group log
     = fold_left (rule_19b_item line_number group) l log
  /\ (rule_2c line line_number log = log <-> NoDup ("HEADING" :: l)).
Proof.
  intros Hne Hq line.
  assert (Hf : fields line = "HEADING" :: l).
  { apply fields_wire_line; [discriminate | | discriminate].
    cbn [forallb]. now rewrite Hq. }
  assert (Hs : starts "HEADING" line = true).
  { apply first_field_starts; [discriminate | reflexivity |]. now rewrite Hf. }
  split; [|split].
  - rewrite rule_19a_eq by exact Hs. rewrite Hf. cbn [tl].
    destruct l; [congruence | reflexivity].
  - unfold rule_19b. rewrite Hs, Hf. cbv zeta. cbn [tl List.length].
    destruct l; [congruence | reflexivity].
  - unfold rule_2c. rewrite Hs, Hf. cbv zeta.
    destruct (List.length ("HEADING" :: l) =? PyStr.len_set ("HEADING" :: l))%nat
      eqn:E; cbn [negb].
    + apply len_set_full in E. tauto.
    + split.
      * intros H. now apply add_error_msg_changes in H.
      * intros H. apply len_set_full in H. congruence.
Qed.

(** ** Commas inside the fields of a line *)

Definition is_comma (c : ascii) : bool := Ascii.eqb c ","%char.

(** The number of commas of a string. *)
Fixpoint commas (s : string) : nat :=
  match s with
  | EmptyString => 0
  | String c s' => (if is_comma c then 1 else 0) + commas s'
  end.

Definition comma_free (f : string) : bool := (commas f =? 0)%nat.

Lemma commas_app (a b : string) : commas (a ++ b) = commas a + commas b.
Proof. induction a as [|c a IH]; simpl; [reflexivity | rewrite IH; lia]. Qed.

Lemma prefix_comma c s : prefix "," (String c s) = is_comma c.
Proof.
  unfold is_comma. cbn [prefix]. destruct (ascii_dec "," c) as [<-|Hne].
  - rewrite Ascii.eqb_refl. now destruct s.
  - symmetry. apply Ascii.eqb_neq. congruence.
Qed.

(** Splitting at commas gives one piece more than there are commas. *)
Lemma split_comma_count (s : string) : forall acc,
  List.length (PyStr.split_go "," 0 acc s) = S (commas s).
Proof.
  induction s as [|c s IH]; intros acc; [reflexivity|].
  cbn [PyStr.split_go commas]. rewrite prefix_comma.
  destruct (is_comma c); cbn [String.length Nat.sub List.length]; rewrite IH; lia.
Qed.

Lemma closing_quote (w : string) :
  quote_free w = true -> prefix PyStr.QCQ (String PyStr.dq w) = false.
Proof.
  intros Hq. unfold PyStr.QCQ. rewrite prefix_cons_eq.
  destruct w as [|c w]; [reflexivity|].
  destruct (ascii_dec "," c) as [<-|H]; [|now apply prefix_cons_ne].
  rewrite prefix_cons_eq. destruct w as [|c' w]; [reflexivity|].
  apply prefix_cons_ne.
  unfold quote_free in Hq. cbn [PyStr.forallb_str] in Hq.
  apply andb_prop in Hq as [_ Hq]. apply andb_prop in Hq as [Hc _].
  unfold PyStr.is_quote in Hc. intros <-. now rewrite Ascii.eqb_refl in Hc.
Qed.

(** Splitting at the delimiter gives as many pieces as there are fields,
    whatever follows the closing quote, as long as it has no quote. *)
Lemma split_field_count (l : list string) : forall acc w,
  l <> [] ->
  forallb quote_free l = true ->
  quote_free w = true ->
  List.length (PyStr.split_go PyStr.QCQ 0 acc (inner l ++ String PyStr.dq w))
  = List.length l.
Proof.
  unfold inner, PyStr.join.
  induction l as [|f [|g l] IH]; intros acc w Hne Hq Hw; [congruence| |].
  - cbn [concat]. cbn [forallb] in Hq. apply andb_prop in Hq as [Hf _].
    rewrite split_go_free by assumption. cbn [PyStr.split_go].
    rewrite closing_quote by assumption.
    rewrite <- (append_nil_r w). rewrite split_go_free by assumption.
    reflexivity.
  - cbn [forallb] in Hq. apply andb_prop in Hq as [Hf Hq].
    change (concat PyStr.QCQ (f :: g :: l))
      with (f ++ PyStr.QCQ ++ concat PyStr.QCQ (g :: l)).
    rewrite !append_assoc. rewrite split_go_free by assumption.
    rewrite split_go_delimiter. cbn [List.length]. f_equal.
    apply IH; [discriminate | exact Hq | exact Hw].
Qed.

Lemma inner_head_tail (f : string) (l : list string) (w : string) :
  exists tail, inner (f :: l) ++ String PyStr.dq w = f ++ String PyStr.dq tail.
Proof.
  unfold inner, PyStr.join. destruct l as [|g l].
  - now exists w.
  - change (concat PyStr.QCQ (f :: g :: l))
      with (f ++ PyStr.QCQ ++ concat PyStr.QCQ (g :: l)).
    rewrite !append_assoc. unfold PyStr.QCQ at 1. cbn [append].
    eexists. reflexivity.
Qed.

Lemma wire_line_eq (l : list string) :
  l <> [] -> wire_line l = String PyStr.dq (inner l ++ String PyStr.dq CRLF).
Proof.
  intros Hne. unfold wire_line. rewrite join_quoted by exact Hne.
  cbn [append]. now rewrite append_assoc.
Qed.

Lemma wire_line_field_count (l : list string) :
  l <> [] ->
  forallb quote_free l = true ->
  hd "" l <> "," ->
  List.length (PyStr.split PyStr.QCQ (wire_line l)) = List.length l.
Proof.
  intros Hne Hq Hhd. rewrite wire_line_eq by exact Hne. unfold PyStr.split.
  destruct l as [|f l]; [congruence|]. cbn [hd] in Hhd.
  pose proof Hq as Hq'. cbn [forallb] in Hq'. apply andb_prop in Hq' as [Hf _].
  destruct (inner_head_tail f l CRLF) as [tail Ht].
  cbn [PyStr.split_go]. rewrite Ht, opening_quote by assumption.
  rewrite <- Ht. apply split_field_count; [discriminate | exact Hq | reflexivity].
Qed.

Lemma commas_inner (l : list string) :
  l <> [] ->
  commas (inner l) = List.length l - 1 + list_sum (map commas l).
Proof.
  unfold inner, PyStr.join. induction l as [|f [|g l] IH]; intros Hne;
    [congruence | simpl; lia |].
  change (concat PyStr.QCQ (f :: g :: l))
    with (f ++ PyStr.QCQ ++ concat PyStr.QCQ (g :: l)).
  rewrite !commas_app, IH by discriminate.
  cbn [map list_sum List.length]. unfold PyStr.QCQ. cbn [commas is_comma].
  simpl. lia.
Qed.

Lemma wire_line_comma_count (l : list string) :
  l <> [] ->
  List.length (PyStr.split "," (wire_line l))
  = List.length l + list_sum (map commas l).
Proof.
  intros Hne. unfold PyStr.split. rewrite split_comma_count.
  rewrite wire_line_eq by exact Hne. cbn [commas]. rewrite commas_app.
  rewrite commas_inner by exact Hne. cbn [commas is_comma]. simpl.
  destruct l; [congruence|]. cbn [List.length]. lia.
Qed.

Lemma list_sum_zero (l : list string) :
  list_sum (map commas l) = 0 <-> forallb comma_free l = true.
Proof.
  unfold comma_free. induction l as [|f l IH]; simpl; [tauto|].
  rewrite andb_true_iff, Nat.eqb_eq, <- IH. lia.
Qed.

Lemma rev_str_snoc (a : string) c :
  PyStr.rev_str "" (a ++ String c "") = String c (PyStr.rev_str "" a).
Proof.
  assert (H : forall acc, PyStr.rev_str acc (a ++ String c "")
                          = String c (PyStr.rev_str acc a)).
  { induction a as [|x a IH]; intros acc; simpl; auto. }
  apply H.
Qed.

Lemma wire_line_closes (l : list string) :
  l <> [] ->
  PyStr.endswith (String PyStr.dq "") (PyStr.strip_crlf (wire_line l)) = true.
Proof.
  intros Hne. unfold wire_line. rewrite join_quoted by exact Hne.
  unfold PyStr.strip_crlf, PyStr.strip_by.
  assert (Hl : PyStr.lstrip_by PyStr.is_crlf
                 (String PyStr.dq (inner l ++ String PyStr.dq "") ++ CRLF)
               = String PyStr.dq (inner l ++ String PyStr.dq "") ++ CRLF)
    by reflexivity.
  rewrite Hl.
  change (String PyStr.dq (inner l ++ String PyStr.dq ""))
    with ((String PyStr.dq (inner l)) ++ String PyStr.dq "").
  rewrite rstrip_by_app by reflexivity.
  unfold PyStr.endswith. rewrite rev_str_snoc. cbn [PyStr.rev_str].
  rewrite prefix_cons_eq. now destruct (PyStr.rev_str _ _).
Qed.

Lemma data_is_no_other (s : string) :
  prefix "DATA" s = true ->
  prefix "HEADING" s || prefix "UNIT" s || prefix "TYPE" s = false.
Proof.
  destruct s as [|c s]; [discriminate|]. cbn [prefix].
  destruct (ascii_dec "D" c) as [<-|Hne]; [|discriminate]. reflexivity.
Qed.

(** X25.  Commas and [rule_5].  On a well-formed line whose first field
    is HEADING, UNIT or TYPE, [rule_5] compares the number of pieces
    between delimiters with the number of pieces between commas: it
    leaves the log as it is exactly when no field of the line has a comma
    inside, and records the line, whose fields are all between quotes, as
    soon as one has.  A well-formed DATA line is never recorded. *)
Theorem rule_5_counts_commas d l line_number log :
  forallb quote_free l = true ->
  let line := wire_line (d :: l) in
  (In d ["HEADING"; "UNIT"; "TYPE"] ->
     (rule_5 line line_number log = log <-> forallb comma_free l = true)
     /\ (forallb comma_free l = false ->
         rule_5 line line_number log
         = add_error_msg log "Rule 5" (Line line_number) ""
             "Contains fields that are not enclosed in double quotes."))
  /\ (d = "DATA" -> rule_5 line line_number log = log).
Proof.
  intros Hq line.
  assert (Hs : PyStr.isspace line = false).
  { destruct (@wire_line_opens (d :: l)) as [rest Hr]; [discriminate|].
    fold line in Hr. now rewrite Hr. }
  assert (Ho : PyStr.startswith (String PyStr.dq "") line = true).
  { destruct (@wire_line_opens (d :: l)) as [rest Hr]; [discriminate|].
    fold line in Hr. rewrite Hr. unfold PyStr.startswith.
    rewrite prefix_cons_eq. now destruct rest. }
  assert (Hc : PyStr.endswith (String PyStr.dq "") (PyStr.strip_crlf line) = true)
    by (apply wire_line_closes; discriminate).
  split.
  - intros Hd.
    assert (Hd4 : In d ["HEADING"; "UNIT"; "TYPE"; "DATA"]).
    { destruct Hd as [<-|[<-|[<-|[]]]]; simpl; auto. }
    destruct (@descriptor_quote_free d Hd4) as [Hdq Hdc].
    assert (Hall : forallb quote_free (d :: l) = true)
      by (cbn [forallb]; now rewrite Hdq, Hq).
    assert (Hf : fields line = d :: l)
      by (apply fields_wire_line; [discriminate | exact Hall | exact Hdc]).
    assert (Hst : starts "HEADING" line || starts "UNIT" line || starts "TYPE" line
                  = true).
    { assert (H : starts d line = true).
      { apply first_field_starts; [| exact Hdq | now rewrite Hf].
        destruct Hd as [<-|[<-|[<-|[]]]]; discriminate. }
      destruct Hd as [E|[E|[E|[]]]]; rewrite <- E in H; rewrite H;
        rewrite ?orb_true_r; reflexivity. }
    assert (Hn1 : List.length (PyStr.split PyStr.QCQ line) = S (List.length l))
      by (unfold line; now rewrite wire_line_field_count).
    assert (Hn2 : List.length (PyStr.split "," line)
                  = S (List.length l) + list_sum (map commas l)).
    { unfold line. rewrite wire_line_comma_count by discriminate.
      cbn [map List.length].
      change (list_sum (commas d :: map commas l))
        with (commas d + list_sum (map commas l)).
      assert (H0 : commas d = 0) by (destruct Hd as [<-|[<-|[<-|[]]]]; reflexivity).
      rewrite H0. lia. }
    unfold rule_5. rewrite Hs, Ho, Hc, Hst, Hn1, Hn2. cbn [negb orb].
    destruct (forallb comma_free l) eqn:E.
    + apply list_sum_zero in E. rewrite E, Nat.add_0_r, Nat.eqb_refl.
      split; [tauto | discriminate].
    + assert (Hne : list_sum (map commas l) <> 0).
      { intros H0. apply list_sum_zero in H0. congruence. }
      assert (Hb : (S (List.length l)
                    =? S (List.length l) + list_sum (map commas l))%nat = false)
        by (apply Nat.eqb_neq; lia).
      rewrite Hb. cbn [negb]. split; [|reflexivity]. split.
      * intros H. now apply add_error_msg_changes in H.
      * discriminate.
  - intros ->.
    assert (Hf : fields line = "DATA" :: l).
    { apply fields_wire_line; [discriminate | | discriminate].
      cbn [forallb]. now rewrite Hq. }
    assert (Hst : starts "HEADING" line || starts "UNIT" line || starts "TYPE" line
                  = false).
    { assert (H : starts "DATA" line = true)
        by (apply first_field_starts;
            [discriminate | reflexivity | now rewrite Hf]).
      unfold starts, PyStr.startswith in *.
      now apply data_is_no_other. }
    unfold rule_5. rewrite Hs, Ho, Hc, Hst. reflexivity.
Qed.

(** ** The required-field rule *)















Section Required.

(** The order in which the required headings that the group has are
    gone through; they are headings of the group. *)
Variable set_intersection_order : list string -> list string -> list string.
Hypothesis intersection_in_second :
  forall a b x, In x (set_intersection_order a b) -> PyStr.mem x b = true.





End Required.

(** ** Files without columns of data type PA *)

(** The data type of every column of the table is given by a TYPE row and
    is not PA. *)
Definition no_pa_column (df : Frame.t) : Prop :=
  forall heading, In heading (Frame.columns df) ->
    exists ty rest,
      Frame.where_ df "HEADING" "TYPE" heading = Some (ty :: rest) /\ ty <> "PA".

Lemma type_of_eq df heading ty rest s :
  Frame.where_ df "HEADING" "TYPE" heading = Some (ty :: rest) ->
  type_of df heading s = (s, Ok ty).
Proof. intros H. unfold type_of, bind. now rewrite H. Qed.

(** The loop over the headings of a group, in the rule proper: nothing
    is done for a column that is not of type PA. *)
Lemma no_pa_for_each n d (K : string -> M unit) (hs : list string) : forall s,
  nth_error (copies s) n = Some d ->
  no_pa_column d ->
  (forall heading, In heading hs -> In heading (Frame.columns d)) ->
  for_each hs (fun heading =>
    d <- read (Copy n) ;;
    ty <- type_of d heading ;;
    when (ty =? "PA") (K heading)) s
  = (s, Ok tt).
Proof.
  induction hs as [|x hs IH]; intros s Hn Hd Hin; [reflexivity|].
  destruct (Hd x (Hin x (or_introl eq_refl))) as (ty & rest & Hty & Hne).
  cbn [for_each]. unfold bind at 1 2, read at 1. rewrite Hn.
  unfold bind at 1. rewrite (@type_of_eq d x ty rest s Hty).
  destruct (String.eqb_spec ty "PA"); [congruence|]. cbn [when]. unfold ret.
  apply IH; auto. intros y Hy. apply Hin. now right.
Qed.

(** The same loop in the search for a first column of type PA. *)
Lemma no_pa_for_until n d (K : string -> M bool) (hs : list string) : forall s,
  nth_error (copies s) n = Some d ->
  no_pa_column d ->
  (forall heading, In heading hs -> In heading (Frame.columns d)) ->
  for_until hs (fun heading =>
    d <- read (Copy n) ;;
    ty <- type_of d heading ;;
    if ty =? "PA" then K heading else ret false) s
  = (s, Ok false).
Proof.
  induction hs as [|x hs IH]; intros s Hn Hd Hin; [reflexivity|].
  destruct (Hd x (Hin x (or_introl eq_refl))) as (ty & rest & Hty & Hne).
  cbn [for_until]. unfold bind at 1 2, read at 1. rewrite Hn.
  unfold bind at 1. rewrite (@type_of_eq d x ty rest s Hty).
  destruct (String.eqb_spec ty "PA"); [congruence|]. unfold ret at 1.
  apply IH; auto. intros y Hy. apply Hin. now right.
Qed.

Lemma no_pa_groups (K : Ref -> string -> string -> M unit)
    (es : list (string * DataFrame)) : forall s,
  (forall k df, In (k, df) es ->
     assoc k (tables s) = Some df
     /\ assoc k (headings s) = Some (Frame.columns (data df))
     /\ no_pa_column (data df)) ->
  exists c,
    for_each (map fst es) (fun group =>
      df <- table_copy group ;;
      h <- heading_list group ;;
      for_each h (fun heading =>
        d <- read df ;;
        ty <- type_of d heading ;;
        when (ty =? "PA") (K df group heading))) s
    = (with_copies s c, Ok tt).
Proof.
  induction es as [|[k df] es IH]; intros s Hs.
  - exists (copies s). simpl. now destruct s.
  - destruct (Hs k df (or_introl eq_refl)) as (Ht & Hh & Hd).
    cbn [map fst for_each]. unfold bind at 1 2, table_copy at 1. rewrite Ht.
    unfold bind at 1, heading_list at 1. cbn [headings with_copies]. rewrite Hh.
    rewrite (@no_pa_for_each (List.length (copies s)) (data df)
               (K (Copy (List.length (copies s))) k));
      [| cbn [copies with_copies]; apply nth_error_last | exact Hd | auto].
    match goal with
    | |- exists c, for_each _ _ ?s1 = _ => destruct (IH s1) as [c Hc]
    end.
    + intros k' d' Hin. cbn [tables headings with_copies]. apply Hs. now right.
    + exists c. rewrite Hc. reflexivity.
Qed.

Lemma no_pa_search (K : string -> M bool)
    (es : list (string * DataFrame)) : forall s,
  (forall k df, In (k, df) es ->
     assoc k (tables s) = Some df
     /\ assoc k (headings s) = Some (Frame.columns (data df))
     /\ no_pa_column (data df)) ->
  exists c,
    for_until (map fst es) (fun group =>
      df <- table_copy group ;;
      h <- heading_list group ;;
      for_until h (fun heading =>
        d <- read df ;;
        ty <- type_of d heading ;;
        if ty =? "PA" then K heading else ret false)) s
    = (with_copies s c, Ok false).
Proof.
  induction es as [|[k df] es IH]; intros s Hs.
  - exists (copies s). simpl. now destruct s.
  - destruct (Hs k df (or_introl eq_refl)) as (Ht & Hh & Hd).
    cbn [map fst for_until]. unfold bind at 1 2, table_copy at 1. rewrite Ht.
    unfold bind at 1, heading_list at 1. cbn [headings with_copies]. rewrite Hh.
    rewrite (@no_pa_for_until (List.length (copies s)) (data df) K);
      [| cbn [copies with_copies]; apply nth_error_last | exact Hd | auto].
    match goal with
    | |- exists c, for_until _ _ ?s1 = _ => destruct (IH s1) as [c Hc]
    end.
    + intros k' d' Hin. cbn [tables headings with_copies]. apply Hs. now right.
    + exists c. rewrite Hc. reflexivity.
Qed.

(** X27.  No column of type PA, no abbreviation to look up.  With one
    table per group, a heading index that lists the columns of each
    table, and the data type of every column given by a TYPE row and not
    PA, [rule_16] returns with the log, the tables and the heading index
    as they were, whether the file has an ABBR table or not. *)
Theorem rule_16_without_pa_columns so dictionary s :
  NoDup (map fst (tables s)) ->
  index_matches s ->
  (forall key df, In (key, df) (tables s) -> no_pa_column (data df)) ->
  rule_16 so dictionary s = (s, Ok tt).
Proof.
  intros Hnd Hwf Hpa.
  assert (Hs : forall c0 k df, In (k, df) (tables s) ->
             assoc k (tables (with_copies s c0)) = Some df
             /\ assoc k (headings (with_copies s c0))
                = Some (Frame.columns (data df))
             /\ no_pa_column (data df)).
  { intros c0 k df Hin. destruct (Hwf k df Hin) as [Hh _].
    split; [now apply assoc_in_nodup|]. split; [exact Hh | now apply (Hpa k df)]. }
  unfold rule_16, in_frame.
  destruct (try_except _ _ (with_copies s [])) as [s' r] eqn:E.
  unfold try_except at 1 in E. unfold bind at 1, table_copy at 1 in E.
  cbn [tables with_copies] in E.
  destruct (assoc "ABBR" (tables s)) as [A|] eqn:Ha.
  - unfold bind at 1, table_keys at 1 in E. cbn [tables with_copies] in E.
    match type of E with
    | context [for_each (map fst (tables s)) ?body ?s1] =>
        match body with
        | (fun group => bind _ (fun df => bind _ (fun h => for_each h
             (fun heading => bind _ (fun d => bind _ (fun ty =>
                when _ (@?K df group heading))))))) =>
            destruct (@no_pa_groups K (tables s) s1) as [c Hc]
        end
    end.
    { intros k df Hin. apply (Hs _ k df Hin). }
    rewrite Hc in E. injection E as <- <-. now destruct s.
  - cbn [handler_for exn_eqb] in E.
    unfold bind at 1, table_keys at 1 in E. cbn [tables with_copies] in E.
    unfold bind at 1 in E.
    match type of E with
    | context [for_until (map fst (tables s)) ?body ?s1] =>
        destruct (@no_pa_search
                    (fun _ =>
                       record "Rule 16" Dash "ABBR" "ABBR table not found." ;;
                       ret true)
                    (tables s) s1) as [c Hc]
    end.
    { intros k df Hin. apply (Hs _ k df Hin). }
    rewrite Hc in E. injection E as <- <-. now destruct s.
Qed.

(** X28.  Well-formed GROUP lines.  On a well-formed line whose first
    field is GROUP and whose second is the group name: [rule_3] records
    nothing; [rule_4a] records nothing when the name is the only other
    field, and otherwise one record under the group name, that the row
    has more than one field; [rule_19] records the name unless it has
    four characters, none of them a lowercase letter and at least one an
    uppercase letter (digits may fill the rest). *)
Theorem well_formed_group_line name l line_number log :
  quote_free name = true ->
  forallb quote_free l = true ->
  let line := wire_line ("GROUP" :: name :: l) in
  rule_3 line line_number log = log
  /\ rule_4a line line_number log
     = match l with
       | [] => log
       | _ :: _ => add_error_msg log "Rule 4a" (Line line_number) name
                     "GROUP row has more than one field."
       end
  /\ rule_19 line line_number log
     = if (String.length name =? 4)%nat && PyStr.isupper name then log
       else add_error_msg log "Rule 19" (Line line_number) name
              "GROUP name should consist of four uppercase letters.".
Proof.
  intros Hn Hq line.
  assert (Hf : fields line = "GROUP" :: name :: l).
  { apply fields_wire_line; [discriminate | | discriminate].
    cbn [forallb]. now rewrite Hn, Hq. }
  assert (Hs : starts "GROUP" line = true).
  { apply first_field_starts; [discriminate | reflexivity |]. now rewrite Hf. }
  split; [|split].
  - unfold rule_3. destruct (@wire_line_opens ("GROUP" :: name :: l)) as [rest Hr];
      [discriminate|]. fold line in Hr.
    assert (Hsp : PyStr.isspace line = false) by (now rewrite Hr).
    rewrite Hsp, Hf. reflexivity.
  - unfold rule_4a.
    assert (Hg : PyStr.startswith (PyStr.quoted "GROUP") line = true).
    { unfold line. rewrite wire_line_eq by discriminate. reflexivity. }
    rewrite Hg, Hf. cbv zeta. cbn [List.length field_at nth].
    destruct l; reflexivity.
  - unfold rule_19. rewrite Hs, Hf. cbv zeta. cbn [List.length field_at nth Nat.leb].
    destruct (String.length name =? 4)%nat, (PyStr.isupper name); reflexivity.
Qed.

(** * More concrete inputs *)

(** [rule_2a] records a line without its terminator, and the list of
    Rule 1 is as it was. *)
Lemma rule_2a_leaves_rule_1_alone :
  log_get (line_rule (Rule_2a "DATA" 7) [("Rule 1", [])]) "Rule 1" = Some [].
Proof.
  exact (@line_rule_writes_under_its_name (Rule_2a "DATA" 7) [("Rule 1", [])]
           "Rule 1" ltac:(discriminate)).
Defined.

(** [rule_10c] on the file with the orphan writes under Rule 10a; Rule 7
    has no list before and none after. *)
Lemma rule_10c_leaves_rule_7_alone :
  log_get
    (ags_errors
       (fst (group_rule first_seen first_seen_both std_dictionary Rule_10c
               file_with_orphan)))
    "Rule 7"
  = None.
Proof.
  exact (@group_rule_writes_under_its_names first_seen first_seen_both
           std_dictionary Rule_10c file_with_orphan "Rule 7"
           ltac:(simpl; intuition discriminate)).
Defined.

(** The HEADING line with a heading of ten characters. *)
Lemma rule_19a_on_HEADING_line :
  rule_19a HEADING_line 2 "LOCA" []
  = [("Rule 19a", [Err.mk (Line 2) "LOCA" (message_19a "LOCA_NATEX")])].
Proof.
  exact (@rule_19a_one_record_per_heading HEADING_line 2 "LOCA" [] eq_refl).
Defined.

(** A heading index with a heading that the dictionary does not have. *)
Definition undefined_heading : State :=
  mkState [] [("LOCA", ["HEADING"; "LOCA_ID"; "LOCA_XXXX"])] [] [] [].

Lemma undefined_heading_keys : NoDup (map fst (headings undefined_heading)).
Proof. repeat constructor; simpl; intuition discriminate. Defined.

Lemma rule_9_on_undefined_heading :
  rule_9 std_dictionary undefined_heading
  = (with_errors undefined_heading
       [("Rule 9", [Err.mk Dash "LOCA" (message_9 "LOCA_XXXX")])],
     Ok tt).
Proof.
  exact (proj1 (@rule_9_undefined_headings std_dictionary undefined_heading
                  undefined_heading_keys)).
Defined.

Lemma rule_7_points_at_rule_9 :
  In (Err.mk Dash "LOCA" message_7_unchecked)
    (records_of
       (ags_errors (fst (rule_7 std_dictionary (fresh_log undefined_heading))))
       "Rule 7").
Proof.
  apply (proj2 (@rule_7_unchecked_iff_rule_9 std_dictionary undefined_heading
                  "LOCA" undefined_heading_keys)).
  exists "LOCA_XXXX". left. reflexivity.
Defined.

Lemma rule_18_on_undefined_heading :
  rule_18 (fst (rule_9 std_dictionary (fresh_log undefined_heading)))
  = (with_errors undefined_heading
       [("Rule 9", [Err.mk Dash "LOCA" (message_9 "LOCA_XXXX")]);
        ("Rule 18", [Err.mk Dash "DICT" message_18])],
     Ok tt)
  /\ rule_18 (fresh_log undefined_heading) = (fresh_log undefined_heading, Ok tt).
Proof.
  exact (@rule_18_after_rule_9 std_dictionary undefined_heading
           undefined_heading_keys).
Defined.

(** A GEOL group with a heading of its parent, a heading of a group that
    the dictionary does not know, and a heading of its own. *)
Definition foreign_heading : State :=
  mkState [] [("GEOL", ["HEADING"; "LOCA_ID"; "SAMP_TOP"; "GEOL_TOP"])] [] [] [].

Lemma rule_19c_on_foreign_heading :
  rule_19c std_dictionary foreign_heading
  = (with_errors foreign_heading
       [("Rule 19b", [Err.mk Dash "GEOL" (message_19c "SAMP_TOP")])],
     Ok tt).
Proof.
  assert (Hnd : NoDup (map fst (headings foreign_heading))).
  { repeat constructor; simpl; intuition discriminate. }
  exact (@rule_19c_foreign_headings std_dictionary foreign_heading Hnd).
Defined.

(** A table with no DATA row, beside the LOCA table with other row
    labels. *)
Definition ABBR_empty : DataFrame :=
  mkDF [0; 1]%Z
    (Frame.mk ["HEADING"; "ABBR_HDNG"; "ABBR_CODE"]
       [ ["UNIT"; ""; ""]; ["TYPE"; "X"; "X"] ]).

Definition file_without_data : State :=
  parsed [("LOCA", LOCA_filtered); ("ABBR", ABBR_empty)].

Lemma file_without_data_kinds : tables_have_kinds file_without_data.
Proof.
  split.
  - repeat constructor; simpl; intuition discriminate.
  - intros key df H. simpl in H. in_cases H; reflexivity.
Defined.

Lemma rule_2_on_file_without_data :
  rule_2 file_without_data
  = (mkState [("LOCA", LOCA_table); ("ABBR", ABBR_empty)]
       (headings file_without_data)
       [("Rule 2", [Err.mk Dash "ABBR" "No DATA rows in group."])] [] [],
     Ok tt).
Proof. exact (@rule_2_groups_without_data file_without_data file_without_data_kinds). Defined.

(** A table with its TYPE row above its UNIT row. *)
Definition LOCA_type_first : DataFrame :=
  mkDF [0; 1; 2]%Z
    (Frame.mk LOCA_headings
       [ ["TYPE"; "ID"; "2DP"]; ["UNIT"; ""; "m"]; ["DATA"; "BH01"; "100000.01"] ]).

Lemma rule_2b_on_type_first :
  ags_errors (fst (rule_2b (parsed [("LOCA", LOCA_type_first)])))
  = [("Rule 2b",
      [Err.mk Dash "LOCA"
         "UNIT row is misplaced. It should be immediately below the HEADING row.";
       Err.mk Dash "LOCA"
         "TYPE row is misplaced. It should be immediately below the UNIT row."])].
Proof.
  assert (Hk : tables_have_kinds (parsed [("LOCA", LOCA_type_first)])).
  { split.
    - repeat constructor; simpl; intuition discriminate.
    - intros key df H. simpl in H. in_cases H; reflexivity. }
  assert (Hty : forall key df,
             In (key, df) (tables (parsed [("LOCA", LOCA_type_first)])) ->
             kinds (data df) <> ["TYPE"]).
  { intros key df H. simpl in H. in_cases H. discriminate. }
  rewrite (@rule_2b_unit_and_type_rows (parsed [("LOCA", LOCA_type_first)]) Hk Hty).
  reflexivity.
Defined.

(** A table that is a lone TYPE row. *)
Definition LOCA_lone_type : DataFrame :=
  mkDF [0]%Z (Frame.mk LOCA_headings [ ["TYPE"; "ID"; "2DP"] ]).

Lemma rule_2b_on_lone_type_row :
  snd (rule_2b (parsed [("LOCA", LOCA_lone_type)])) = Raise KeyError.
Proof.
  exact (@rule_2b_raises_on_lone_type_row (parsed [("LOCA", LOCA_lone_type)])
           "LOCA" LOCA_lone_type eq_refl eq_refl).
Defined.






(** The file with the orphan has no ABBR table and no column of type
    PA. *)
Lemma rule_16_on_file_with_orphan :
  ags_errors (fst (rule_16 first_seen std_dictionary file_with_orphan)) = []
  \/ (ags_errors (fst (rule_16 first_seen std_dictionary file_with_orphan))
      = [("Rule 16", [Err.mk Dash "ABBR" "ABBR table not found."])]
      /\ snd (rule_16 first_seen std_dictionary file_with_orphan) = Ok tt).
Proof.
  exact (@rule_16_without_abbr_table first_seen std_dictionary file_with_orphan
           eq_refl).
Defined.

Lemma file_with_orphan_has_no_pa :
  forall key df, In (key, df) (tables file_with_orphan) -> no_pa_column (data df).
Proof.
  intros key df H. simpl in H. in_cases H; intros heading Hin; simpl in Hin;
    repeat (destruct Hin as [<-|Hin];
            [eexists; eexists; split; [reflexivity | discriminate]|]);
    contradiction.
Defined.

Lemma rule_16_leaves_file_with_orphan :
  rule_16 first_seen std_dictionary file_with_orphan = (file_with_orphan, Ok tt).
Proof.
  assert (Hnd : NoDup (map fst (tables file_with_orphan))).
  { repeat constructor; simpl; intuition discriminate. }
  assert (Hwf : index_matches file_with_orphan).
  { intros key df H. simpl in H. in_cases H; split; reflexivity. }
  exact (@rule_16_without_pa_columns first_seen std_dictionary file_with_orphan
           Hnd Hwf file_with_orphan_has_no_pa).
Defined.

(** Merging what the merger returned for the two sources of scenario
    E. *)
Lemma merging_the_merged :
  combine_DICT_tables [mkFile "merged.ags" (Some [standard_LOCA_ID])] no_state
  = (no_state, Ok [standard_LOCA_ID]).
Proof.
  exact (@merger_is_idempotent [source_A; source_B] no_state [standard_LOCA_ID]
           "merged.ags" no_state eq_refl).
Defined.

Lemma standard_source_comes_first :
  exists rest,
    combine_DICT_tables [source_A; source_C] no_state
    = (printing no_state (warnings [source_C]), Ok ([standard_LOCA_ID] ++ rest)%list)
    /\ (forall r, In r rest ->
          In r (all_rows [source_C])
          /\ ~ In (dup_key r) (map dup_key [standard_LOCA_ID])).
Proof.
  apply (@merger_keeps_first_source source_A [source_C] no_state
           [standard_LOCA_ID] eq_refl ltac:(discriminate)).
  repeat constructor. simpl. tauto.
Defined.

(** A DATA line with a comma inside a field, against a heading row of
    three fields; a HEADING line; a UNIT line with a comma inside a field;
    a GROUP line. *)
Lemma rules_on_a_DATA_line :
  fields (wire_line ["DATA"; "BH01"; "sand, fine"]) = ["DATA"; "BH01"; "sand, fine"]
  /\ rule_2a (wire_line ["DATA"; "BH01"; "sand, fine"]) 5 [] = []
  /\ rule_3 (wire_line ["DATA"; "BH01"; "sand, fine"]) 5 [] = []
  /\ rule_4a (wire_line ["DATA"; "BH01"; "sand, fine"]) 5 [] = []
  /\ (LOCA_headings <> [] ->
      rule_4b (wire_line ["DATA"; "BH01"; "sand, fine"]) 5 "LOCA" LOCA_headings []
      = []).
Proof.
  apply (@well_formed_line_passes "DATA" ["BH01"; "sand, fine"] 5 "LOCA"
           LOCA_headings []).
  - simpl. tauto.
  - reflexivity.
Defined.

Lemma rules_on_a_HEADING_line :
  rule_19a (wire_line ["HEADING"; "LOCA_ID"; "LOCA_NATEX"]) 2 "LOCA" []
  = [("Rule 19a", [Err.mk (Line 2) "LOCA" (message_19a "LOCA_NATEX")])]
  /\ rule_19b (wire_line ["HEADING"; "LOCA_ID"; "LOCA_NATEX"]) 2 "LOCA" []
     = [("Rule 19b", [Err.mk (Line 2) "LOCA" (message_19b "LOCA_NATEX")])]
  /\ (rule_2c (wire_line ["HEADING"; "LOCA_ID"; "LOCA_NATEX"]) 2 [] = []
      <-> NoDup ["HEADING"; "LOCA_ID"; "LOCA_NATEX"]).
Proof.
  exact (@well_formed_heading_line ["LOCA_ID"; "LOCA_NATEX"] 2 "LOCA" []
           ltac:(discriminate) eq_refl).
Defined.

Lemma rule_5_on_a_UNIT_line_with_a_comma :
  rule_5 (wire_line ["UNIT"; "m"; "kg,m"]) 3 []
  = [("Rule 5",
      [Err.mk (Line 3) "" "Contains fields that are not enclosed in double quotes."])].
Proof.
  destruct (@rule_5_counts_commas "UNIT" ["m"; "kg,m"] 3 [] eq_refl) as [H _].
  destruct (H ltac:(simpl; tauto)) as [_ Hrec].
  exact (Hrec eq_refl).
Defined.

Lemma rules_on_a_GROUP_line :
  rule_3 (wire_line ["GROUP"; "AB12"]) 1 [] = []
  /\ rule_4a (wire_line ["GROUP"; "AB12"]) 1 [] = []
  /\ rule_19 (wire_line ["GROUP"; "AB12"]) 1 [] = [].
Proof. exact (@well_formed_group_line "AB12" [] 1 [] eq_refl eq_refl). Defined.




(** A line that ends as it should, and a line of one character. *)
Lemma rule_2a_on_short_lines :
  rule_2a ("DATA" ++ CRLF) 3 [] = []
  /\ rule_2a "D" 3 []
     = [("Rule 2a",
         [Err.mk (Line 3) "" "Is not terminated by <CR> and <LF> characters."])].
Proof.
  split.
  - apply (proj1 (@rule_2a_passes_crlf_only ("DATA" ++ CRLF) 3 [])).
    now exists "DATA".
  - apply (proj2 (@rule_2a_passes_crlf_only "D" 3 [])).
    intros [|c [|c' l]] H; simpl in H; discriminate.
Defined.

(** A HEADING line that names a heading twice. *)
Lemma rule_2c_on_repeated_heading :
  rule_2c (wire_line ["HEADING"; "LOCA_ID"; "LOCA_ID"]) 2 []
  = [("Rule 2c", [Err.mk (Line 2) "" "HEADER row has duplicate fields."])].
Proof.
  apply (proj1 (@rule_2c_duplicate_fields
                  (wire_line ["HEADING"; "LOCA_ID"; "LOCA_ID"]) 2 [])).
  - reflexivity.
  - intros H. vm_compute in H.
    inversion H as [|? ? _ H2]. inversion H2 as [|? ? Hn _].
    apply Hn. left. reflexivity.
Defined.

(** [rule_7] on the file with the orphan returns. *)
Lemma rule_7_returns_on_file_with_orphan :
  snd (group_rule first_seen first_seen_both std_dictionary Rule_7 file_with_orphan)
  = Ok tt.
Proof.
  exact (proj1 (proj2 (@group_rule_raises_only first_seen first_seen_both
                          std_dictionary Rule_7 file_with_orphan)) eq_refl).
Defined.

(** A PROJ table with two DATA rows, in a file without TRAN table. *)
Definition PROJ_twice : DataFrame :=
  mkDF [0; 1; 2; 3]%Z
    (Frame.mk ["HEADING"; "PROJ_ID"]
       [ ["UNIT"; ""]; ["TYPE"; "ID"]; ["DATA"; "P1"]; ["DATA"; "P2"] ]).

Lemma rule_13_and_rule_14_on_two_projects :
  rule_13 (parsed [("PROJ", PROJ_twice)])
  = (with_errors (parsed [("PROJ", PROJ_twice)])
       [("Rule 13",
         [Err.mk Dash "PROJ"
            "There should not be more than one DATA row in the PROJ table."])],
     Ok tt)
  /\ rule_14 (parsed [("PROJ", PROJ_twice)])
     = (with_errors (parsed [("PROJ", PROJ_twice)])
          [("Rule 14", [Err.mk Dash "TRAN" "TRAN table not found."])],
        Ok tt).
Proof.
  destruct (@rule_13_and_rule_14_want_one_data_row (parsed [("PROJ", PROJ_twice)]))
    as (_ & H13 & _ & H14 & _).
  split.
  - exact (H13 PROJ_twice [["DATA"; "P1"]; ["DATA"; "P2"]] eq_refl eq_refl).
  - exact (H14 eq_refl).
Defined.






(** The body of the loop of [rule_10c] on a root group, and on a group
    that the dictionary does not define. *)
Lemma rule_10c_group_on_LOCA_and_SAMP :
  rule_10c_group std_dictionary "LOCA" file_with_orphan = (file_with_orphan, Ok tt)
  /\ rule_10c_group std_dictionary "SAMP" file_with_orphan
     = (with_errors file_with_orphan
          [("Rule 10c",
            [Err.mk Dash "SAMP"
               "Could not check parent entries since group definitions not found in standard dictionary or DICT table."])],
        Ok tt).
Proof.
  split.
  - exact (proj1 (@rule_10c_group_diagnostics std_dictionary "LOCA" file_with_orphan)
             eq_refl).
  - exact (proj1 (proj2 (@rule_10c_group_diagnostics std_dictionary "SAMP"
                           file_with_orphan) eq_refl) eq_refl).
Defined.
